(** * tawhiri.wind: the dataset axes, the directory listing and the
      checklist-guarded unpacking of GRIB files

    A shallow embedding of [tawhiri/wind/__init__.py].  Python objects that
    the code mutates (the shared checklist, the dataset array, the mirror
    sink, the caller's manifest set) live in an explicit [world]; the code
    that raises is written in a state-and-exception monad whose state
    survives a raise, so that what a failed call leaves behind can be
    stated.

    What stands for the libraries the module calls:
    - a file is the list of records that [pygrib.open] iterates over; a
      record carries the attributes the module reads;
    - floating-point values (the latitude and longitude axes, the grids)
      are rationals: the axes hold multiples of one half only, and the
      grids are copied, never computed with;
    - a numpy array is its shape with its elements in C order; an
      operation on two arrays of different shapes is refused where numpy
      would try to broadcast;
    - file names are ASCII strings;
    - the callback is any function of the shared objects that returns or
      raises; ingestions that take turns are tasks that run from one
      callback to the next. *)

From Stdlib Require Import ZArith QArith Qround Ascii String.
From stdpp Require Import base list sorting strings gmap.

Local Open Scope Z_scope.

(** ** Python built-ins used by the module *)

Module Py.

(** [list.index(x)]: the first position holding [x]; [None] stands for
    the [ValueError] Python raises when [x] is absent. *)
Fixpoint index {A : Type} `{EqDecision A} (l : list A) (x : A) : option nat :=
  match l with
  | [] => None
  | y :: l' => if decide (y = x) then Some 0%nat else S <$> index l' x
  end.

(** [range(start, stop, step)] for a positive [step], as the list it
    denotes. *)
Definition range (start stop step : Z) : list Z :=
  (λ i : nat, start + step * Z.of_nat i) <$>
    seq 0 (Z.to_nat ((stop - start + step - 1) / step)).

(** [sorted(l, reverse=True)] on integers: insertion into a descending
    list. *)
Fixpoint insert_desc (x : Z) (l : list Z) : list Z :=
  match l with
  | [] => [x]
  | y :: l' => if (y <? x) then x :: l else y :: insert_desc x l'
  end.

Definition sorted_reverse (l : list Z) : list Z :=
  foldr insert_desc [] l.

(** [numpy.arange(start, stop, step)]: [ceil((stop - start) / step)]
    values [start + i * step].  The axes built with it only hold
    multiples of one half, which binary floating point represents
    exactly; they are kept as rationals. *)
Definition arange (start stop step : Q) : list Q :=
  (λ i : nat, (start + inject_Z (Z.of_nat i) * step)%Q) <$>
    seq 0 (Z.to_nat (Qceiling ((stop - start) / step))).

(** [numpy.array_equal] on one-dimensional arrays. *)
Fixpoint array_equal (a b : list Q) : bool :=
  match a, b with
  | [], [] => true
  | x :: a', y :: b' => Qeq_bool x y && array_equal a' b'
  | _, _ => false
  end.

(** [os.path.join(a, b)] of [posixpath] for two components. *)
Definition ends_with_slash (s : string) : bool :=
  match last (list_ascii_of_string s) with
  | Some c => bool_decide (c = "/"%char)
  | None => false
  end.

Definition path_join (a b : string) : string :=
  match b with
  | String "/" _ => b
  | _ =>
      if bool_decide (a = EmptyString) || ends_with_slash a
      then a +:+ b
      else a +:+ "/" +:+ b
  end.

(** Slices [s[:n]] and [s[n:]] of a string. *)
Definition str_take (n : nat) (s : string) : string :=
  string_of_list_ascii (take n (list_ascii_of_string s)).
Definition str_drop (n : nat) (s : string) : string :=
  string_of_list_ascii (drop n (list_ascii_of_string s)).

End Py.

(** ** [datetime.strptime(s, "%Y%m%d%H")]

    CPython turns the format into the regular expression
    [(?P<Y>\d\d\d\d)(?P<m>1[0-2]|0[1-9]|[1-9])(?P<d>3[0-1]|[1-2]\d|0[1-9]|[1-9]| [1-9])(?P<H>2[0-3]|[0-1]\d|\d)],
    takes the first match the backtracking search finds at the start of the
    string, raises [ValueError] when there is none or when the match does
    not reach the end of the string, and raises [ValueError] again when the
    fields are no calendar date.  File names are taken to be ASCII, so that
    [\d] is one of the ten digits. *)

Module Strptime.

Record datetime : Type := Datetime
  { year : Z; month : Z; day : Z; hour : Z }.

Definition is_digit (c : ascii) : bool :=
  (48 <=? nat_of_ascii c)%nat && (nat_of_ascii c <=? 57)%nat.

Definition digit (c : ascii) : Z := Z.of_nat (nat_of_ascii c) - 48.

Definition in_range (lo hi c : ascii) : bool :=
  (nat_of_ascii lo <=? nat_of_ascii c)%nat
  && (nat_of_ascii c <=? nat_of_ascii hi)%nat.

(** A group of the expression: every way it matches a prefix of the
    input, in the order the alternatives are tried, each with the value
    read and the rest of the input. *)
Definition group : Type := list ascii → list (Z * list ascii).

(** Two characters [a] in [lo1..hi1], [b] in [lo2..hi2]. *)
Definition two (lo1 hi1 lo2 hi2 : ascii) : group := λ s,
  match s with
  | a :: b :: rest =>
      if in_range lo1 hi1 a && in_range lo2 hi2 b
      then [(10 * digit a + digit b, rest)] else []
  | _ => []
  end.

(** One character in [lo..hi]. *)
Definition one (lo hi : ascii) : group := λ s,
  match s with
  | a :: rest => if in_range lo hi a then [(digit a, rest)] else []
  | _ => []
  end.

(** A space and then one character in [lo..hi]. *)
Definition space_one (lo hi : ascii) : group := λ s,
  match s with
  | a :: b :: rest =>
      if bool_decide (a = " "%char) && in_range lo hi b
      then [(digit b, rest)] else []
  | _ => []
  end.

Definition alt (g1 g2 : group) : group := λ s, g1 s ++ g2 s.

Definition group_Y : group := λ s,
  match s with
  | a :: b :: c :: d :: rest =>
      if is_digit a && is_digit b && is_digit c && is_digit d
      then [(1000 * digit a + 100 * digit b + 10 * digit c + digit d, rest)]
      else []
  | _ => []
  end.

Definition group_m : group :=
  alt (two "1" "1" "0" "2") (alt (two "0" "0" "1" "9") (one "1" "9")).

Definition group_d : group :=
  alt (two "3" "3" "0" "1")
    (alt (two "1" "2" "0" "9")
       (alt (two "0" "0" "1" "9")
          (alt (one "1" "9") (space_one "1" "9")))).

Definition group_H : group :=
  alt (two "2" "2" "0" "3") (alt (two "0" "1" "0" "9") (one "0" "9")).

(** All matches of the whole expression in backtracking order; the
    regular-expression engine returns the first. *)
Definition matches (s : list ascii) : list (Z * Z * Z * Z * list ascii) :=
  '(y, s1) ← group_Y s;
  '(m, s2) ← group_m s1;
  '(d, s3) ← group_d s2;
  '(h, s4) ← group_H s3;
  [(y, m, d, h, s4)].

Definition is_leap (y : Z) : bool :=
  (y mod 4 =? 0) && (negb (y mod 100 =? 0) || (y mod 400 =? 0)).

Definition days_in_month (y m : Z) : Z :=
  if m =? 2 then (if is_leap y then 29 else 28)
  else if (m =? 4) || (m =? 6) || (m =? 9) || (m =? 11) then 30
  else 31.

(** [datetime.date(y, m, d)] accepts the fields. *)
Definition valid_date (y m d : Z) : bool :=
  (1 <=? y) && (y <=? 9999) && (1 <=? m) && (m <=? 12)
  && (1 <=? d) && (d <=? days_in_month y m).

(** [None] stands for [ValueError]. *)
Definition strptime (s : string) : option datetime :=
  match matches (list_ascii_of_string s) with
  | (y, m, d, h, rest) :: _ =>
      match rest with
      | [] => if valid_date y m d then Some (Datetime y m d h) else None
      | _ :: _ => None          (* unconverted data remains *)
      end
  | [] => None                  (* does not match the format *)
  end.

(** [ds_time.strftime("%Y%m%d%H")]: the four fields as decimal digits,
    the year on four places and the others on two.  (The C library pads
    the year; for the years from 1000 on every platform prints these
    four digits.) *)
Definition digit_char (d : Z) : ascii := ascii_of_nat (48 + Z.to_nat d).

Definition two_digits (n : Z) : string :=
  String (digit_char (n / 10 mod 10)) (String (digit_char (n mod 10)) "").

Definition strftime (t : datetime) : string :=
  two_digits (year t / 100) +:+ two_digits (year t mod 100)
  +:+ two_digits (month t) +:+ two_digits (day t) +:+ two_digits (hour t).

End Strptime.

(** ** numpy arrays indexed by a (hour, pressure, variable) triple *)

Module Np.

(** An array keeps its shape and its elements in C order.  The checklist
    is such an array of booleans; the dataset array, which has two more
    axes, is held as an array of latitude × longitude slabs over the same
    three axes, since the code only ever addresses whole slabs. *)
Record ndarray (A : Type) : Type := NdArray
  { shape : list nat; data : list A }.
Arguments NdArray {A} _ _.
Arguments shape {A} _.
Arguments data {A} _.

Definition location : Type := nat * nat * nat.

Definition size (s : list nat) : nat := foldr Nat.mul 1%nat s.

(** [numpy.zeros(s)] and the like. *)
Definition full {A : Type} (s : list nat) (x : A) : ndarray A :=
  NdArray s (replicate (size s) x).

Definition wf {A : Type} (a : ndarray A) : Prop :=
  length (data a) = size (shape a).

(** The C-order offset of a triple in an array of three axes; [None]
    where numpy raises [IndexError]. *)
Definition ravel (s : list nat) (loc : location) : option nat :=
  match s, loc with
  | [a; b; c], (h, p, v) =>
      if decide (h < a ∧ p < b ∧ v < c)%nat
      then Some ((h * b + p) * c + v)%nat else None
  | _, _ => None
  end.

(** [a[loc]] *)
Definition getitem {A : Type} (a : ndarray A) (loc : location) : option A :=
  o ← ravel (shape a) loc; data a !! o.

(** [a[loc] = x] *)
Definition setitem {A : Type} (a : ndarray A) (loc : location) (x : A)
  : option (ndarray A) :=
  o ← ravel (shape a) loc;
  _ ← data a !! o;
  Some (NdArray (shape a) (<[o := x]> (data a))).

(** [a & b] and [a | b] on boolean arrays of one shape.  Arrays of
    different shapes are refused ([None]); numpy would first try to
    broadcast them. *)
Definition zip (f : bool → bool → bool) (a b : ndarray bool)
  : option (ndarray bool) :=
  if decide (shape a = shape b ∧ length (data a) = length (data b))
  then Some (NdArray (shape a) (zip_with f (data a) (data b)))
  else None.

Definition bitwise_and := zip andb.
Definition bitwise_or := zip orb.

(** [a.any()] *)
Definition any (a : ndarray bool) : bool := existsb id (data a).

(** The first [count] runs of [n] elements of a sequence: the last axis
    of an array in C order. *)
Fixpoint chunks {A : Type} (n count : nat) (l : list A) : list (list A) :=
  match count with
  | O => []
  | S count' => take n l :: chunks n count' (drop n l)
  end.

End Np.

(** ** The class [Dataset] *)

Module Dataset.

Import Strptime.

Definition shape : list nat := [65; 47; 3; 361; 720]%nat.

Definition pressures_pgrb2f : list Z :=
  [10; 20; 30; 50; 70; 100; 150; 200; 250; 300; 350; 400;
   450; 500; 550; 600; 650; 700; 750; 800; 850; 900; 925;
   950; 975; 1000].

Definition pressures_pgrb2bf : list Z :=
  [1; 2; 3; 5; 7; 125; 175; 225; 275; 325; 375; 425;
   475; 525; 575; 625; 675; 725; 775; 825; 875].

Record _axes_type : Type := Axes
  { hour : list Z;
    pressure : list Z;
    variable : list string;
    latitude : list Q;
    longitude : list Q }.

Definition axes : _axes_type :=
  Axes (Py.range 0 (192 + 3) 3)
       (Py.sorted_reverse (pressures_pgrb2f ++ pressures_pgrb2bf))
       ["height"; "wind_u"; "wind_v"]%string
       (Py.arange (-90) (90 + (1 # 2)) (1 # 2))
       (Py.arange 0 360 (1 # 2)).

(** [tuple(len(x) for x in axes)] *)
Definition axes_lengths (a : _axes_type) : list nat :=
  [length (hour a); length (pressure a); length (variable a);
   length (latitude a); length (longitude a)].

Record _listdir_type : Type := DatasetInRow
  { ds_time : datetime; suffix : string; filename : string; path : string }.

Definition SUFFIX_GRIBMIRROR : string := ".gribmirror".

(** [listdir(directory, only_suffices)], with [entries] what
    [os.listdir(directory)] returns; the result lists what the generator
    yields, in order.  [only_suffices and ...] is false for [None] and
    for an empty set alike. *)
Fixpoint listdir (directory : string) (entries : list string)
    (only_suffices : option (gset string)) : list _listdir_type :=
  match entries with
  | [] => []
  | filename :: rest =>
      if (String.length filename <? 10)%nat
      then listdir directory rest only_suffices
      else
        let ds_time_str := Py.str_take 10 filename in
        match strptime ds_time_str with
        | None => listdir directory rest only_suffices
        | Some ds_time =>
            let suffix := Py.str_drop 10 filename in
            if match only_suffices with
               | Some s => negb (bool_decide (s = ∅))
                           && negb (bool_decide (suffix ∈ s))
               | None => false
               end
            then listdir directory rest only_suffices
            else DatasetInRow ds_time suffix filename
                   (Py.path_join directory filename)
                 :: listdir directory rest only_suffices
        end
  end.

(** [checklist()]: [np.zeros(shape[0:3], dtype=bool)] *)
Definition checklist : Np.ndarray bool := Np.full (take 3 shape) false.

(** A grid of values over latitude × longitude, as rows. *)
Definition grid : Type := list (list Q).

(** An instance: [array] is the memory map, [None] once [close] has
    deleted it; it is writable when the dataset was opened with [new].
    The attribute [ds_time] is the field [time] here, [ds_time] being a
    field of the rows of [listdir]. *)
Record t : Type := Make
  { directory : string;
    time : datetime;
    new : bool;
    fn : string;
    array : option (Np.ndarray grid) }.

(** [filename(directory, ds_time, suffix)]; the name [filename] is a
    field of the rows of [listdir]. *)
Definition filename_of (directory : string) (ds_time : datetime)
    (suffix : string) : string :=
  Py.path_join directory (strftime ds_time +:+ suffix).

(** The slab of a file that has just been created: zeros. *)
Definition zero_slab : grid :=
  replicate (shape !!! 3%nat) (replicate (shape !!! 4%nat) 0%Q).

(** The slabs that [np.memmap] maps a file of values in C order to:
    rows over the last axis, slabs of rows over the last but one. *)
Definition slabs_of (file : list Q) : list grid :=
  Np.chunks (shape !!! 3%nat) (Np.size (take 3 shape))
    (Np.chunks (shape !!! 4%nat) (Np.size (take 4 shape)) file).

(** [__init__(directory, ds_time, suffix, new)]: with [new] the file is
    created or truncated and mapped for reading and writing, filled with
    zeros; without, the values that the file holds are mapped for
    reading, as many as the shape asks for, and [np.memmap] raises
    ([None]) when the file is too short for the shape. *)
Definition init (directory : string) (ds_time : datetime) (suffix : string)
    (new : bool) (file : list Q) : option t :=
  let fn := filename_of directory ds_time suffix in
  if new
  then Some (Make directory ds_time true fn
               (Some (Np.full (take 3 shape) zero_slab)))
  else if (length file <? Np.size shape)%nat then None
       else Some (Make directory ds_time false fn
                    (Some (Np.NdArray (take 3 shape) (slabs_of file)))).

(** [close()]: [del self.array] when there is one. *)
Definition close (d : t) : t :=
  Make (directory d) (time d) (new d) (fn d) None.

(** The instance after a write into its array. *)
Definition with_array (d : t) (a : Np.ndarray grid) : t :=
  Make (directory d) (time d) (new d) (fn d) (Some a).

End Dataset.

(** ** Exceptions, the world and the monad *)

(** A record's (forecastTime, level, variable) triple. *)
Definition location_name : Type := Z * Z * string.

(** A manifest: the Python set handed over as [file_checklist]. *)
Abbreviation manifest := (gset location_name).

(** The [ValueError]s of the module, by what raises them. *)
Inductive value_error : Type :=
  | NotInAxis (axis : nat)                 (* [Dataset.axes[i].index(n)] *)
  | RepeatedInFile (n : location_name)
  | AlreadyUnpacked (n : location_name)
  | IncorrectForecastTime
  | UnexpectedRecord (n : location_name)
  | UnexpectedLatitudes
  | UnexpectedLongitudes
  | RecordsMissing
  | ChecklistRace
  | ReadOnlyDestination                    (* numpy: array mapped with mode 'r' *)
  | CouldNotBroadcast.                     (* numpy: shapes do not fit *)

Inductive exn : Type :=
  | ValueError (v : value_error)
  | IndexError
  | KeyError (n : location_name)
  | TypeError
  | AttributeError
  | DanglingReference.    (* a set reference outside the store; no Python
                             program holds one *)

Inductive result (A : Type) : Type :=
  | Ok (a : A)
  | Raise (e : exn).
Arguments Ok {A} _.
Arguments Raise {A} _.

(** What ingestions running side by side share: the object passed as
    [checklist] and the one passed as [dataset] ([None]: not passed). *)
Record shared : Type := Shared
  { sh_checklist : option (Np.ndarray bool);
    sh_dataset : option Dataset.t }.

(** The objects one call works on: the shared ones, the mirror sink
    passed as [gribmirror] (the bytes written so far) and the store of set
    objects, addressed by position; [set.copy()] adds an object to it. *)
Record world : Type := World
  { w_shared : shared;
    w_gribmirror : option (list Byte.byte);
    w_sets : list manifest }.

Definition set_shared (s : shared) (w : world) : world :=
  World s (w_gribmirror w) (w_sets w).
Definition set_checklist (c : Np.ndarray bool) (w : world) : world :=
  set_shared (Shared (Some c) (sh_dataset (w_shared w))) w.
Definition set_dataset (d : Dataset.t) (w : world) : world :=
  set_shared (Shared (sh_checklist (w_shared w)) (Some d)) w.
Definition set_gribmirror (m : list Byte.byte) (w : world) : world :=
  World (w_shared w) (Some m) (w_sets w).
Definition set_sets (s : list manifest) (w : world) : world :=
  World (w_shared w) (w_gribmirror w) s.

(** A computation changes the world and returns or raises; the world it
    leaves is kept in both cases. *)
Definition M (A : Type) : Type := world → result A * world.

Definition ret {A : Type} (a : A) : M A := λ w, (Ok a, w).
Definition raise {A : Type} (e : exn) : M A := λ w, (Raise e, w).
Definition bind {A B : Type} (m : M A) (k : A → M B) : M B := λ w,
  match m w with
  | (Ok a, w') => k a w'
  | (Raise e, w') => (Raise e, w')
  end.
Definition lift {A : Type} (r : result A) : M A := λ w, (r, w).
Definition gets {A : Type} (f : world → A) : M A := λ w, (Ok (f w), w).
Definition modify (f : world → world) : M unit := λ w, (Ok tt, f w).

Declare Scope python_scope.
Delimit Scope python_scope with py.
Notation "x <- m ;; k" := (bind m (λ x, k))
  (at level 100, m at next level, right associativity) : python_scope.
Notation "m ;;; k" := (bind m (λ _, k))
  (at level 100, right associativity) : python_scope.

(** [o] or [IndexError]. *)
Definition or_index_error {A : Type} (o : option A) : result A :=
  match o with Some a => Ok a | None => Raise IndexError end.

(** ** Decoded records *)

Record grib_record : Type := GribRecord
  { typeOfLevel : string;
    name : string;
    forecastTime : Z;
    level : Z;
    values : Dataset.grid;
    distinctLatitudes : list Q;
    distinctLongitudes : list Q;
    tostring : list Byte.byte }.

(** The progress callback is the caller's code.  It may raise, and it may
    give way to other greenlets: what they do to the shared objects
    meanwhile is its effect here.  The manifest of a file and its mirror
    sink belong to the ingestion of that file; the callback works on the
    shared objects only. *)
Definition callback_type : Type :=
  Np.location → location_name → shared → result unit * shared.

(** The arguments of [unpack_grib] that are not objects of the world;
    [file_checklist] refers to a set of the store. *)
Record args : Type := Args
  { assert_hour : option Z;
    file_checklist : option nat;
    callback : option callback_type }.

(** The local variables of [unpack_grib]. *)
Record locals : Type := Locals
  { l_file_checklist : option nat;
    checklist_temp : Np.ndarray bool;
    checked_axes : bool }.

(** ** [_grib_records] *)

Definition _grib_name_to_variable : gmap string string :=
  list_to_map [("Geopotential Height", "height");
               ("U component of wind", "wind_u");
               ("V component of wind", "wind_v")]%string.

(** The two [continue]s of the generator: the triple of a record it
    keeps, [None] for a record it passes over. *)
Definition grib_location_name (record : grib_record) : option location_name :=
  if bool_decide (typeOfLevel record ≠ "isobaricInhPa"%string) then None
  else match _grib_name_to_variable !! name record with
       | None => None
       | Some v => Some (forecastTime record, level record, v)
       end.

(** [tuple(Dataset.axes[i].index(n) for i, n in enumerate(location_name))] *)
Definition grib_location (n : location_name) : result Np.location :=
  let '(h, p, v) := n in
  match Py.index (Dataset.hour Dataset.axes) h with
  | None => Raise (ValueError (NotInAxis 0))
  | Some i =>
      match Py.index (Dataset.pressure Dataset.axes) p with
      | None => Raise (ValueError (NotInAxis 1))
      | Some j =>
          match Py.index (Dataset.variable Dataset.axes) v with
          | None => Raise (ValueError (NotInAxis 2))
          | Some k => Ok (i, j, k)
          end
      end
  end.

(** ** [_check_record] and [_check_axes] *)

Definition _check_record (record : grib_record) (location : Np.location)
    (n : location_name) (checklist_temp : Np.ndarray bool)
    (checklist : option (Np.ndarray bool)) (assert_hour : option Z)
    (file_checklist : option manifest) : result unit :=
  match Np.getitem checklist_temp location with
  | None => Raise IndexError
  | Some true => Raise (ValueError (RepeatedInFile n))
  | Some false =>
      match match checklist with
            | None => Ok false
            | Some c => or_index_error (Np.getitem c location)
            end with
      | Raise e => Raise e
      | Ok true => Raise (ValueError (AlreadyUnpacked n))
      | Ok false =>
          if match assert_hour with
             | Some h => bool_decide (forecastTime record ≠ h)
             | None => false
             end
          then Raise (ValueError IncorrectForecastTime)
          else if match file_checklist with
                  | Some s => bool_decide (n ∉ s)
                  | None => false
                  end
               then Raise (ValueError (UnexpectedRecord n))
               else Ok tt
      end
  end.

Definition _check_axes (record : grib_record) : result unit :=
  if negb (Py.array_equal (distinctLatitudes record)
             (Dataset.latitude Dataset.axes))
  then Raise (ValueError UnexpectedLatitudes)
  else if negb (Py.array_equal (distinctLongitudes record)
                  (Dataset.longitude Dataset.axes))
       then Raise (ValueError UnexpectedLongitudes)
       else Ok tt.

(** ** The statements of the loop of [unpack_grib] *)

(** What numpy stores when a grid is assigned to a slab of [rows] ×
    [cols]: the grid itself, or its broadcast when it has one row or one
    column; [None] when the extents do not fit. *)
Definition broadcast_to (rows cols : nat) (g : Dataset.grid)
  : option Dataset.grid :=
  match g with
  | [] => None
  | row0 :: _ =>
      let r := length g in
      let c := length row0 in
      if forallb (λ row, length row =? c)%nat g
         && ((r =? rows) || (r =? 1))%nat
         && ((c =? cols) || (c =? 1))%nat
      then
        let wide :=
          if (c =? cols)%nat then g
          else (λ row, replicate cols (default 0%Q (head row))) <$> g in
        Some (if (r =? rows)%nat then wide
              else replicate rows (default [] (head wide)))
      else None
  end.

(** The set object a local name is bound to, [None] for [None]. *)
Definition deref (r : option nat) : M (option manifest) := λ w,
  match r with
  | None => (Ok None, w)
  | Some i =>
      match w_sets w !! i with
      | Some s => (Ok (Some s), w)
      | None => (Raise DanglingReference, w)
      end
  end.

(** [dataset.array[location] = record.values] under [if dataset is not
    None] *)
Definition write_dataset (location : Np.location) (v : Dataset.grid)
  : M unit := λ w,
  match sh_dataset (w_shared w) with
  | None => (Ok tt, w)
  | Some d =>
      match Dataset.array d with
      | None => (Raise AttributeError, w)
      | Some a =>
          if negb (Dataset.new d)
          then (Raise (ValueError ReadOnlyDestination), w)
          else
            match Np.ravel (Np.shape a) location with
            | None => (Raise IndexError, w)
            | Some _ =>
                match broadcast_to (Dataset.shape !!! 3%nat)
                        (Dataset.shape !!! 4%nat) v with
                | None => (Raise (ValueError CouldNotBroadcast), w)
                | Some slab =>
                    match Np.setitem a location slab with
                    | None => (Raise IndexError, w)
                    | Some a' =>
                        (Ok tt, set_dataset (Dataset.with_array d a') w)
                    end
                end
            end
      end
  end.

(** [gribmirror.write(record.tostring())] under [if gribmirror is not
    None] *)
Definition write_gribmirror (bytes : list Byte.byte) : M unit := λ w,
  match w_gribmirror w with
  | None => (Ok tt, w)
  | Some m => (Ok tt, set_gribmirror (m ++ bytes) w)
  end.

(** [file_checklist.remove(location_name)] under [if file_checklist is
    not None]: the set the local name is bound to is changed in place. *)
Definition remove_from (r : option nat) (n : location_name) : M unit := λ w,
  match r with
  | None => (Ok tt, w)
  | Some i =>
      match w_sets w !! i with
      | None => (Raise DanglingReference, w)
      | Some s =>
          if bool_decide (n ∈ s)
          then (Ok tt, set_sets (<[i := s ∖ {[n]}]> (w_sets w)) w)
          else (Raise (KeyError n), w)
      end
  end.

(** [callback(location, location_name)] under [if callback is not None] *)
Definition call_callback (cb : option callback_type)
    (location : Np.location) (n : location_name) : M unit := λ w,
  match cb with
  | None => (Ok tt, w)
  | Some f =>
      let '(r, s) := f location n (w_shared w) in (r, set_shared s w)
  end.

(** ** [unpack_grib] *)

Local Open Scope python_scope.

(** [file_checklist = file_checklist.copy()] under [if file_checklist is
    not None]: a new set object, to which the local name is bound. *)
Definition copy_set (r : option nat) : M (option nat) := λ w,
  match r with
  | None => (Ok None, w)
  | Some i =>
      match w_sets w !! i with
      | None => (Raise DanglingReference, w)
      | Some s => (Ok (Some (length (w_sets w))), set_sets (w_sets w ++ [s]) w)
      end
  end.

(** The statements before the loop.  The assertions on [Dataset.axes] and
    on the class attributes of [dataset] compare constants of the class
    with themselves and always pass. *)
Definition prologue (a : args) : M locals :=
  file_checklist <- copy_set (file_checklist a) ;;
  ret (Locals file_checklist Dataset.checklist false).

(** One turn of the loop, from [_check_record] to the statement before
    the callback. *)
Definition unpack_record (a : args) (record : grib_record)
    (location : Np.location) (n : location_name) (l : locals) : M locals :=
  checklist <- gets (λ w, sh_checklist (w_shared w)) ;;
  file_checklist <- deref (l_file_checklist l) ;;
  lift (_check_record record location n (checklist_temp l) checklist
          (assert_hour a) file_checklist) ;;;
  (if checked_axes l then ret tt else lift (_check_axes record)) ;;;
  write_dataset location (values record) ;;;
  write_gribmirror (tostring record) ;;;
  temp <- lift (or_index_error
                  (Np.setitem (checklist_temp l) location true)) ;;
  remove_from (l_file_checklist l) n ;;;
  ret (Locals (l_file_checklist l) temp true).

(** The loop over [_grib_records(filename)]; [records] is what
    [pygrib.open(filename)] iterates over.  The generator looks a record's
    location up when the loop asks for that record, after the turns of the
    records before it. *)
Fixpoint for_records (a : args) (records : list grib_record) (l : locals)
  : M locals :=
  match records with
  | [] => ret l
  | record :: rest =>
      match grib_location_name record with
      | None => for_records a rest l
      | Some n =>
          location <- lift (grib_location n) ;;
          l' <- unpack_record a record location n l ;;
          call_callback (callback a) location n ;;;
          for_records a rest l'
      end
  end.

(** The statements after the loop.  [file_checklist != set()] also holds
    of [None]. *)
Definition epilogue (l : locals) : M unit :=
  file_checklist <- deref (l_file_checklist l) ;;
  if bool_decide (file_checklist ≠ Some ∅)
  then raise (ValueError RecordsMissing)
  else
    checklist <- gets (λ w, sh_checklist (w_shared w)) ;;
    match checklist with
    | None => raise TypeError
    | Some c =>
        match Np.bitwise_and c (checklist_temp l) with
        | None => raise (ValueError CouldNotBroadcast)
        | Some both =>
            if Np.any both then raise (ValueError ChecklistRace)
            else
              match Np.bitwise_or c (checklist_temp l) with
              | None => raise (ValueError CouldNotBroadcast)
              | Some c' => modify (set_checklist c')
              end
        end
    end.

Definition unpack_grib (a : args) (records : list grib_record) : M unit :=
  l <- prologue a ;;
  l' <- for_records a records l ;;
  epilogue l'.

(** ** Ingestions that take turns

    Greenlets run one at a time; one gives way only inside its callback.
    A task therefore runs from where it stands to its next callback, or to
    the end of [unpack_grib], without any other task running in
    between. *)

Inductive pause : Type :=
  | Yield (pending : list grib_record) (l : locals)
  | Finished (l : locals).

(** [unpack_grib] from the head of the loop to the next callback. *)
Fixpoint run_to_yield (a : args) (records : list grib_record) (l : locals)
  : M pause :=
  match records with
  | [] => epilogue l ;;; ret (Finished l)
  | record :: rest =>
      match grib_location_name record with
      | None => run_to_yield a rest l
      | Some n =>
          location <- lift (grib_location n) ;;
          l' <- unpack_record a record location n l ;;
          match callback a with
          | None => run_to_yield a rest l'
          | Some f =>
              call_callback (Some f) location n ;;; ret (Yield rest l')
          end
      end
  end.

Inductive task_state : Type :=
  | Fresh                                           (* not started *)
  | Suspended (pending : list grib_record) (l : locals)
  | Returned (l : locals)                           (* merged and returned *)
  | Raised (e : exn).

(** A task: a call of [unpack_grib] with its own mirror sink and sets. *)
Record task : Type := Task
  { t_args : args;
    t_records : list grib_record;
    t_gribmirror : option (list Byte.byte);
    t_sets : list manifest;
    t_state : task_state }.

Record system : Type := System
  { sys_shared : shared;
    sys_tasks : list task }.

Definition resume (t : task) : option (M pause) :=
  match t_state t with
  | Fresh =>
      Some (l <- prologue (t_args t) ;;
            run_to_yield (t_args t) (t_records t) l)
  | Suspended pending l => Some (run_to_yield (t_args t) pending l)
  | Returned _ | Raised _ => None
  end.

(** A task that can run takes its turn on the shared objects. *)
Definition run_task (s : shared) (t : task) : option (shared * task) :=
  m ← resume t;
  let '(r, w) := m (World s (t_gribmirror t) (t_sets t)) in
  Some (w_shared w,
        Task (t_args t) (t_records t) (w_gribmirror w) (w_sets w)
          match r with
          | Ok (Yield pending l) => Suspended pending l
          | Ok (Finished l) => Returned l
          | Raise e => Raised e
          end).

(** The scheduler picks any task that can run. *)
Inductive step : system → system → Prop :=
  | step_task (sys : system) (i : nat) (t t' : task) (s' : shared) :
      sys_tasks sys !! i = Some t →
      run_task (sys_shared sys) t = Some (s', t') →
      step sys (System s' (<[i := t']> (sys_tasks sys))).

Definition reachable : system → system → Prop := rtc step.

Local Close Scope python_scope.

(** ** Notions used to state the properties *)

(** The triples of the records the generator keeps, in the order of the
    file. *)
Definition names (records : list grib_record) : list location_name :=
  omap grib_location_name records.

(** Every call of the callback keeps [P] of the shared objects. *)
Definition callback_keeps (a : args) (P : shared → Prop) : Prop :=
  ∀ f location n s, callback a = Some f → P s → P (f location n s).2.


(** Between [s] and [s'] nothing but calls of the callback changed the
    part [proj] of the shared objects: whatever the callback keeps of that
    part and holds at [s] holds at [s']. *)
Definition only_callbacks_changed {X : Type} (a : args) (proj : shared → X)
    (s s' : shared) : Prop :=
  ∀ P : X → Prop, callback_keeps a (λ s, P (proj s)) → P (proj s) → P (proj s').

(** What a turn of the loop itself does to the shared objects: nothing, or
    the write of one grid, as numpy stores it in a slab, into the array of
    a dataset open for writing. *)
Inductive own_write : shared → shared → Prop :=
  | own_nothing (s : shared) : own_write s s
  | own_slab (s : shared) (d : Dataset.t) (arr arr' : Np.ndarray Dataset.grid)
      (location : Np.location) (v slab : Dataset.grid) :
      sh_dataset s = Some d →
      Dataset.new d = true →
      Dataset.array d = Some arr →
      broadcast_to (Dataset.shape !!! 3%nat) (Dataset.shape !!! 4%nat) v
      = Some slab →
      Np.setitem arr location slab = Some arr' →
      own_write s (Shared (sh_checklist s) (Some (Dataset.with_array d arr'))).

(** The listing as the specification words it: the entries whose first
    ten characters parse, each with its timestamp, the rest of its name,
    its name and the joined path, and, when a filter is given, only those
    whose suffix is in it. *)
Definition listing_entry (directory : string) (only : option (gset string))
    (filename : string) : option Dataset._listdir_type :=
  if (String.length filename <? 10)%nat then None
  else
    ds_time ← Strptime.strptime (Py.str_take 10 filename);
    let suffix := Py.str_drop 10 filename in
    if match only with Some s => bool_decide (suffix ∈ s) | None => true end
    then Some (Dataset.DatasetInRow ds_time suffix filename
                 (Py.path_join directory filename))
    else None.

Definition listing (directory : string) (entries : list string)
    (only : option (gset string)) : list Dataset._listdir_type :=
  omap (listing_entry directory only) entries.

(** The filter that [listdir] applies: an empty one counts as none. *)
Definition applied_filter (only_suffices : option (gset string))
  : option (gset string) :=
  match only_suffices with
  | Some s => if decide (s = ∅) then None else Some s
  | None => None
  end.

(** The shapes of the shared arrays: of the checklist and of the array of
    the dataset. *)
Definition shapes (s : shared)
  : option (list nat) * option (option (list nat)) :=
  (Np.shape <$> sh_checklist s,
   (λ d, Np.shape <$> Dataset.array d) <$> sh_dataset s).

(** [unpack_grib] up to the end of the turns of [records], before the
    statements that follow the loop. *)
Definition unpack_prefix (a : args) (records : list grib_record) : M locals :=
  bind (prologue a) (for_records a records).

(** The array of the dataset holds, at [location], the slab that the grid
    [v] is stored as. *)
Definition holds_grid (location : Np.location) (v : Dataset.grid)
    (s : shared) : Prop :=
  ∃ d arr slab,
    sh_dataset s = Some d ∧ Dataset.array d = Some arr
    ∧ broadcast_to (Dataset.shape !!! 3%nat) (Dataset.shape !!! 4%nat) v
      = Some slab
    ∧ Np.getitem arr location = Some slab.

(** The records of a file that the generator keeps. *)
Definition kept (records : list grib_record) : list grib_record :=
  filter (λ r, is_Some (grib_location_name r)) records.

(** The local checklist is an array of the checklist's shape in which
    exactly the slots [locs] are true. *)
Definition marks (locs : list Np.location) (t : Np.ndarray bool) : Prop :=
  Np.shape t = take 3 Dataset.shape ∧ Np.wf t
  ∧ ∀ location,
      Np.getitem t location
      = (λ _, bool_decide (location ∈ locs))
          <$> Np.ravel (take 3 Dataset.shape) location.


(** The callback leaves the shared checklist as it is: it only gives
    way. *)
Definition callback_quiet (a : args) : Prop :=
  ∀ f location n s,
    callback a = Some f → sh_checklist (f location n s).2 = sh_checklist s.

(** The system after the tasks numbered in [order] have taken their turns
    one after the other; a number that names no task, or a task that
    cannot run, is passed over. *)
Fixpoint schedule (order : list nat) (sys : system) : system :=
  match order with
  | [] => sys
  | i :: rest =>
      match sys_tasks sys !! i with
      | Some t =>
          match run_task (sys_shared sys) t with
          | Some (s', t') =>
              schedule rest (System s' (<[i := t']> (sys_tasks sys)))
          | None => schedule rest sys
          end
      | None => schedule rest sys
      end
  end.

(** What a turn of a task does to the shared checklist: nothing, unless
    the task finishes, and then the merge of a local checklist that has no
    slot in common with it. *)
Definition turn_effect (r : result pause) (c0 c1 : option (Np.ndarray bool))
  : Prop :=
  match r with
  | Ok (Finished l) =>
      ∃ c both c',
        c0 = Some c ∧ c1 = Some c'
        ∧ Np.bitwise_and c (checklist_temp l) = Some both
        ∧ Np.any both = false
        ∧ Np.bitwise_or c (checklist_temp l) = Some c'
  | _ => c1 = c0
  end.

(** What holds of the tasks that have returned, element by element of the
    arrays. *)
Definition merged_once (sys : system) : Prop :=
  (∀ i t, sys_tasks sys !! i = Some t → callback_quiet (t_args t))
  ∧ (∀ i t l,
       sys_tasks sys !! i = Some t → t_state t = Returned l →
       ∃ c, sh_checklist (sys_shared sys) = Some c
            ∧ Np.shape c = Np.shape (checklist_temp l)
            ∧ length (Np.data c) = length (Np.data (checklist_temp l))
            ∧ ∀ o, Np.data (checklist_temp l) !! o = Some true →
                   Np.data c !! o = Some true)
  ∧ (∀ i j ti tj li lj o,
       i ≠ j →
       sys_tasks sys !! i = Some ti → t_state ti = Returned li →
       sys_tasks sys !! j = Some tj → t_state tj = Returned lj →
       ¬ (Np.data (checklist_temp li) !! o = Some true
          ∧ Np.data (checklist_temp lj) !! o = Some true)).

(** A task that takes all its turns with no other task in between; with
    [fuel] above the number of records it finishes or raises. *)
Fixpoint run_alone (fuel : nat) (a : args) (records : list grib_record)
    (l : locals) : M pause :=
  match fuel with
  | O => ret (Yield records l)
  | S fuel' =>
      bind (run_to_yield a records l)
        (λ p, match p with
              | Yield pending l1 => run_alone fuel' a pending l1
              | Finished l1 => ret (Finished l1)
              end)
  end.

(** ** Sample data *)

Module Example.

(** A record on isobaric levels with the axes of the dataset and a grid
    of one value. *)
Definition record_at (h p : Z) (nm : string) : grib_record :=
  GribRecord "isobaricInhPa" nm h p [[1%Q]]
    (Dataset.latitude Dataset.axes) (Dataset.longitude Dataset.axes) [].

Definition height_0_1000 : grib_record :=
  record_at 0 1000 "Geopotential Height".
Definition wind_u_3_1000 : grib_record :=
  record_at 3 1000 "U component of wind".

(** A fresh checklist, no dataset, no mirror and the caller's manifest
    as the only set. *)
Definition fresh_world (m : manifest) : world :=
  World (Shared (Some Dataset.checklist) None) None [m].

(** A callback during which another ingestion merges [location] into
    the shared checklist. *)
Definition other_commits (location : Np.location) : callback_type :=
  λ _ _ s,
    (Ok tt,
     Shared (c ← sh_checklist s;
             Some (default c (Np.setitem c location true)))
            (sh_dataset s)).

(** A dataset opened with [new]: its file is mapped zero-filled. *)
Definition new_dataset : Dataset.t :=
  Dataset.Make "/data" (Strptime.Datetime 2024 1 1 0) true "/data/2024010100"
    (Some (Np.full (take 3 Dataset.shape) Dataset.zero_slab)).

(** The same with the dataset passed on. *)
Definition fresh_world_with_dataset (m : manifest) : world :=
  World (Shared (Some Dataset.checklist) (Some new_dataset)) None [m].

Definition height : location_name := (0, 1000, "height"%string).
Definition wind_u : location_name := (3, 1000, "wind_u"%string).

(** Arguments with the manifest at position 0 of the store: without a
    callback, and with one during which slot (0, 0, 0) is merged. *)
Definition plain : args := Args None (Some 0%nat) None.
Definition racing : args :=
  Args None (Some 0%nat) (Some (other_commits (0, 0, 0)%nat)).

(** A callback that only gives way. *)
Definition gives_way : callback_type := λ _ _ s, (Ok tt, s).

(** Two ingestions of the same one-record file on a fresh checklist. *)
Definition same_file_twice : system :=
  System (Shared (Some Dataset.checklist) None)
    [Task (Args None (Some 0%nat) (Some gives_way)) [height_0_1000]
       None [{[height]}] Fresh;
     Task (Args None (Some 0%nat) (Some gives_way)) [height_0_1000]
       None [{[height]}] Fresh].

(** Two ingestions of files with different records. *)
Definition two_files : system :=
  System (Shared (Some Dataset.checklist) None)
    [Task (Args None (Some 0%nat) (Some gives_way)) [height_0_1000]
       None [{[height]}] Fresh;
     Task (Args None (Some 0%nat) (Some gives_way)) [wind_u_3_1000]
       None [{[wind_u]}] Fresh].

End Example.

(** ** Notions used to state further properties *)

(** A [datetime] down to the hour: a calendar date of the years 1 to
    9999 and an hour of the day. *)
Definition valid_datetime (t : Strptime.datetime) : Prop :=
  Strptime.valid_date (Strptime.year t) (Strptime.month t) (Strptime.day t)
  = true
  ∧ 0 <= Strptime.hour t <= 23.

(** A group of the expression reads one or two characters, and two
    characters that it reads are, unless the first is a space, the two
    decimal digits of the value. *)
Definition reads_digits (g : Strptime.group) : Prop :=
  ∀ s v rest,
    (v, rest) ∈ g s →
    (∃ a, s = a :: rest)
    ∨ (∃ a b, s = a :: b :: rest
              ∧ (a = " "%char
                 ∨ Strptime.two_digits v = String a (String b ""))).

(** The triple that the axes hold at a location: [grib_location] read
    backwards. *)
Definition location_name_at (location : Np.location) : option location_name :=
  let '(i, j, k) := location in
  h ← Dataset.hour Dataset.axes !! i;
  p ← Dataset.pressure Dataset.axes !! j;
  v ← Dataset.variable Dataset.axes !! k;
  Some (h, p, v).

(** Two records that differ at most in the latitudes and longitudes they
    declare. *)
Definition same_but_axes (r r' : grib_record) : Prop :=
  typeOfLevel r = typeOfLevel r' ∧ name r = name r'
  ∧ forecastTime r = forecastTime r' ∧ level r = level r'
  ∧ values r = values r' ∧ tostring r = tostring r'.

(** A grid of exactly [rows] × [cols] values. *)
Definition has_extent (rows cols : nat) (g : Dataset.grid) : Prop :=
  length g = rows ∧ Forall (λ row, length row = cols) g.

(** The callback leaves the dataset as it is. *)
Definition callback_keeps_dataset (a : args) : Prop :=
  ∀ f location n s,
    callback a = Some f → sh_dataset (f location n s).2 = sh_dataset s.

(** What the array of a dataset holds at a location; [None] when the
    dataset is closed or the location is outside the array. *)
Definition slab_at (d : Dataset.t) (location : Np.location)
  : option Dataset.grid :=
  arr ← Dataset.array d; Np.getitem arr location.

(** An axis of [n] values that start at [start] and are [step] apart. *)
Definition regular_axis (start step : Q) (n : nat) (l : list Q) : Prop :=
  length l = n
  ∧ ∀ (i : nat) x,
      l !! i = Some x → (x == start + inject_Z (Z.of_nat i) * step)%Q.

(** ** Ingestions of files that fit, taking turns *)







(** A callback that raises whenever it is called. *)
Definition raising_callback (e : exn) : callback_type := λ _ _ s, (Raise e, s).

(** ** The five axes of the array of a dataset *)

(** An array of slabs has the five axes [s]: its slabs are laid out over
    the first three, and each slab is a grid over the last two. *)
Definition has_shape (arr : Np.ndarray Dataset.grid) (s : list nat) : Prop :=
  length s = 5%nat
  ∧ Np.shape arr = take 3 s ∧ Np.wf arr
  ∧ Forall (has_extent (s !!! 3%nat) (s !!! 4%nat)) (Np.data arr).

(** The shapes of the shared arrays are those of load time: the checklist
    has the first three components of [Dataset.shape] as its shape, the
    array of the dataset all five. *)
Definition shapes_as_loaded (s : shared) : Prop :=
  (∀ c, sh_checklist s = Some c →
        Np.shape c = take 3 Dataset.shape ∧ Np.wf c)
  ∧ (∀ d arr, sh_dataset s = Some d → Dataset.array d = Some arr →
              has_shape arr Dataset.shape).


(** * Properties *)

(** ** Lists, axes and lookups *)

Section Index.
Context {A : Type} `{EqDecision A}.
Implicit Types (l : list A) (x : A).

Lemma index_None l x : Py.index l x = None ↔ x ∉ l.
Proof.
  induction l as [|y l IH]; simpl.
  - split; [intros _; apply not_elem_of_nil | done].
  - case_decide as Hy.
    + subst. split; [done | intros H; exfalso; apply H; left].
    + rewrite fmap_None, IH, not_elem_of_cons. intuition congruence.
Qed.

Lemma index_Some l x i :
  Py.index l x = Some i → l !! i = Some x ∧ ∀ j, (j < i)%nat → l !! j ≠ Some x.
Proof.
  revert i. induction l as [|y l IH]; intros i; simpl; [done|].
  case_decide as Hy.
  - intros [= <-]. subst. split; [done | lia].
  - rewrite fmap_Some. intros (k & Hk & ->).
    destruct (IH _ Hk) as [Hx Hfirst]. split; [done|].
    intros [|j] Hj; simpl; [congruence | apply Hfirst; lia].
Qed.

Lemma index_lt l x i : Py.index l x = Some i → (i < length l)%nat.
Proof. intros H. apply index_Some in H as [H _]. by eapply lookup_lt_Some. Qed.

Lemma index_is_Some l x : x ∈ l → is_Some (Py.index l x).
Proof.
  intros Hx. destruct (Py.index l x) eqn:E; [eauto|].
  apply index_None in E. done.
Qed.
End Index.

Lemma insert_desc_perm x l : Py.insert_desc x l ≡ₚ x :: l.
Proof.
  induction l as [|y l IH]; simpl; [done|].
  destruct (y <? x); [done|]. rewrite IH. apply Permutation_swap.
Qed.

Lemma sorted_reverse_perm l : Py.sorted_reverse l ≡ₚ l.
Proof.
  induction l as [|x l IH]; simpl; [done|].
  by rewrite insert_desc_perm, IH.
Qed.

Lemma insert_desc_sorted x l :
  StronglySorted Z.ge l → StronglySorted Z.ge (Py.insert_desc x l).
Proof.
  induction 1 as [|y l Hl IH Hy]; simpl.
  - repeat constructor.
  - destruct (Z.ltb_spec y x).
    + constructor; [by constructor|].
      constructor; [lia|]. eapply Forall_impl; [exact Hy|]. simpl. lia.
    + constructor; [done|].
      rewrite insert_desc_perm. constructor; [lia | done].
  Qed.

Lemma sorted_reverse_sorted l : StronglySorted Z.ge (Py.sorted_reverse l).
Proof.
  induction l as [|x l IH]; simpl; [constructor | by apply insert_desc_sorted].
Qed.

Lemma hour_axis :
  Dataset.hour Dataset.axes = (λ i : nat, 3 * Z.of_nat i) <$> seq 0 65.
Proof. reflexivity. Qed.

Lemma pressure_axis_max p : p ∈ Dataset.pressure Dataset.axes → p <= 1000.
Proof.
  intros Hp. vm_compute in Hp.
  repeat (apply elem_of_cons in Hp as [->|Hp]; [lia|]).
  by apply elem_of_nil in Hp.
Qed.

(** What the dictionary maps to is on the variable axis. *)
Lemma variable_on_axis nm v :
  _grib_name_to_variable !! nm = Some v →
  is_Some (Py.index (Dataset.variable Dataset.axes) v).
Proof.
  unfold _grib_name_to_variable. intros H. apply index_is_Some.
  cbn [list_to_map foldr uncurry fst snd] in H.
  repeat (apply lookup_insert_Some in H as [[_ <-]|[_ H]];
          [cbn; set_solver|]).
  by rewrite lookup_empty in H.
Qed.

(** C7: the position of hour 0 on the hour axis 0, 3, ..., 192 is 0; the
    pressure axis is the 47 levels of the two level sets sorted
    descending and the position of 1000, its largest level, is 0; the
    position of "height" on the variable axis is 0; and a lookup fails
    exactly when the value is not on the axis, which makes the lookup of a
    record's location raise; the variable of a record that the generator
    keeps is always on its axis. *)
Theorem axis_index_lookups :
  Dataset.hour Dataset.axes = (λ i : nat, 3 * Z.of_nat i) <$> seq 0 65
  ∧ Py.index (Dataset.hour Dataset.axes) 0 = Some 0%nat
  ∧ length (Dataset.pressure Dataset.axes) = 47%nat
  ∧ StronglySorted Z.ge (Dataset.pressure Dataset.axes)
  ∧ Dataset.pressure Dataset.axes
      ≡ₚ Dataset.pressures_pgrb2f ++ Dataset.pressures_pgrb2bf
  ∧ (∀ p, p ∈ Dataset.pressure Dataset.axes → p <= 1000)
  ∧ Py.index (Dataset.pressure Dataset.axes) 1000 = Some 0%nat
  ∧ Dataset.variable Dataset.axes = ["height"; "wind_u"; "wind_v"]%string
  ∧ Py.index (Dataset.variable Dataset.axes) "height"%string = Some 0%nat
  ∧ (∀ h, Py.index (Dataset.hour Dataset.axes) h = None
          ↔ h ∉ Dataset.hour Dataset.axes)
  ∧ (∀ p, Py.index (Dataset.pressure Dataset.axes) p = None
          ↔ p ∉ Dataset.pressure Dataset.axes)
  ∧ (∀ v, Py.index (Dataset.variable Dataset.axes) v = None
          ↔ v ∉ Dataset.variable Dataset.axes)
  ∧ (∀ h p v,
       (∃ i, grib_location (h, p, v) = Raise (ValueError (NotInAxis i)))
       ↔ (h ∉ Dataset.hour Dataset.axes
          ∨ p ∉ Dataset.pressure Dataset.axes
          ∨ v ∉ Dataset.variable Dataset.axes))
  ∧ (∀ nm v,
       _grib_name_to_variable !! nm = Some v →
       is_Some (Py.index (Dataset.variable Dataset.axes) v)).
Proof.
  split_and!; [apply hour_axis | reflexivity | reflexivity | | | | reflexivity
              | reflexivity | reflexivity | | | | | apply variable_on_axis].
  - apply sorted_reverse_sorted.
  - apply sorted_reverse_perm.
  - apply pressure_axis_max.
  - intros h. apply index_None.
  - intros p. apply index_None.
  - intros v. apply index_None.
  - intros h p v. unfold grib_location.
    rewrite <- !(index_None (A := Z)), <- (index_None (A := string)).
    destruct (Py.index (Dataset.hour _) h);
      [|split; [auto | eauto]].
    destruct (Py.index (Dataset.pressure _) p);
      [|split; [auto | eauto]].
    destruct (Py.index (Dataset.variable _) v);
      [|split; [auto | eauto]].
    split; [intros [i [=]] | intros [[=]|[[=]|[=]]]].
Qed.

(** ** Arrays *)

Lemma offset_unique (n q1 r1 q2 r2 : nat) :
  (r1 < n → r2 < n → q1 * n + r1 = q2 * n + r2 → q1 = q2 ∧ r1 = r2)%nat.
Proof.
  intros H1 H2 H.
  assert (r1 = (r1 + q1 * n) mod n)%nat as E1
    by (rewrite Nat.Div0.mod_add; symmetry; by apply Nat.mod_small).
  assert (r2 = (r2 + q2 * n) mod n)%nat as E2
    by (rewrite Nat.Div0.mod_add; symmetry; by apply Nat.mod_small).
  assert (r1 = r2) by (rewrite E1, E2; f_equal; lia).
  split; [nia | done].
Qed.

Section Arrays.
Context {A : Type}.
Implicit Types (a : Np.ndarray A) (loc : Np.location).

Lemma ravel_Some s loc o :
  Np.ravel s loc = Some o →
  ∃ n1 n2 n3, s = [n1; n2; n3]
    ∧ (loc.1.1 < n1 ∧ loc.1.2 < n2 ∧ loc.2 < n3)%nat
    ∧ o = ((loc.1.1 * n2 + loc.1.2) * n3 + loc.2)%nat.
Proof.
  destruct loc as [[h p] v]. unfold Np.ravel.
  destruct s as [|n1 [|n2 [|n3 [|? ?]]]]; try done.
  case_decide; [|done]. intros [= <-]. by exists n1, n2, n3.
Qed.

Lemma ravel_inj s loc1 loc2 o :
  Np.ravel s loc1 = Some o → Np.ravel s loc2 = Some o → loc1 = loc2.
Proof.
  intros H1 H2.
  apply ravel_Some in H1 as (n1 & n2 & n3 & -> & (?&?&?) & ->).
  apply ravel_Some in H2 as (? & ? & ? & [= <- <- <-] & (?&?&?) & Ho).
  destruct loc1 as [[h1 p1] v1], loc2 as [[h2 p2] v2]; simpl in *.
  destruct (offset_unique n3 (h1 * n2 + p1) v1 (h2 * n2 + p2) v2)
    as [Hhp ->]; [done..|].
  destruct (offset_unique n2 h1 p1 h2 p2) as [-> ->]; done.
Qed.

Lemma ravel_lt s loc o : Np.ravel s loc = Some o → (o < Np.size s)%nat.
Proof.
  intros H. apply ravel_Some in H as (n1 & n2 & n3 & -> & (?&?&?) & ->).
  destruct loc as [[h p] v]. simpl in *.
  assert (S h * n2 ≤ n1 * n2)%nat by (apply Nat.mul_le_mono_r; lia).
  assert (S (h * n2 + p) * n3 ≤ n1 * n2 * n3)%nat
    by (apply Nat.mul_le_mono_r; lia).
  lia.
Qed.

Lemma getitem_ravel a loc x :
  Np.getitem a loc = Some x ↔
  ∃ o, Np.ravel (Np.shape a) loc = Some o ∧ Np.data a !! o = Some x.
Proof. unfold Np.getitem. by rewrite bind_Some. Qed.

Lemma getitem_is_Some a loc o :
  Np.wf a → Np.ravel (Np.shape a) loc = Some o → is_Some (Np.getitem a loc).
Proof.
  intros Hwf Ho. unfold Np.getitem. rewrite Ho. simpl.
  apply lookup_lt_is_Some. rewrite Hwf. by eapply ravel_lt.
Qed.

Lemma setitem_Some a loc x a' :
  Np.setitem a loc x = Some a' ↔
  ∃ o, Np.ravel (Np.shape a) loc = Some o ∧ is_Some (Np.data a !! o)
       ∧ a' = Np.NdArray (Np.shape a) (<[o := x]> (Np.data a)).
Proof.
  unfold Np.setitem. rewrite bind_Some. split.
  - intros (o & Ho & H). apply bind_Some in H as (y & Hy & [= <-]). eauto.
  - intros (o & Ho & [y Hy] & ->). exists o. split; [done|].
    by rewrite Hy.
Qed.

Lemma setitem_shape a loc x a' :
  Np.setitem a loc x = Some a' → Np.shape a' = Np.shape a.
Proof. intros H. by apply setitem_Some in H as (o & _ & _ & ->). Qed.

Lemma setitem_length a loc x a' :
  Np.setitem a loc x = Some a' →
  length (Np.data a') = length (Np.data a).
Proof.
  intros H. apply setitem_Some in H as (o & _ & _ & ->).
  apply length_insert.
Qed.

Lemma setitem_wf a loc x a' :
  Np.setitem a loc x = Some a' → Np.wf a → Np.wf a'.
Proof.
  unfold Np.wf. intros H Hwf.
  by rewrite (setitem_length _ _ _ _ H), (setitem_shape _ _ _ _ H).
Qed.

Lemma setitem_is_Some a loc x :
  is_Some (Np.getitem a loc) → is_Some (Np.setitem a loc x).
Proof.
  intros [y Hy]. apply getitem_ravel in Hy as (o & Ho & Hy).
  eexists. apply setitem_Some. eauto.
Qed.

Lemma getitem_setitem_eq a loc x a' :
  Np.setitem a loc x = Some a' → Np.getitem a' loc = Some x.
Proof.
  intros H. apply setitem_Some in H as (o & Ho & Hy & ->).
  apply getitem_ravel. exists o. split; [done|]. simpl.
  apply list_lookup_insert_eq. by apply lookup_lt_is_Some.
Qed.

Lemma getitem_setitem_ne a loc x a' loc' :
  Np.setitem a loc x = Some a' → loc' ≠ loc →
  Np.getitem a' loc' = Np.getitem a loc'.
Proof.
  intros H Hne. apply setitem_Some in H as (o & Ho & Hy & ->).
  unfold Np.getitem. simpl.
  destruct (Np.ravel (Np.shape a) loc') as [o'|] eqn:Ho'; [|done]. simpl.
  apply list_lookup_insert_ne. intros <-.
  apply Hne. by eapply ravel_inj.
Qed.

Lemma getitem_full s (x : A) loc :
  Np.getitem (Np.full s x) loc = (λ _, x) <$> Np.ravel s loc.
Proof.
  unfold Np.getitem, Np.full. simpl.
  destruct (Np.ravel s loc) as [o|] eqn:Ho; [|done]. simpl.
  apply lookup_replicate_2. by eapply ravel_lt.
Qed.

Lemma full_wf s (x : A) : Np.wf (Np.full s x).
Proof. unfold Np.wf, Np.full. simpl. apply length_replicate. Qed.
End Arrays.

Lemma zip_Some f a b c :
  Np.zip f a b = Some c ↔
  Np.shape a = Np.shape b ∧ length (Np.data a) = length (Np.data b)
  ∧ c = Np.NdArray (Np.shape a) (zip_with f (Np.data a) (Np.data b)).
Proof.
  unfold Np.zip. case_decide as H.
  - destruct H. split; [intros [= <-]; done | intros (_ & _ & ->); done].
  - split; [done | intros (? & ? & _); tauto].
Qed.

Lemma getitem_zip f a b c loc :
  Np.zip f a b = Some c →
  Np.getitem c loc = (x ← Np.getitem a loc; y ← Np.getitem b loc; Some (f x y)).
Proof.
  intros H. apply zip_Some in H as (Hs & Hl & ->).
  unfold Np.getitem. simpl. rewrite <- Hs.
  destruct (Np.ravel (Np.shape a) loc) as [o|]; [|done]. simpl.
  rewrite lookup_zip_with. by destruct (Np.data a !! o).
Qed.

Lemma zip_shape f a b c : Np.zip f a b = Some c → Np.shape c = Np.shape a.
Proof. intros H. by apply zip_Some in H as (_ & _ & ->). Qed.


Lemma any_false a :
  Np.any a = false ↔ ∀ o, Np.data a !! o ≠ Some true.
Proof.
  unfold Np.any. rewrite <- not_true_iff_false, existsb_exists. split.
  - intros H o Ho. apply H. exists true. split; [|done].
    apply list_elem_of_In. by eapply list_elem_of_lookup_2.
  - intros H (x & Hx & Hid). simpl in Hid. subst x.
    apply list_elem_of_In, list_elem_of_lookup in Hx as [o Ho]. by eapply H.
Qed.

(** No slot is true in both arrays when their conjunction has no true
    element. *)
Lemma and_any_false a b both loc :
  Np.bitwise_and a b = Some both → Np.any both = false →
  ¬ (Np.getitem a loc = Some true ∧ Np.getitem b loc = Some true).
Proof.
  intros Hz Hany [Ha Hb].
  pose proof (getitem_zip _ _ _ _ loc Hz) as Hg. rewrite Ha, Hb in Hg. simpl in Hg.
  apply getitem_ravel in Hg as (o & _ & Ho).
  rewrite any_false in Hany. by eapply Hany.
Qed.


(** ** Running the monad *)

Lemma bind_run {A B : Type} (m : M A) (k : A → M B) w r w' :
  bind m k w = (r, w') →
  (∃ x w1, m w = (Ok x, w1) ∧ k x w1 = (r, w'))
  ∨ (∃ e, m w = (Raise e, w') ∧ r = Raise e).
Proof.
  unfold bind. destruct (m w) as [[x|e] w1]; intros H.
  - left. eauto.
  - right. injection H as <- <-. eauto.
Qed.

Lemma bind_Ok {A B : Type} (m : M A) (k : A → M B) w x w1 :
  m w = (Ok x, w1) → bind m k w = k x w1.
Proof. unfold bind. by intros ->. Qed.

Lemma bind_Raise {A B : Type} (m : M A) (k : A → M B) w e w1 :
  m w = (Raise e, w1) → bind m k w = (Raise e, w1).
Proof. unfold bind. by intros ->. Qed.

(** [inv_bind H as H1] splits a run [H] of [bind m k] into the run [H1]
    of [m] and, when [m] returns, the run [H] of [k]. *)
Tactic Notation "inv_bind" hyp(H) "as" ident(H1) :=
  let x := fresh "x" in
  let w1 := fresh "w" in
  let e := fresh "e" in
  let Hr := fresh "Hr" in
  apply bind_run in H as [(x & w1 & H1 & H) | (e & H1 & Hr)];
  [| try discriminate Hr; try (injection Hr as Hr); try subst ].

Tactic Notation "inv_bind" hyp(H) "as" ident(H1) ident(x) ident(w1) :=
  let e := fresh "e" in
  let Hr := fresh "Hr" in
  apply bind_run in H as [(x & w1 & H1 & H) | (e & H1 & Hr)];
  [| try discriminate Hr; try (injection Hr as Hr); try subst ].

(** ** What each statement does to the world *)

Lemma deref_run r w res w' :
  deref r w = (res, w') →
  w' = w ∧ ∀ o, res = Ok o → o = (r ≫= λ i, w_sets w !! i).
Proof.
  unfold deref. destruct r as [i|]; simpl.
  - destruct (w_sets w !! i) eqn:E; intros [= <- <-];
      (split; [done|]); intros o [=]. by subst.
  - intros [= <- <-]. split; [done|]. by intros o [= <-].
Qed.

Lemma write_dataset_run location v w res w' :
  write_dataset location v w = (res, w') →
  own_write (w_shared w) (w_shared w')
  ∧ w_gribmirror w' = w_gribmirror w ∧ w_sets w' = w_sets w.
Proof.
  unfold write_dataset.
  destruct (sh_dataset (w_shared w)) as [d|] eqn:Hd;
    [|intros [= <- <-]; split; [constructor | done]].
  destruct (Dataset.array d) as [arr|] eqn:Harr;
    [|intros [= <- <-]; split; [constructor | done]].
  destruct (Dataset.new d) eqn:Hnew; simpl;
    [|intros [= <- <-]; split; [constructor | done]].
  destruct (Np.ravel _ _);
    [|intros [= <- <-]; split; [constructor | done]].
  destruct (broadcast_to _ _ _) as [slab|] eqn:Hslab;
    [|intros [= <- <-]; split; [constructor | done]].
  destruct (Np.setitem arr location slab) as [arr'|] eqn:Hset;
    intros [= <- <-]; (split; [|done]); [|constructor].
  simpl. by apply (own_slab (w_shared w) d arr arr' location v slab).
Qed.

Lemma write_gribmirror_run bytes w res w' :
  write_gribmirror bytes w = (res, w') →
  res = Ok tt ∧ w_shared w' = w_shared w ∧ w_sets w' = w_sets w.
Proof.
  unfold write_gribmirror.
  destruct (w_gribmirror w); by intros [= <- <-].
Qed.

Lemma remove_from_run r n w res w' :
  remove_from r n w = (res, w') →
  w_shared w' = w_shared w ∧ w_gribmirror w' = w_gribmirror w
  ∧ (w_sets w' = w_sets w
     ∨ ∃ i s, r = Some i ∧ w_sets w !! i = Some s
              ∧ w_sets w' = <[i := s ∖ {[n]}]> (w_sets w)).
Proof.
  unfold remove_from. destruct r as [i|]; [|intros [= <- <-]; auto].
  destruct (w_sets w !! i) as [s|] eqn:Hs; [|intros [= <- <-]; auto].
  case_bool_decide; intros [= <- <-]; simpl; [|auto].
  split_and!; [done..|]. right. eauto.
Qed.

Lemma call_callback_run cb location n w res w' :
  call_callback cb location n w = (res, w') →
  w_gribmirror w' = w_gribmirror w ∧ w_sets w' = w_sets w
  ∧ (w_shared w' = w_shared w
     ∨ ∃ f, cb = Some f ∧ f location n (w_shared w) = (res, w_shared w')).
Proof.
  unfold call_callback. destruct cb as [f|]; [|intros [= <- <-]; auto].
  destruct (f location n (w_shared w)) as [r s] eqn:Hf.
  intros [= <- <-]. simpl. split_and!; [done..|]. right. eauto.
Qed.

Lemma copy_set_run r w res w' :
  copy_set r w = (res, w') →
  w_shared w' = w_shared w ∧ w_gribmirror w' = w_gribmirror w
  ∧ ((r = None ∧ res = Ok None ∧ w_sets w' = w_sets w)
     ∨ (∃ i, r = Some i ∧ w_sets w !! i = None
             ∧ res = Raise DanglingReference ∧ w_sets w' = w_sets w)
     ∨ (∃ i s, r = Some i ∧ w_sets w !! i = Some s
               ∧ res = Ok (Some (length (w_sets w)))
               ∧ w_sets w' = w_sets w ++ [s])).
Proof.
  unfold copy_set. destruct r as [i|];
    [|intros [= <- <-]; split_and!; [done..|]; by left].
  destruct (w_sets w !! i) as [s|] eqn:Hs; intros [= <- <-]; simpl.
  - split_and!; [done..|]. right. right. by exists i, s.
  - split_and!; [done..|]. right. left. by exists i.
Qed.

Lemma own_write_checklist s s' : own_write s s' → sh_checklist s' = sh_checklist s.
Proof. by destruct 1. Qed.

Lemma gets_run {A : Type} (f : world → A) w res w' :
  gets f w = (res, w') → res = Ok (f w) ∧ w' = w.
Proof. by intros [= <- <-]. Qed.

Lemma lift_run {A : Type} (r : result A) w res w' :
  lift r w = (res, w') → res = r ∧ w' = w.
Proof. by intros [= <- <-]. Qed.

Lemma ret_run {A : Type} (x : A) w res w' :
  ret x w = (res, w') → res = Ok x ∧ w' = w.
Proof. by intros [= <- <-]. Qed.

Lemma raise_run {A : Type} e w (res : result A) w' :
  raise e w = (res, w') → res = Raise e ∧ w' = w.
Proof. by intros [= <- <-]. Qed.

(** [inv_pure H] reads a run [H] of a statement that leaves the world as
    it is; the equation on its result keeps the name [H]. *)
Ltac inv_pure H :=
  cbv beta iota in H;
  first [ apply gets_run in H as [H ?]
        | apply lift_run in H as [H ?]
        | apply ret_run in H as [H ?]
        | apply raise_run in H as [H ?] ];
  simplify_eq.

(** A turn of the loop, whether it ends well or raises. *)
Lemma unpack_record_run a record location n l w res w' :
  unpack_record a record location n l w = (res, w') →
  own_write (w_shared w) (w_shared w')
  ∧ (w_sets w' = w_sets w
     ∨ ∃ i s, l_file_checklist l = Some i ∧ w_sets w !! i = Some s
              ∧ w_sets w' = <[i := s ∖ {[n]}]> (w_sets w)).
Proof.
  unfold unpack_record. intros H.
  inv_bind H as H1; inv_pure H1.
  inv_bind H as H1; apply deref_run in H1 as [-> _];
    [|split; [constructor | auto]].
  inv_bind H as H1; inv_pure H1; [|split; [constructor | auto]].
  inv_bind H as H2.
  2:{ destruct (checked_axes l); inv_pure H2. split; [constructor | auto]. }
  assert (w0 = w) as -> by (destruct (checked_axes l); by inv_pure H2).
  clear H2.
  inv_bind H as H2; apply write_dataset_run in H2 as (Hown & Hm & Hsets);
    [|rewrite Hsets; auto].
  inv_bind H as H2; apply write_gribmirror_run in H2 as (? & Hsh & Hsets');
    [|done].
  rewrite <- Hsh in Hown. rewrite Hsets in Hsets'. clear Hsh Hsets Hm.
  inv_bind H as H3; inv_pure H3; [|auto].
  assert (w_shared w' = w_shared w1 ∧
          (w_sets w' = w_sets w1
           ∨ ∃ i s, l_file_checklist l = Some i ∧ w_sets w1 !! i = Some s
                    ∧ w_sets w' = <[i := s ∖ {[n]}]> (w_sets w1)))
    as [-> Hs].
  { inv_bind H as H4; apply remove_from_run in H4 as (? & _ & ?);
      [by inv_pure H | done]. }
  rewrite Hsets' in Hs. auto.
Qed.

Lemma unpack_record_Ok a record location n l w l' w' :
  unpack_record a record location n l w = (Ok l', w') →
  ∃ temp,
    Np.setitem (checklist_temp l) location true = Some temp
    ∧ l' = Locals (l_file_checklist l) temp true
    ∧ _check_record record location n (checklist_temp l)
        (sh_checklist (w_shared w)) (assert_hour a)
        (l_file_checklist l ≫= λ i, w_sets w !! i) = Ok tt
    ∧ (checked_axes l = false → _check_axes record = Ok tt).
Proof.
  unfold unpack_record. intros H.
  inv_bind H as H1; inv_pure H1.
  inv_bind H as H1; apply deref_run in H1 as [-> Hfc].
  specialize (Hfc _ eq_refl). subst x.
  inv_bind H as H1; inv_pure H1. destruct x.
  inv_bind H as H2.
  assert (w0 = w ∧ (checked_axes l = false → _check_axes record = Ok tt))
    as [-> Haxes].
  { destruct (checked_axes l); inv_pure H2; [done|]. destruct x. done. }
  clear H2.
  inv_bind H as H2. inv_bind H as H3. inv_bind H as H4; inv_pure H4.
  inv_bind H as H5; inv_pure H.
  destruct (Np.setitem (checklist_temp l) location true) as [temp|] eqn:E;
    [|done].
  injection H4 as ->. by exists temp.
Qed.

Lemma prologue_run a w res w' :
  prologue a w = (res, w') →
  w_shared w' = w_shared w ∧ w_gribmirror w' = w_gribmirror w
  ∧ ((file_checklist a = None
      ∧ res = Ok (Locals None Dataset.checklist false) ∧ w_sets w' = w_sets w)
     ∨ (∃ i, file_checklist a = Some i ∧ w_sets w !! i = None
             ∧ res = Raise DanglingReference ∧ w_sets w' = w_sets w)
     ∨ (∃ i s, file_checklist a = Some i ∧ w_sets w !! i = Some s
               ∧ res = Ok (Locals (Some (length (w_sets w)))
                             Dataset.checklist false)
               ∧ w_sets w' = w_sets w ++ [s])).
Proof.
  unfold prologue. intros H.
  inv_bind H as H1;
    apply copy_set_run in H1
      as (Hs & Hm & [(? & ? & ?)|[(i & ? & ? & ? & ?)|(i & s & ? & ? & ? & ?)]]);
    simplify_eq; try inv_pure H.
  - split_and!; [done..|]. by left.
  - split_and!; [done..|]. right. right. by exists i, s.
  - split_and!; [done..|]. right. left. by exists i.
Qed.

Lemma epilogue_run l w res w' :
  epilogue l w = (res, w') →
  (∃ e, res = Raise e ∧ w' = w)
  ∨ (∃ i c both c',
       res = Ok tt
       ∧ l_file_checklist l = Some i ∧ w_sets w !! i = Some ∅
       ∧ sh_checklist (w_shared w) = Some c
       ∧ Np.bitwise_and c (checklist_temp l) = Some both
       ∧ Np.any both = false
       ∧ Np.bitwise_or c (checklist_temp l) = Some c'
       ∧ w' = set_checklist c' w).
Proof.
  unfold epilogue. intros H.
  inv_bind H as H1; apply deref_run in H1 as [-> Hfc]; [|eauto].
  specialize (Hfc _ eq_refl).
  case_bool_decide as Hne; [inv_pure H; eauto|].
  rewrite Hfc in Hne. apply bind_Some in Hne as (i & Hi & Hne). clear Hfc.
  inv_bind H as H1; inv_pure H1.
  destruct (sh_checklist (w_shared w)) as [c|] eqn:Hc; [|inv_pure H; eauto].
  destruct (Np.bitwise_and c (checklist_temp l)) as [both|] eqn:Hand;
    [|inv_pure H; eauto].
  destruct (Np.any both) eqn:Hany; [inv_pure H; eauto|].
  destruct (Np.bitwise_or c (checklist_temp l)) as [c'|] eqn:Hor;
    [|inv_pure H; eauto].
  injection H as <- <-. right. by exists i, c, both, c'.
Qed.

Lemma call_callback_keeps (P : shared → Prop) a location n w res w' :
  callback_keeps a P →
  call_callback (callback a) location n w = (res, w') →
  P (w_shared w) → P (w_shared w').
Proof.
  intros Hcb H HP.
  apply call_callback_run in H as (_ & _ & [->|(f & Hf & Hrun)]); [done|].
  specialize (Hcb f location n (w_shared w) Hf HP). by rewrite Hrun in Hcb.
Qed.

(** What the loop leaves of the shared objects comes from its own slab
    writes and from the callbacks. *)
Lemma for_records_keeps (P : shared → Prop) a :
  callback_keeps a P →
  (∀ s s', own_write s s' → P s → P s') →
  ∀ records l w res w',
    for_records a records l w = (res, w') → P (w_shared w) → P (w_shared w').
Proof.
  intros Hcb Hown. induction records as [|record rest IH];
    intros l w res w' H HP; simpl in H.
  - by inv_pure H.
  - destruct (grib_location_name record) as [n|]; [|by eapply IH].
    inv_bind H as H1; inv_pure H1; [|done].
    inv_bind H as H2; apply unpack_record_run in H2 as [Hw _];
      [|by eapply Hown].
    assert (P (w_shared w0)) as HP0 by (by eapply Hown).
    inv_bind H as H3;
      pose proof (call_callback_keeps P a _ _ _ _ _ Hcb H3 HP0) as HP1;
      [by eapply IH | done].
Qed.


(** Each way of failing, on the sample data: a forecast hour that is not
    on the axis, a record repeated in the file, a slot already unpacked,
    an hour other than the expected one, a record the manifest does not
    list, a record it lists that is missing, and a slot merged by another
    ingestion during the callback.  In all but the last the shared
    checklist is what it was; in the last it holds the other ingestion's
    slot and nothing of this file. *)
Lemma failure_paths :
  (* not on the axis *)
  (λ r, (r.1, sh_checklist (w_shared r.2)))
    (unpack_grib Example.plain
       [Example.record_at 1 1000 "Geopotential Height"]
       (Example.fresh_world {[Example.height]}))
  = (Raise (ValueError (NotInAxis 0)), Some Dataset.checklist)
  (* repeated in the file *)
  ∧ (λ r, (r.1, sh_checklist (w_shared r.2)))
      (unpack_grib Example.plain
         [Example.height_0_1000; Example.height_0_1000]
         (Example.fresh_world {[Example.height]}))
    = (Raise (ValueError (RepeatedInFile Example.height)),
       Some Dataset.checklist)
  (* expected hour *)
  ∧ (λ r, (r.1, sh_checklist (w_shared r.2)))
      (unpack_grib (Args (Some 3) (Some 0%nat) None) [Example.height_0_1000]
         (Example.fresh_world {[Example.height]}))
    = (Raise (ValueError IncorrectForecastTime), Some Dataset.checklist)
  (* not in the manifest *)
  ∧ (λ r, (r.1, sh_checklist (w_shared r.2)))
      (unpack_grib Example.plain [Example.height_0_1000]
         (Example.fresh_world {[Example.wind_u]}))
    = (Raise (ValueError (UnexpectedRecord Example.height)),
       Some Dataset.checklist)
  (* missing from the file *)
  ∧ (λ r, (r.1, sh_checklist (w_shared r.2)))
      (unpack_grib Example.plain [Example.height_0_1000]
         (Example.fresh_world {[Example.height; Example.wind_u]}))
    = (Raise (ValueError RecordsMissing), Some Dataset.checklist)
  (* merged meanwhile by another ingestion *)
  ∧ (λ r, (r.1, sh_checklist (w_shared r.2)))
      (unpack_grib Example.racing [Example.height_0_1000]
         (Example.fresh_world {[Example.height]}))
    = (Raise (ValueError ChecklistRace),
       Np.setitem Dataset.checklist (0, 0, 0)%nat true).
Proof. split_and!; vm_compute; reflexivity. Qed.

(** ** The sets of the store *)

Lemma unpack_record_locals a record location n l w l' w' :
  unpack_record a record location n l w = (Ok l', w') →
  l_file_checklist l' = l_file_checklist l.
Proof.
  intros H. apply unpack_record_Ok in H as (temp & _ & -> & _). done.
Qed.

Lemma for_records_locals a records :
  ∀ l w l' w',
    for_records a records l w = (Ok l', w') →
    l_file_checklist l' = l_file_checklist l.
Proof.
  induction records as [|record rest IH]; intros l w l' w' H; simpl in H.
  - by inv_pure H.
  - destruct (grib_location_name record) as [n|]; [|by eapply IH].
    inv_bind H as H1; inv_pure H1.
    inv_bind H as H2. apply unpack_record_locals in H2 as <-.
    inv_bind H as H3. by eapply IH.
Qed.

(** The loop changes no set but the one its local name is bound to. *)
Lemma for_records_sets (sets0 : list manifest) a records :
  ∀ l w res w',
    (∀ i, l_file_checklist l = Some i → length sets0 ≤ i)%nat →
    for_records a records l w = (res, w') →
    (∃ extra, w_sets w = sets0 ++ extra) →
    ∃ extra, w_sets w' = sets0 ++ extra.
Proof.
  induction records as [|record rest IH]; intros l w res w' Hl H Hw;
    simpl in H.
  - by inv_pure H.
  - destruct (grib_location_name record) as [n|]; [|by eapply IH].
    inv_bind H as H1; inv_pure H1; [|done].
    assert (∀ w1 r1, unpack_record a record x n l w = (r1, w1) →
                     ∃ extra, w_sets w1 = sets0 ++ extra) as Hturn.
    { intros w1 r1 Hrun.
      apply unpack_record_run in Hrun as [_ [->|(i & s & Hi & _ & ->)]];
        [done|].
      destruct Hw as [extra ->]. apply Hl in Hi.
      exists (<[(i - length sets0)%nat := s ∖ {[n]}]> extra).
      by rewrite insert_app_r_alt. }
    inv_bind H as H2; [|by eapply Hturn].
    pose proof (Hturn _ _ H2) as Hw0.
    apply unpack_record_locals in H2 as Hloc.
    inv_bind H as H3;
      apply call_callback_run in H3 as (_ & Hs & _); rewrite <- Hs in Hw0;
      [|done].
    eapply IH; [|done..]. by rewrite Hloc.
Qed.

Lemma prologue_sets a w res w' :
  prologue a w = (res, w') → ∃ extra, w_sets w' = w_sets w ++ extra.
Proof.
  intros H. apply prologue_run in H
    as (_ & _ & [(_ & _ & ->)|[(? & _ & _ & _ & ->)|(? & s & _ & _ & _ & ->)]]);
    [exists []; by rewrite app_nil_r .. | by exists [s]].
Qed.

Lemma prologue_Ok a w l w' :
  prologue a w = (Ok l, w') →
  checklist_temp l = Dataset.checklist ∧ checked_axes l = false
  ∧ (∀ i, l_file_checklist l = Some i → i = length (w_sets w))
  ∧ (l_file_checklist l = None ↔ file_checklist a = None)
  ∧ (l_file_checklist l ≫= λ i, w_sets w' !! i)
    = (file_checklist a ≫= λ i, w_sets w !! i).
Proof.
  intros H. apply prologue_run in H
    as (_ & _ & [(Ha & H & ->)|[(? & _ & _ & H & _)|(i & s & Ha & Hs & H & ->)]]);
    simplify_eq; simpl; rewrite Ha; simpl.
  - done.
  - split_and!; [done..| by intros i' [= <-] | done |].
    rewrite Hs. by apply list_lookup_middle.
Qed.

Lemma unpack_grib_sets a records w :
  ∃ extra, w_sets (unpack_grib a records w).2 = w_sets w ++ extra.
Proof.
  destruct (unpack_grib a records w) as [res w'] eqn:H. simpl.
  unfold unpack_grib in H.
  inv_bind H as H1 l w1; [|by eapply prologue_sets].
  apply prologue_Ok in H1 as Hl. destruct Hl as (_ & _ & Hl & _).
  apply prologue_sets in H1 as Hw.
  assert (∀ r0 w2, for_records a records l w1 = (r0, w2) →
            ∃ extra, w_sets w2 = w_sets w ++ extra) as Hloop.
  { intros r0 w2 Hf. eapply for_records_sets; [|done..].
    intros i Hi. apply Hl in Hi. lia. }
  inv_bind H as H2 l2 w2; [|by eapply Hloop].
  apply Hloop in H2 as [extra Hextra].
  apply epilogue_run in H
    as [(e' & _ & ->)|(? & ? & ? & c' & _ & _ & _ & _ & _ & _ & _ & ->)];
    by exists extra.
Qed.

(** C10: [unpack_grib] works on a copy of the manifest.  Whatever the call
    does, returning or raising, the sets that were in the store before the
    call are in it after the call with the same elements, the caller's
    manifest among them: the call only adds its copy to the store. *)
Theorem caller_manifest_untouched a records w :
  (∃ extra, w_sets (unpack_grib a records w).2 = w_sets w ++ extra)
  ∧ (∀ i s, file_checklist a = Some i → w_sets w !! i = Some s →
            w_sets (unpack_grib a records w).2 !! i = Some s).
Proof.
  destruct (unpack_grib_sets a records w) as [extra Hextra].
  split; [by exists extra|].
  intros i s _ Hs. rewrite Hextra. by apply lookup_app_l_Some.
Qed.

(** ** The statements after the loop *)

Lemma epilogue_records_missing l w :
  (epilogue l w).1 = Raise (ValueError RecordsMissing)
  ↔ (l_file_checklist l = None
     ∨ ∃ i s, l_file_checklist l = Some i ∧ w_sets w !! i = Some s ∧ s ≠ ∅).
Proof.
  unfold epilogue, bind, deref.
  destruct (l_file_checklist l) as [i|]; simpl.
  - destruct (w_sets w !! i) as [s|] eqn:Hs; simpl.
    + case_bool_decide as Hne; simpl.
      * split; [intros _|done]. right. exists i, s. split_and!; try done.
        by intros ->.
      * assert (s = ∅) as -> by (destruct (decide (s = ∅)); congruence).
        split.
        -- destruct (sh_checklist (w_shared w)) as [c|]; [|done].
           destruct (Np.bitwise_and c _) as [both|]; [|done].
           destruct (Np.any both); [done|].
           by destruct (Np.bitwise_or c _).
        -- intros [[=]|(i' & s' & [= <-] & Hs' & Hne')].
           rewrite Hs in Hs'. by injection Hs' as <-.
    + split; [done|]. intros [[=]|(i' & s' & [= <-] & Hs' & _)].
      by rewrite Hs in Hs'.
  - split; [auto | done].
Qed.

Lemma unpack_grib_prefix a records w :
  unpack_grib a records w = bind (unpack_prefix a records) epilogue w.
Proof.
  unfold unpack_grib, unpack_prefix, bind.
  by destruct (prologue a w) as [[l|e] w1].
Qed.

Lemma unpack_grib_without_manifest ah cb records w :
  (unpack_grib (Args ah None cb) records w).1 ≠ Ok tt.
Proof.
  destruct (unpack_grib _ records w) as [res w'] eqn:H. simpl.
  intros ->. unfold unpack_grib in H.
  inv_bind H as H1 l w1. apply prologue_Ok in H1 as (_ & _ & _ & [_ Hl] & _).
  specialize (Hl eq_refl).
  inv_bind H as H2 l2 w2. apply for_records_locals in H2. rewrite Hl in H2.
  apply epilogue_run in H as [(? & [=] & _)|(i & ? & ? & ? & _ & Hi & _)].
  congruence.
Qed.

(** C2: what the code does after the record stream is consumed.  The
    statements after the loop raise the missing-records error exactly when
    the local name [file_checklist] is [None] or is bound to a non-empty
    set; so a call without a manifest never returns, and on the one-record
    file of the sample data it raises the missing-records error although
    nothing is missing. *)
Theorem records_missing_also_without_manifest :
  (∀ l w,
     (epilogue l w).1 = Raise (ValueError RecordsMissing)
     ↔ (l_file_checklist l = None
        ∨ ∃ i s, l_file_checklist l = Some i ∧ w_sets w !! i = Some s
                 ∧ s ≠ ∅))
  ∧ (∀ ah cb records w, (unpack_grib (Args ah None cb) records w).1 ≠ Ok tt)
  ∧ unpack_grib (Args None None None) [Example.height_0_1000]
      (Example.fresh_world ∅)
    = (Raise (ValueError RecordsMissing), Example.fresh_world ∅).
Proof.
  split_and!.
  - apply epilogue_records_missing.
  - apply unpack_grib_without_manifest.
  - vm_compute. reflexivity.
Qed.

(** ** Shapes *)

Lemma own_write_shapes s s' : own_write s s' → shapes s' = shapes s.
Proof.
  destruct 1 as [|s d arr arr' location v slab Hd Hnew Harr Hslab Hset];
    [done|].
  unfold shapes. simpl. rewrite Hd. simpl. rewrite Harr. simpl.
  by rewrite (setitem_shape _ _ _ _ Hset).
Qed.

(** Whatever the call does, what it leaves of the shared objects comes
    from its slab writes, from the callbacks and from the merge. *)
Lemma unpack_grib_keeps_all (P : shared → Prop) a records w :
  callback_keeps a P →
  (∀ s s', own_write s s' → P s → P s') →
  (∀ s c t c', sh_checklist s = Some c → Np.bitwise_or c t = Some c' →
               P s → P (Shared (Some c') (sh_dataset s))) →
  P (w_shared w) → P (w_shared (unpack_grib a records w).2).
Proof.
  intros Hcb Hown Hmerge HP.
  destruct (unpack_grib a records w) as [res w'] eqn:H. simpl.
  unfold unpack_grib in H.
  inv_bind H as H1 l w1; apply prologue_run in H1 as (Hs & _ & _);
    [|by rewrite Hs].
  rewrite <- Hs in HP.
  inv_bind H as H2 l2 w2;
    pose proof (for_records_keeps P a Hcb Hown _ _ _ _ _ H2 HP) as HP2;
    [|done].
  apply epilogue_run in H
    as [(e' & _ & ->)|(? & c & ? & c' & _ & _ & _ & Hc & _ & _ & Hor & ->)];
    [done|].
  simpl. by eapply Hmerge.
Qed.

(** *** The five axes *)

Lemma chunks_length {A : Type} n c (l : list A) : length (Np.chunks n c l) = c.
Proof. revert l. induction c as [|c IH]; intros l; simpl; [done|]. by rewrite IH. Qed.

Lemma chunks_lengths {A : Type} n c (l : list A) :
  (n * c ≤ length l)%nat →
  Forall (λ x, length x = n) (Np.chunks n c l).
Proof.
  revert l. induction c as [|c IH]; intros l Hl; simpl; [constructor|].
  rewrite Nat.mul_succ_r in Hl. constructor.
  - rewrite length_take. lia.
  - apply IH. rewrite length_drop. lia.
Qed.

Lemma chunks_Forall {A : Type} (P : A → Prop) n c (l : list A) :
  Forall P l → Forall (Forall P) (Np.chunks n c l).
Proof.
  revert l. induction c as [|c IH]; intros l Hl; simpl; [constructor|].
  constructor; [by apply Forall_take | apply IH; by apply Forall_drop].
Qed.

Lemma size_axes a b c d e :
  Np.size (take 4 [a; b; c; d; e]) = (Np.size (take 3 [a; b; c; d; e]) * d)%nat
  ∧ Np.size [a; b; c; d; e] = (Np.size (take 4 [a; b; c; d; e]) * e)%nat.
Proof. unfold Np.size. simpl. lia. Qed.

Lemma shape_sizes :
  Np.size (take 4 Dataset.shape)
  = (Np.size (take 3 Dataset.shape) * (Dataset.shape !!! 3%nat))%nat
  ∧ Np.size Dataset.shape
    = (Np.size (take 4 Dataset.shape) * (Dataset.shape !!! 4%nat))%nat.
Proof. exact (size_axes 65 47 3 361 720). Qed.

(** The slabs mapped from a file that is long enough are grids of the
    last two extents. *)
Lemma slabs_of_shape file :
  (Np.size Dataset.shape ≤ length file)%nat →
  has_shape (Np.NdArray (take 3 Dataset.shape) (Dataset.slabs_of file))
    Dataset.shape.
Proof.
  intros Hlen. destruct shape_sizes as [H4 H5].
  unfold has_shape, Dataset.slabs_of. cbn [Np.shape Np.data].
  split_and!; [done | done | |].
  - unfold Np.wf. cbn [Np.shape Np.data]. apply chunks_length.
  - set (rows := Np.chunks (Dataset.shape !!! 4%nat)
                   (Np.size (take 4 Dataset.shape)) file).
    assert (Forall (λ row, length row = Dataset.shape !!! 4%nat) rows)
      as Hrows.
    { apply chunks_lengths. lia. }
    assert (length rows = Np.size (take 4 Dataset.shape)) as Hn
      by apply chunks_length.
    apply Forall_and. split.
    + apply chunks_lengths. lia.
    + by apply chunks_Forall.
Qed.

(** What numpy stores in a slab is a grid of the extents of the slab. *)
Lemma broadcast_to_extent rows cols g slab :
  broadcast_to rows cols g = Some slab → has_extent rows cols slab.
Proof.
  unfold broadcast_to. destruct g as [|row0 g']; [done|].
  destruct (forallb (λ row, length row =? length row0)%nat (row0 :: g'))
    eqn:Hall; [|done].
  rewrite forallb_forall in Hall.
  assert (Forall (λ row, length row = length row0) (row0 :: g')) as Hrows.
  { apply Forall_forall. intros row Hrow%list_elem_of_In.
    by apply Nat.eqb_eq, Hall. }
  cbv zeta.
  destruct (Nat.eqb_spec (length row0) cols) as [Hc|Hc],
           (Nat.eqb_spec (length (row0 :: g')) rows) as [Hr|Hr],
           (length row0 =? 1)%nat, (length (row0 :: g') =? 1)%nat;
    cbn [orb andb]; cbv iota; try done; intros [= <-]; split;
    try apply length_replicate; try apply Forall_replicate;
    try (by rewrite length_fmap); try (by rewrite <- Hc);
    try (apply Forall_fmap, Forall_forall; intros row _; simpl;
         apply length_replicate);
    try done; simpl; try apply length_replicate.
  all: first
         [ rewrite <- Hr; simpl; f_equal; apply length_fmap
         | constructor; [apply length_replicate|];
           apply Forall_fmap, Forall_forall; intros row _;
           apply length_replicate ].
Qed.

Lemma own_write_shapes_as_loaded s s' :
  own_write s s' → shapes_as_loaded s → shapes_as_loaded s'.
Proof.
  destruct 1 as [|s d arr arr' location v slab Hd Hnew Harr Hslab Hset];
    [done|].
  intros [Hc Hds]. split; [done|]. simpl. intros ? arr0 [= <-] [= <-].
  destruct (Hds d arr Hd Harr) as (Hlen & Hshape & Hwf & Hall).
  split_and!; [done| |by eapply setitem_wf|].
  - by rewrite (setitem_shape _ _ _ _ Hset).
  - apply setitem_Some in Hset as (o & _ & _ & ->). simpl.
    apply Forall_insert; [done|]. by eapply broadcast_to_extent.
Qed.

(** C9: the shape of the dataset is the constant (65, 47, 3, 361, 720),
    which is the tuple of the lengths of the five axes.  At load time
    every array has it: a new checklist has the first three components as
    its shape and is false everywhere, and the array of every instance
    that [__init__] builds, of a new file or of one read back, has the
    five axes of the constant (slabs over the first three axes, each a
    grid of 361 rows of 720 values), and these are the only five it has.
    No operation changes it: [unpack_grib] keeps, on every path, the
    shape of the shared checklist and the five axes of the array of the
    dataset, given that the callbacks do; and whatever the callbacks keep
    of the shapes over the first three axes is kept by the call, so that
    without a callback these are what they were. *)
Theorem dataset_shape_constant :
  Dataset.shape = [65; 47; 3; 361; 720]%nat
  ∧ Dataset.axes_lengths Dataset.axes = Dataset.shape
  ∧ Np.shape Dataset.checklist = take 3 Dataset.shape
  ∧ Np.wf Dataset.checklist
  ∧ (∀ location,
       Np.getitem Dataset.checklist location
       = (λ _, false) <$> Np.ravel (take 3 Dataset.shape) location)
  ∧ (∀ a records w,
       only_callbacks_changed a shapes (w_shared w)
         (w_shared (unpack_grib a records w).2))
  ∧ (∀ ah fc records w,
       shapes (w_shared (unpack_grib (Args ah fc None) records w).2)
       = shapes (w_shared w))
  ∧ (∀ directory ds_time suffix new file d,
       Dataset.init directory ds_time suffix new file = Some d →
       ∃ arr, Dataset.array d = Some arr ∧ has_shape arr Dataset.shape)
  ∧ (∀ arr s,
       has_shape arr Dataset.shape → has_shape arr s → s = Dataset.shape)
  ∧ (∀ a records w,
       callback_keeps a shapes_as_loaded →
       shapes_as_loaded (w_shared w) →
       shapes_as_loaded (w_shared (unpack_grib a records w).2))
  ∧ (∀ ah fc records w,
       shapes_as_loaded (w_shared w) →
       shapes_as_loaded
         (w_shared (unpack_grib (Args ah fc None) records w).2))
  ∧ has_extent 361 720 Dataset.zero_slab.
Proof.
  assert (∀ a records w,
            only_callbacks_changed a shapes (w_shared w)
              (w_shared (unpack_grib a records w).2)) as Hframe.
  { intros a records w P HP.
    apply (unpack_grib_keeps_all (λ s, P (shapes s))); [done| |].
    - intros s s' Hs. by rewrite (own_write_shapes _ _ Hs).
    - intros s c t c' Hc Hor. unfold shapes. simpl. rewrite Hc. simpl.
      by rewrite (zip_shape _ _ _ _ Hor). }
  assert (∀ a records w,
            callback_keeps a shapes_as_loaded →
            shapes_as_loaded (w_shared w) →
            shapes_as_loaded (w_shared (unpack_grib a records w).2))
    as Hloaded.
  { intros a records w Hcb.
    apply (unpack_grib_keeps_all shapes_as_loaded); [done| |].
    - apply own_write_shapes_as_loaded.
    - intros s c t c' Hc Hor [Hcs Hds]. split; [|done].
      simpl. intros ? [= <-]. destruct (Hcs c Hc) as [Hshape Hwf].
      pose proof Hor as Hz. apply zip_Some in Hz as (_ & Hlen & Hc').
      split; [by rewrite (zip_shape _ _ _ _ Hor)|].
      unfold Np.wf in *. rewrite Hc'. simpl. rewrite length_zip_with. lia. }
  assert (has_extent 361 720 Dataset.zero_slab) as Hzero.
  { split; [apply length_replicate|]. apply Forall_replicate.
    apply length_replicate. }
  split_and!; [reflexivity | reflexivity | reflexivity | | | | | | | | |
               done].
  - apply full_wf.
  - intros location. apply getitem_full.
  - done.
  - intros ah fc records w.
    apply (Hframe (Args ah fc None) records w (λ x, x = shapes (w_shared w)));
      [|done].
    by intros f location n s [=].
  - intros directory ds_time suffix new file d. unfold Dataset.init.
    destruct new.
    + intros [= <-]. eexists. split; [done|].
      split_and!; [done | done | apply full_wf |].
      cbn [Np.full Np.data]. by apply Forall_replicate.
    + destruct (Nat.ltb_spec (length file) (Np.size Dataset.shape))
        as [|Hle]; [done|].
      intros [= <-]. eexists. split; [done|]. by apply slabs_of_shape.
  - intros arr s (_ & Hshape & Hwf & Hall) (Hlen & Hshape' & _ & Hall').
    rewrite Hshape in Hshape'.
    destruct (Np.data arr) as [|slab slabs] eqn:Hdata.
    { unfold Np.wf in Hwf. rewrite Hdata, Hshape in Hwf. discriminate Hwf. }
    apply Forall_cons in Hall as [[Hr Hc] _].
    apply Forall_cons in Hall' as [[Hr' Hc'] _].
    destruct slab as [|row slab]; [discriminate Hr|].
    apply Forall_cons in Hc as [Hc _]. apply Forall_cons in Hc' as [Hc' _].
    destruct s as [|s0 [|s1 [|s2 [|s3 [|s4 [|]]]]]]; try discriminate Hlen.
    cbn in Hshape', Hr, Hc, Hr', Hc'. injection Hshape' as <- <- <-.
    assert (s3 = 361%nat) as -> by congruence.
    assert (s4 = 720%nat) as -> by congruence.
    reflexivity.
  - done.
  - intros ah fc records w. apply Hloaded. by intros f location n s [=].
Qed.

(** The name [filename] gives to a dataset file is one that [listdir]
    reads back with the same time and suffix. *)
Lemma filename_listed :
  Dataset.filename_of "/data" (Strptime.Datetime 2024 1 1 0)
    Dataset.SUFFIX_GRIBMIRROR
  = "/data/2024010100.gribmirror"%string
  ∧ Dataset.listdir "/data" ["2024010100.gribmirror"%string] None
    = [Dataset.DatasetInRow (Strptime.Datetime 2024 1 1 0)
         Dataset.SUFFIX_GRIBMIRROR "2024010100.gribmirror"
         (Dataset.filename_of "/data" (Strptime.Datetime 2024 1 1 0)
            Dataset.SUFFIX_GRIBMIRROR)].
Proof. split; vm_compute; reflexivity. Qed.

(** ** The directory listing *)

Lemma listdir_listing directory entries only_suffices :
  Dataset.listdir directory entries only_suffices
  = listing directory entries (applied_filter only_suffices).
Proof.
  unfold listing.
  assert (∀ suffix,
            match only_suffices with
            | Some s => negb (bool_decide (s = ∅))
                        && negb (bool_decide (suffix ∈ s))
            | None => false
            end
            = negb match applied_filter only_suffices with
                   | Some s => bool_decide (suffix ∈ s)
                   | None => true
                   end) as Hfilter.
  { intros suffix. unfold applied_filter.
    destruct only_suffices as [s|]; [|done].
    destruct (decide (s = ∅)) as [->|Hs].
    - by rewrite bool_decide_eq_true_2.
    - by rewrite bool_decide_eq_false_2. }
  induction entries as [|filename rest IH]; [done|].
  cbn [Dataset.listdir omap list_omap]. unfold listing_entry at 1.
  destruct (String.length filename <? 10)%nat; [exact IH|].
  destruct (Strptime.strptime (Py.str_take 10 filename)) as [t|];
    cbn [mbind option_bind]; [|exact IH].
  rewrite Hfilter.
  destruct (match applied_filter only_suffices with
            | Some s => bool_decide (Py.str_drop 10 filename ∈ s)
            | None => true
            end); cbn [negb]; [by rewrite IH | exact IH].
Qed.

(** C8, as stated, fails for an empty filter set: no suffix is in the
    empty set, yet the entry is listed. *)
Lemma listdir_empty_filter_counterexample :
  ¬ (∀ row,
       row ∈ Dataset.listdir "/data" ["2024010100"%string] (Some ∅) →
       Dataset.suffix row ∈ (∅ : gset string)).
Proof.
  intros H.
  specialize (H (Dataset.DatasetInRow (Strptime.Datetime 2024 1 1 0) ""
                   "2024010100" "/data/2024010100")).
  apply not_elem_of_empty in H; [done|].
  vm_compute. left.
Qed.

(** C8, amended: [listdir] yields, in the order of the directory, exactly
    the entries whose name has ten characters or more of which the first
    ten parse as a timestamp, each with the timestamp, the remaining
    characters as suffix, the name and the joined path; when a non-empty
    filter set is given, only the entries whose suffix is in it; an empty
    filter set filters nothing.  A directory with "2024010100",
    "2024010100.gribmirror" and "notadate.tmp" yields the first two. *)
Theorem listdir_yields :
  (∀ directory entries only_suffices,
     Dataset.listdir directory entries only_suffices
     = listing directory entries (applied_filter only_suffices))
  ∧ (∀ directory entries,
       Dataset.listdir directory entries (Some ∅)
       = Dataset.listdir directory entries None)
  ∧ (∀ directory entries only_suffices row,
       row ∈ Dataset.listdir directory entries only_suffices ↔
       ∃ filename ds_time,
         filename ∈ entries
         ∧ (10 ≤ String.length filename)%nat
         ∧ Strptime.strptime (Py.str_take 10 filename) = Some ds_time
         ∧ (∀ s, only_suffices = Some s → s ≠ ∅ →
                 Py.str_drop 10 filename ∈ s)
         ∧ row = Dataset.DatasetInRow ds_time (Py.str_drop 10 filename)
                   filename (Py.path_join directory filename))
  ∧ Dataset.listdir "/data"
      ["2024010100"; "2024010100.gribmirror"; "notadate.tmp"]%string None
    = [Dataset.DatasetInRow (Strptime.Datetime 2024 1 1 0) ""
         "2024010100" "/data/2024010100";
       Dataset.DatasetInRow (Strptime.Datetime 2024 1 1 0) ".gribmirror"
         "2024010100.gribmirror" "/data/2024010100.gribmirror"]
  ∧ Dataset.listdir "/data"
      ["2024010100"; "2024010100.gribmirror"; "notadate.tmp"]%string
      (Some {[Dataset.SUFFIX_GRIBMIRROR]})
    = [Dataset.DatasetInRow (Strptime.Datetime 2024 1 1 0) ".gribmirror"
         "2024010100.gribmirror" "/data/2024010100.gribmirror"].
Proof.
  split_and!.
  - apply listdir_listing.
  - intros directory entries. by rewrite !listdir_listing.
  - intros directory entries only_suffices row.
    rewrite listdir_listing. unfold listing.
    rewrite list_elem_of_omap. unfold listing_entry.
    split.
    + intros (filename & Hin & H).
      destruct (Nat.ltb_spec (String.length filename) 10); [done|].
      apply bind_Some in H as (ds_time & Ht & H).
      destruct (match applied_filter only_suffices with
                | Some s => bool_decide (Py.str_drop 10 filename ∈ s)
                | None => true
                end) eqn:Hf; [|done].
      injection H as <-.
      exists filename, ds_time. split_and!; try done.
      intros s -> Hs. unfold applied_filter in Hf.
      rewrite decide_False in Hf by done. by apply bool_decide_eq_true in Hf.
    + intros (filename & ds_time & Hin & Hlen & Ht & Hf & ->).
      exists filename. split; [done|].
      destruct (Nat.ltb_spec (String.length filename) 10); [lia|].
      rewrite Ht. simpl.
      assert (match applied_filter only_suffices with
              | Some s => bool_decide (Py.str_drop 10 filename ∈ s)
              | None => true
              end = true) as ->; [|done].
      unfold applied_filter. destruct only_suffices as [s|]; [|done].
      case_decide; [done|]. apply bool_decide_eq_true. by apply Hf.
  - vm_compute. reflexivity.
  - vm_compute. reflexivity.
Qed.

(** ** The checks on a record *)

Lemma check_record_Ok record location n temp checklist ah fc :
  _check_record record location n temp checklist ah fc = Ok tt ↔
  Np.getitem temp location = Some false
  ∧ (∀ c, checklist = Some c → Np.getitem c location = Some false)
  ∧ (∀ h, ah = Some h → forecastTime record = h)
  ∧ (∀ s, fc = Some s → n ∈ s).
Proof.
  unfold _check_record.
  destruct (Np.getitem temp location) as [[]|];
    [split; [done | by intros ([=] & _)] | |
     split; [done | by intros ([=] & _)]].
  assert (match checklist with
          | Some c => or_index_error (Np.getitem c location)
          | None => Ok false
          end = Ok false
          ↔ ∀ c, checklist = Some c → Np.getitem c location = Some false)
    as Hc.
  { destruct checklist as [c|]; [|by split].
    split.
    - intros H c' [= <-]. by destruct (Np.getitem c location) as [[]|].
    - intros H. by rewrite (H c eq_refl). }
  destruct (match checklist with
            | Some c => or_index_error (Np.getitem c location)
            | None => Ok false
            end) as [[]|e].
  - split; [done|]. intros (_ & H & _). by apply Hc in H.
  - assert ((match ah with
             | Some h => bool_decide (forecastTime record ≠ h)
             | None => false
             end = false)
            ↔ ∀ h, ah = Some h → forecastTime record = h) as Hh.
    { destruct ah as [h|]; [|by split].
      rewrite bool_decide_eq_false. split.
      - intros H ? [= <-]. by apply dec_stable.
      - intros H Hne. apply Hne. by apply H. }
    assert ((match fc with
             | Some s => bool_decide (n ∉ s)
             | None => false
             end = false)
            ↔ ∀ s, fc = Some s → n ∈ s) as Hs.
    { destruct fc as [s|]; [|by split].
      rewrite bool_decide_eq_false. split.
      - intros H ? [= <-]. by apply dec_stable.
      - intros H Hne. apply Hne. by apply H. }
    destruct (match ah with
              | Some h => bool_decide (forecastTime record ≠ h)
              | None => false
              end).
    + split; [done|]. intros (_ & _ & H & _). by apply Hh in H.
    + destruct (match fc with
                | Some s => bool_decide (n ∉ s)
                | None => false
                end).
      * split; [done|]. intros (_ & _ & _ & H). by apply Hs in H.
      * split; [intros _|done]. split_and!; [done| |by apply Hh|by apply Hs].
        by apply Hc.
  - split; [done|]. intros (_ & H & _). by apply Hc in H.
Qed.



(** A turn that raises in [_check_record] leaves the world as it was. *)
Lemma unpack_record_check_raises a record location n l w e :
  _check_record record location n (checklist_temp l)
    (sh_checklist (w_shared w)) (assert_hour a)
    (l_file_checklist l ≫= λ i, w_sets w !! i) = Raise e →
  (∀ i, l_file_checklist l = Some i → is_Some (w_sets w !! i)) →
  unpack_record a record location n l w = (Raise e, w).
Proof.
  intros Hcheck Hfc. unfold unpack_record, bind, gets, deref, lift.
  destruct (l_file_checklist l) as [i|]; simpl in *.
  - destruct (Hfc i eq_refl) as [s Hs]. rewrite Hs in *. simpl.
    by rewrite Hcheck.
  - by rewrite Hcheck.
Qed.

(** ** The local checklist along the loop *)

Lemma for_records_app a xs ys l w :
  for_records a (xs ++ ys) l w
  = bind (for_records a xs l) (for_records a ys) w.
Proof.
  revert l w. induction xs as [|record rest IH]; intros l w; simpl; [done|].
  destruct (grib_location_name record) as [n|]; [|apply IH].
  unfold bind.
  destruct (lift (grib_location n) w) as [[location|e] w1]; [|done].
  destruct (unpack_record a record location n l w1) as [[l1|e] w2]; [|done].
  destruct (call_callback (callback a) location n w2) as [[[]|e] w3]; [|done].
  apply IH.
Qed.

Lemma for_records_temp a records :
  ∀ l w l' w',
    for_records a records l w = (Ok l', w') →
    Np.shape (checklist_temp l') = Np.shape (checklist_temp l)
    ∧ length (Np.data (checklist_temp l'))
      = length (Np.data (checklist_temp l))
    ∧ (∀ location,
         Np.getitem (checklist_temp l) location = Some true →
         Np.getitem (checklist_temp l') location = Some true)
    ∧ (∀ n, n ∈ names records →
            ∃ location, grib_location n = Ok location
              ∧ Np.getitem (checklist_temp l') location = Some true).
Proof.
  induction records as [|record rest IH]; intros l w l' w' H; simpl in H.
  - inv_pure H. split_and!; [done..|]. intros n Hn. by apply elem_of_nil in Hn.
  - unfold names in *. cbn [omap list_omap].
    destruct (grib_location_name record) as [n|]; [|by eapply IH].
    inv_bind H as H1 location w1; inv_pure H1.
    inv_bind H as H2 l1 w2.
    apply unpack_record_Ok in H2 as (temp & Hset & -> & Hcheck & _).
    apply check_record_Ok in Hcheck as (Hfalse & _).
    inv_bind H as H3 u w3.
    apply IH in H as (Hshape & Hlen & Hmono & Hnames). simpl in *.
    split_and!.
    + by rewrite Hshape, (setitem_shape _ _ _ _ Hset).
    + by rewrite Hlen, (setitem_length _ _ _ _ Hset).
    + intros location' Htrue. apply Hmono.
      rewrite (getitem_setitem_ne _ _ _ _ _ Hset); [done|].
      intros ->. congruence.
    + intros n' [->|Hn']%elem_of_cons; [|by apply Hnames].
      exists location. split; [done|]. apply Hmono.
      by eapply getitem_setitem_eq.
Qed.

Lemma or_getitem_true c t c' location :
  Np.bitwise_or c t = Some c' →
  Np.getitem t location = Some true →
  Np.getitem c' location = Some true.
Proof.
  intros Hor Ht. rewrite (getitem_zip _ _ _ _ location Hor), Ht.
  apply zip_Some in Hor as (Hs & Hl & _).
  apply getitem_ravel in Ht as (o & Ho & Hd).
  assert (is_Some (Np.data c !! o)) as [x Hx].
  { apply lookup_lt_is_Some. rewrite Hl. by eapply lookup_lt_Some. }
  unfold Np.getitem at 1. rewrite Hs, Ho. simpl. rewrite Hx. simpl.
  by rewrite orb_true_r.
Qed.


(** ** A file ingested twice *)



(** A file without any record that the generator keeps has no first
    record: with an empty manifest it is ingested a second time as it was
    the first time. *)
Lemma reingest_of_file_without_records :
  (unpack_grib Example.plain [] (Example.fresh_world ∅)).1 = Ok tt
  ∧ (unpack_grib Example.plain []
       (unpack_grib Example.plain [] (Example.fresh_world ∅)).2).1 = Ok tt.
Proof. split; vm_compute; reflexivity. Qed.

(** ** Two records for one slot *)

Lemma write_dataset_Ok location v w w' :
  write_dataset location v w = (Ok tt, w') →
  match sh_dataset (w_shared w) with
  | None => w' = w
  | Some d =>
      ∃ arr slab arr',
        Dataset.array d = Some arr
        ∧ broadcast_to (Dataset.shape !!! 3%nat) (Dataset.shape !!! 4%nat) v
          = Some slab
        ∧ Np.setitem arr location slab = Some arr'
        ∧ w' = set_dataset (Dataset.with_array d arr') w
  end.
Proof.
  unfold write_dataset.
  destruct (sh_dataset (w_shared w)) as [d|]; [|by intros [= <-]].
  destruct (Dataset.array d) as [arr|]; [|done].
  destruct (Dataset.new d); [|done]. simpl.
  destruct (Np.ravel _ _); [|done].
  destruct (broadcast_to _ _ _) as [slab|]; [|done].
  destruct (Np.setitem arr location slab) as [arr'|] eqn:Hset; [|done].
  intros [= <-]. by exists arr, slab, arr'.
Qed.

(** What a turn that ends well has done to the dataset. *)
Lemma unpack_record_Ok_dataset a record location n l w l' w' :
  unpack_record a record location n l w = (Ok l', w') →
  match sh_dataset (w_shared w) with
  | None => sh_dataset (w_shared w') = None
  | Some d =>
      ∃ arr slab arr',
        Dataset.array d = Some arr
        ∧ broadcast_to (Dataset.shape !!! 3%nat) (Dataset.shape !!! 4%nat)
            (values record) = Some slab
        ∧ Np.setitem arr location slab = Some arr'
        ∧ sh_dataset (w_shared w') = Some (Dataset.with_array d arr')
  end.
Proof.
  unfold unpack_record. intros H.
  inv_bind H as H1 c w1; inv_pure H1.
  inv_bind H as H1 fc w1; apply deref_run in H1 as [-> _].
  inv_bind H as H1 u w1; inv_pure H1.
  inv_bind H as H2 u2 w2.
  assert (w2 = w) as -> by (destruct (checked_axes l); by inv_pure H2).
  clear H2.
  inv_bind H as H2 u3 w3. destruct u3.
  apply write_dataset_Ok in H2.
  inv_bind H as H3 u4 w4. apply write_gribmirror_run in H3 as (_ & Hsh & _).
  inv_bind H as H4 temp w5; inv_pure H4.
  inv_bind H as H5 u6 w6; inv_pure H.
  apply remove_from_run in H5 as (Hsh' & _). rewrite Hsh', Hsh.
  destruct (sh_dataset (w_shared w)) as [d|] eqn:Hd.
  - destruct H2 as (arr & slab & arr' & ? & ? & ? & ->).
    by exists arr, slab, arr'.
  - subst w3. done.
Qed.

(** A grid written for a slot stays in the array while the loop runs on:
    a later record of the file that passes the checks has another slot. *)
Lemma for_records_holds a location v records :
  (∀ f location n s, callback a = Some f →
                     sh_dataset (f location n s).2 = sh_dataset s) →
  ∀ l w l' w',
    for_records a records l w = (Ok l', w') →
    Np.getitem (checklist_temp l) location = Some true →
    holds_grid location v (w_shared w) →
    holds_grid location v (w_shared w').
Proof.
  intros Hquiet. induction records as [|record rest IH];
    intros l w l' w' H Htrue Hholds; simpl in H.
  - by inv_pure H.
  - destruct (grib_location_name record) as [n|]; [|by eapply IH].
    inv_bind H as H1 location' w1; inv_pure H1.
    inv_bind H as H2 l1 w2.
    pose proof (unpack_record_Ok_dataset _ _ _ _ _ _ _ _ H2) as Hd.
    apply unpack_record_Ok in H2 as (temp & Hset & -> & Hcheck & _).
    apply check_record_Ok in Hcheck as (Hfalse & _).
    assert (location ≠ location') as Hne by (intros ->; congruence).
    inv_bind H as H3 u w3.
    eapply IH; [done| |].
    + simpl. by rewrite (getitem_setitem_ne _ _ _ _ _ Hset).
    + destruct Hholds as (d & arr & slab & Hd0 & Harr & Hb & Hget).
      rewrite Hd0 in Hd.
      destruct Hd as (arr0 & slab' & arr' & Harr0 & _ & Hset' & Hd').
      rewrite Harr in Harr0. injection Harr0 as <-.
      assert (sh_dataset (w_shared w3) = sh_dataset (w_shared w2)) as Hsame.
      { apply call_callback_run in H3 as (_ & _ & [->|(f & Hf & Hrun)]);
          [done|].
        specialize (Hquiet f location' n (w_shared w2) Hf).
        by rewrite Hrun in Hquiet. }
      exists (Dataset.with_array d arr'), arr', slab.
      rewrite Hsame, Hd'. split_and!; [done..|].
      by rewrite (getitem_setitem_ne _ _ _ _ _ Hset').
Qed.

Lemma for_records_sets_length a records :
  ∀ l w res w',
    for_records a records l w = (res, w') →
    length (w_sets w') = length (w_sets w).
Proof.
  induction records as [|record rest IH]; intros l w res w' H; simpl in H.
  - by inv_pure H.
  - destruct (grib_location_name record) as [n|]; [|by eapply IH].
    inv_bind H as H1 location w1; inv_pure H1; [|done].
    assert (∀ r2 w2, unpack_record a record location n l w = (r2, w2) →
                     length (w_sets w2) = length (w_sets w)) as Hturn.
    { intros r2 w2 Hrun.
      apply unpack_record_run in Hrun as [_ [->|(i & s & _ & _ & ->)]];
        [done|]. apply length_insert. }
    inv_bind H as H2 l1 w2; [|by eapply Hturn].
    apply Hturn in H2.
    inv_bind H as H3 u w3; apply call_callback_run in H3 as (_ & Hs & _);
      [|congruence].
    apply IH in H. congruence.
Qed.

Lemma prologue_valid a w l w' :
  prologue a w = (Ok l, w') →
  ∀ i, l_file_checklist l = Some i → (i < length (w_sets w'))%nat.
Proof.
  intros H. apply prologue_run in H
    as (_ & _ & [(_ & Hl & _)|[(? & _ & _ & Hl & _)|(? & ? & _ & _ & Hl & Hs)]]).
  - injection Hl as ->. by intros i [=].
  - done.
  - injection Hl as ->. intros i [= <-]. rewrite Hs, length_app. simpl. lia.
Qed.

(** The call up to the end of the turns of [records], taken apart. *)
Lemma unpack_prefix_Ok a records w l w1 :
  unpack_prefix a records w = (Ok l, w1) →
  ∃ l0 w0,
    prologue a w = (Ok l0, w0)
    ∧ for_records a records l0 w0 = (Ok l, w1)
    ∧ w_shared w0 = w_shared w
    ∧ (∀ i, l_file_checklist l = Some i → is_Some (w_sets w1 !! i))
    ∧ Np.shape (checklist_temp l) = take 3 Dataset.shape.
Proof.
  unfold unpack_prefix. intros H. inv_bind H as H0 l0 w0.
  exists l0, w0. split_and!; [done..| | |].
  - by apply prologue_run in H0 as (? & _).
  - intros i Hi. rewrite (for_records_locals _ _ _ _ _ _ H) in Hi.
    apply lookup_lt_is_Some.
    rewrite (for_records_sets_length _ _ _ _ _ _ H).
    by eapply prologue_valid.
  - apply for_records_temp in H as (-> & _).
    by apply prologue_Ok in H0 as (-> & _).
Qed.



(** ** A file that fits *)

Lemma grib_location_in_range n location :
  grib_location n = Ok location →
  is_Some (Np.ravel (take 3 Dataset.shape) location).
Proof.
  destruct n as [[h p] v]. unfold grib_location.
  destruct (Py.index (Dataset.hour _) h) as [i|] eqn:Hi; [|done].
  destruct (Py.index (Dataset.pressure _) p) as [j|] eqn:Hj; [|done].
  destruct (Py.index (Dataset.variable _) v) as [k|] eqn:Hk; [|done].
  intros [= <-].
  apply index_lt in Hi, Hj, Hk.
  change (length (Dataset.hour Dataset.axes)) with 65%nat in Hi.
  change (length (Dataset.pressure Dataset.axes)) with 47%nat in Hj.
  change (length (Dataset.variable Dataset.axes)) with 3%nat in Hk.
  simpl. rewrite decide_True; [eauto | lia].
Qed.

Lemma marks_fresh : marks [] Dataset.checklist.
Proof.
  split; [done|]. split; [apply full_wf|].
  intros location. unfold Dataset.checklist. rewrite getitem_full.
  destruct (Np.ravel _ _); [|done]. cbn [fmap option_fmap option_map].
  by rewrite bool_decide_eq_false_2 by apply not_elem_of_nil.
Qed.

Lemma marks_setitem locs t location :
  marks locs t →
  is_Some (Np.ravel (take 3 Dataset.shape) location) →
  ∃ t', Np.setitem t location true = Some t' ∧ marks (locs ++ [location]) t'.
Proof.
  intros (Hshape & Hwf & Hget) [o Ho].
  destruct (setitem_is_Some t location true) as [t' Ht'].
  { rewrite Hget, Ho. eauto. }
  exists t'. split; [done|]. split_and!.
  - by rewrite (setitem_shape _ _ _ _ Ht').
  - by eapply setitem_wf.
  - intros location'. destruct (decide (location' = location)) as [->|Hne].
    + rewrite (getitem_setitem_eq _ _ _ _ Ht'), Ho. simpl. f_equal.
      symmetry. apply bool_decide_eq_true. apply elem_of_app. right.
      by apply list_elem_of_singleton.
    + rewrite (getitem_setitem_ne _ _ _ _ _ Ht' Hne), Hget.
      destruct (Np.ravel _ location'); [|done]. simpl. f_equal.
      apply bool_decide_ext. rewrite elem_of_app, list_elem_of_singleton.
      tauto.
Qed.






Lemma elem_of_kept r records :
  r ∈ kept records ↔ r ∈ records ∧ is_Some (grib_location_name r).
Proof. unfold kept. by rewrite list_elem_of_filter, (comm and). Qed.



(** The same file is refused as well when the latitudes of its first
    record are not those of the dataset. *)
Lemma fitting_file_refused_for_its_axes :
  (unpack_grib Example.plain
     [GribRecord "isobaricInhPa" "Geopotential Height" 0 1000 [[1%Q]]
        [] (Dataset.longitude Dataset.axes) []]
     (Example.fresh_world {[Example.height]})).1
  = Raise (ValueError UnexpectedLatitudes).
Proof. vm_compute. reflexivity. Qed.



(** ** Ingestions that take turns *)

Lemma run_to_yield_effect a records :
  callback_quiet a →
  ∀ l w r w',
    run_to_yield a records l w = (r, w') →
    turn_effect r (sh_checklist (w_shared w)) (sh_checklist (w_shared w')).
Proof.
  intros Hquiet. induction records as [|record rest IH];
    intros l w r w' H; simpl in H.
  - inv_bind H as H1 u w1.
    + inv_pure H.
      apply epilogue_run in H1
        as [(? & [=] & _)|(? & c & both & c' & _ & _ & _ & ? & ? & ? & ? & ->)].
      simpl. by exists c, both, c'.
    + by apply epilogue_run in H1 as [(? & _ & ->)|(? & ? & ? & ? & [=] & _)].
  - destruct (grib_location_name record) as [n|]; [|by eapply IH].
    inv_bind H as H1 location w1; inv_pure H1; [|done].
    inv_bind H as H2 l1 w2; apply unpack_record_run in H2 as [Hown _];
      apply own_write_checklist in Hown; [|done].
    destruct (callback a) as [f|] eqn:Hf.
    + inv_bind H as H3 u w3;
        apply call_callback_run in H3 as (_ & _ & [Hs|(f' & [= <-] & Hrun)]).
      * inv_pure H. simpl. by rewrite Hs.
      * inv_pure H. simpl. rewrite <- Hown.
        specialize (Hquiet f location n (w_shared w2) Hf).
        by rewrite Hrun in Hquiet.
      * simpl. by rewrite Hs.
      * simpl. rewrite <- Hown.
        specialize (Hquiet f location n (w_shared w2) Hf).
        by rewrite Hrun in Hquiet.
    + rewrite <- Hown. by eapply IH.
Qed.

Lemma run_task_effect s t s' t' :
  callback_quiet (t_args t) →
  run_task s t = Some (s', t') →
  t_args t' = t_args t
  ∧ (∀ l, t_state t ≠ Returned l)
  ∧ match t_state t' with
    | Returned l =>
        ∃ c both c',
          sh_checklist s = Some c ∧ sh_checklist s' = Some c'
          ∧ Np.bitwise_and c (checklist_temp l) = Some both
          ∧ Np.any both = false
          ∧ Np.bitwise_or c (checklist_temp l) = Some c'
    | _ => sh_checklist s' = sh_checklist s
    end.
Proof.
  intros Hquiet. unfold run_task. intros H.
  apply bind_Some in H as (m & Hm & H).
  destruct (m (World s (t_gribmirror t) (t_sets t))) as [r w] eqn:Hrun.
  injection H as <- <-. simpl.
  assert (turn_effect r (sh_checklist s) (sh_checklist (w_shared w)))
    as Heffect.
  { unfold resume in Hm. destruct (t_state t) as [|pending l| |]; try done.
    - injection Hm as <-.
      inv_bind Hrun as Hp l0 w0;
        apply prologue_run in Hp as (Hs0 & _ & _).
      + apply run_to_yield_effect in Hrun; [|done].
        by rewrite Hs0 in Hrun.
      + simpl. by rewrite Hs0.
    - injection Hm as <-. by apply run_to_yield_effect in Hrun. }
  split_and!; [done| |].
  - intros l Hl. unfold resume in Hm. by rewrite Hl in Hm.
  - by destruct r as [[]|].
Qed.

Lemma step_merged_once sys sys' :
  step sys sys' → merged_once sys → merged_once sys'.
Proof.
  intros [sys0 k t t' s' Hk Hrun] (Hquiet & Hin & Hdisj). simpl.
  apply run_task_effect in Hrun as (Hargs & Hnot & Heffect); [|by eapply Hquiet].
  assert (∀ i ti, <[k := t']> (sys_tasks sys0) !! i = Some ti →
             (i = k ∧ ti = t') ∨ (i ≠ k ∧ sys_tasks sys0 !! i = Some ti))
    as Hlookup.
  { intros i ti Hi. destruct (decide (i = k)) as [->|Hne].
    - rewrite list_lookup_insert_eq in Hi by (by eapply lookup_lt_Some).
      injection Hi as <-. by left.
    - rewrite list_lookup_insert_ne in Hi by done. by right. }
  (* the checklist keeps what is true in it and has the shape it had *)
  assert (∀ c, sh_checklist (sys_shared sys0) = Some c →
            ∃ c', sh_checklist s' = Some c'
                  ∧ Np.shape c' = Np.shape c
                  ∧ length (Np.data c') = length (Np.data c)
                  ∧ ∀ o, Np.data c !! o = Some true →
                         Np.data c' !! o = Some true) as Hgrow.
  { intros c Hc. destruct (t_state t') as [| |l|].
    1,2,4: exists c; by rewrite Heffect.
    destruct Heffect as (c0 & both & c' & Hc0 & Hc' & _ & _ & Hor).
    rewrite Hc in Hc0. injection Hc0 as <-.
    apply zip_Some in Hor as (Hs & Hl & ->).
    exists (Np.NdArray (Np.shape c)
              (zip_with orb (Np.data c) (Np.data (checklist_temp l)))).
    split_and!; [done..| |].
    - simpl. rewrite length_zip_with. lia.
    - intros o Ho. simpl. rewrite lookup_zip_with, Ho. simpl.
      destruct (lookup_lt_is_Some_2 (Np.data (checklist_temp l)) o)
        as [y ->]; [|done].
      rewrite <- Hl. by eapply lookup_lt_Some. }
  split_and!.
  - intros i ti Hi. destruct (Hlookup _ _ Hi) as [[-> ->]|[_ Hi']].
    + rewrite Hargs. by eapply Hquiet.
    + by eapply Hquiet.
  - intros i ti li Hi Hli.
    destruct (Hlookup _ _ Hi) as [[-> ->]|[Hne Hi']].
    + rewrite Hli in Heffect.
      destruct Heffect as (c & both & c' & Hc & Hc' & _ & _ & Hor).
      exists c'. split; [done|].
      apply zip_Some in Hor as (Hs & Hl & ->). simpl.
      split_and!; [done| |].
      * rewrite length_zip_with. lia.
      * intros o Ho. rewrite lookup_zip_with, Ho.
        destruct (lookup_lt_is_Some_2 (Np.data c) o) as [x ->];
          [|simpl; by rewrite orb_true_r].
        rewrite Hl. by eapply lookup_lt_Some.
    + destruct (Hin _ _ _ Hi' Hli) as (c & Hc & Hs & Hl & Hsub).
      destruct (Hgrow c Hc) as (c' & Hc' & Hs' & Hl' & Hsub').
      exists c'. split_and!; [done|congruence|congruence|].
      intros o Ho. by apply Hsub', Hsub.
  - assert (∀ j tj lj lk o,
              j ≠ k → sys_tasks sys0 !! j = Some tj →
              t_state tj = Returned lj → t_state t' = Returned lk →
              ¬ (Np.data (checklist_temp lj) !! o = Some true
                 ∧ Np.data (checklist_temp lk) !! o = Some true)) as Hnew.
    { intros j tj lj lk o Hne Hj Hlj Hlk [Htj Htk].
      rewrite Hlk in Heffect.
      destruct Heffect as (c & both & c' & Hc & _ & Hand & Hany & _).
      destruct (Hin _ _ _ Hj Hlj) as (c0 & Hc0 & _ & _ & Hsub).
      rewrite Hc in Hc0. injection Hc0 as <-.
      apply Hsub in Htj. rewrite any_false in Hany. apply (Hany o).
      apply zip_Some in Hand as (_ & _ & ->). simpl.
      by rewrite lookup_zip_with, Htj, Htk. }
    intros i j ti tj li lj o Hne Hi Hli Hj Hlj.
    destruct (Hlookup _ _ Hi) as [[-> ->]|[Hik Hi']],
             (Hlookup _ _ Hj) as [[-> ->]|[Hjk Hj']].
    + done.
    + intros [? ?]. by eapply (Hnew j tj lj li o).
    + by eapply (Hnew i ti li lj o).
    + by eapply (Hdisj i j ti tj li lj o).
Qed.

Lemma reachable_merged_once sys sys' :
  reachable sys sys' → merged_once sys → merged_once sys'.
Proof.
  induction 1 as [|sys1 sys2 sys3 Hstep _ IH]; [done|].
  intros H. apply IH. by eapply step_merged_once.
Qed.

Lemma schedule_reachable order sys : reachable sys (schedule order sys).
Proof.
  revert sys. induction order as [|i rest IH]; intros sys; simpl.
  - apply rtc_refl.
  - destruct (sys_tasks sys !! i) as [t|] eqn:Hi; [|apply IH].
    destruct (run_task (sys_shared sys) t) as [[s' t']|] eqn:Hrun;
      [|apply IH].
    eapply rtc_l; [|apply IH]. by eapply step_task.
Qed.

Lemma epilogue_race l w i c both :
  l_file_checklist l = Some i → w_sets w !! i = Some ∅ →
  sh_checklist (w_shared w) = Some c →
  Np.bitwise_and c (checklist_temp l) = Some both →
  Np.any both = true →
  epilogue l w = (Raise (ValueError ChecklistRace), w).
Proof.
  intros Hi Hs Hc Hand Hany. unfold epilogue.
  erewrite bind_Ok; [|unfold deref; by rewrite Hi, Hs].
  rewrite bool_decide_eq_false_2 by (by intros []).
  erewrite bind_Ok; [|reflexivity]. simpl. by rewrite Hc, Hand, Hany.
Qed.

Lemma getitem_true_data (t : Np.ndarray bool) location :
  Np.getitem t location = Some true →
  ∃ o, Np.ravel (Np.shape t) location = Some o ∧ Np.data t !! o = Some true.
Proof. intros H. by apply getitem_ravel in H. Qed.

(** C4: ingestions that share one checklist and give way only in their
    callbacks, in any order of turns.  After the stream, an ingestion
    whose local checklist has a slot in common with the shared one raises
    the race error and merges nothing.  No slot is true in the local
    checklists of two ingestions that have returned; what an ingestion
    that has returned merged is true in the shared checklist; and the
    slots an ingestion merges when it returns were false in the shared
    checklist just before: a slot goes from false to true in at most one
    ingestion that returns. *)
Theorem no_slot_merged_twice sys0 sys :
  (∀ t, t ∈ sys_tasks sys0 → t_state t = Fresh ∧ callback_quiet (t_args t)) →
  reachable sys0 sys →
  (∀ l w i c both,
     l_file_checklist l = Some i → w_sets w !! i = Some ∅ →
     sh_checklist (w_shared w) = Some c →
     Np.bitwise_and c (checklist_temp l) = Some both →
     Np.any both = true →
     epilogue l w = (Raise (ValueError ChecklistRace), w))
  ∧ (∀ i j ti tj li lj location,
       i ≠ j →
       sys_tasks sys !! i = Some ti → t_state ti = Returned li →
       sys_tasks sys !! j = Some tj → t_state tj = Returned lj →
       ¬ (Np.getitem (checklist_temp li) location = Some true
          ∧ Np.getitem (checklist_temp lj) location = Some true))
  ∧ (∀ i t l location,
       sys_tasks sys !! i = Some t → t_state t = Returned l →
       Np.getitem (checklist_temp l) location = Some true →
       ∃ c, sh_checklist (sys_shared sys) = Some c
            ∧ Np.getitem c location = Some true)
  ∧ (∀ sys' i t' l location,
       step sys sys' →
       sys_tasks sys' !! i = Some t' → t_state t' = Returned l →
       (∀ t l0, sys_tasks sys !! i = Some t → t_state t ≠ Returned l0) →
       Np.getitem (checklist_temp l) location = Some true →
       ∃ c c',
         sh_checklist (sys_shared sys) = Some c
         ∧ sh_checklist (sys_shared sys') = Some c'
         ∧ Np.getitem c location = Some false
         ∧ Np.getitem c' location = Some true).
Proof.
  intros Hfresh Hreach.
  assert (merged_once sys) as (Hquiet & Hin & Hdisj).
  { apply (reachable_merged_once sys0); [done|]. split_and!.
    - intros i t Hi.
      by apply list_elem_of_lookup_2, Hfresh in Hi as [_ ?].
    - intros i t l Hi Hl.
      apply list_elem_of_lookup_2, Hfresh in Hi as [? _]. congruence.
    - intros i j ti tj li lj o _ Hi Hl.
      apply list_elem_of_lookup_2, Hfresh in Hi as [? _]. congruence. }
  split_and!.
  - apply epilogue_race.
  - intros i j ti tj li lj location Hne Hi Hli Hj Hlj [Hti Htj].
    destruct (Hin _ _ _ Hi Hli) as (c & Hc & Hsi & _).
    destruct (Hin _ _ _ Hj Hlj) as (c' & Hc' & Hsj & _).
    rewrite Hc in Hc'. injection Hc' as <-.
    apply getitem_true_data in Hti as (o & Ho & Hdi).
    apply getitem_true_data in Htj as (o' & Ho' & Hdj).
    rewrite <- Hsi in Ho. rewrite <- Hsj, Ho in Ho'. injection Ho' as <-.
    by eapply (Hdisj i j ti tj li lj o).
  - intros i t l location Hi Hl Ht.
    destruct (Hin _ _ _ Hi Hl) as (c & Hc & Hs & _ & Hsub).
    exists c. split; [done|].
    apply getitem_true_data in Ht as (o & Ho & Hd).
    apply getitem_ravel. exists o. rewrite Hs. auto.
  - intros sys' i t' l location Hstep Hi Hl Hbefore Ht.
    destruct Hstep as [sys1 k t t1 s' Hk Hrun]. simpl in *.
    destruct (decide (i = k)) as [->|Hne].
    + rewrite list_lookup_insert_eq in Hi by (by eapply lookup_lt_Some).
      injection Hi as ->.
      apply run_task_effect in Hrun as (_ & _ & Heffect);
        [|by eapply Hquiet].
      rewrite Hl in Heffect.
      destruct Heffect as (c & both & c' & Hc & Hc' & Hand & Hany & Hor).
      exists c, c'. split_and!; [done..| |by eapply or_getitem_true].
      pose proof (and_any_false _ _ _ location Hand Hany) as Hno.
      pose proof (getitem_zip _ _ _ _ location Hor) as Hg.
      rewrite (or_getitem_true _ _ _ _ Hor Ht) in Hg.
      destruct (Np.getitem c location) as [[]|]; [|done..].
      exfalso. by apply Hno.
    + rewrite list_lookup_insert_ne in Hi by done.
      by destruct (Hbefore _ l Hi).
Qed.

(** Two ingestions of the same file that take turns: the first to finish
    returns, the other raises the race error. *)
Lemma no_slot_merged_twice_run :
  t_state <$> sys_tasks (schedule [0; 1; 0; 1]%nat Example.same_file_twice)
  = [Returned
       (Locals (Some 1%nat)
          (Np.NdArray [65; 47; 3]%nat
             (<[0%nat := true]> (replicate (65 * 47 * 3) false))) true);
     Raised (ValueError ChecklistRace)].
Proof. vm_compute. reflexivity. Qed.

(** Two ingestions of different files that take turns both return, and
    the shared checklist holds the slots of both. *)
Lemma two_files_both_merged :
  (λ sys,
     (match t_state <$> sys_tasks sys with
      | [Returned _; Returned _] => true
      | _ => false
      end,
      c ← sh_checklist (sys_shared sys);
      Some (Np.getitem c (0, 0, 0)%nat, Np.getitem c (1, 0, 1)%nat,
            length (filter (λ b, b = true) (Np.data c)))))
    (schedule [0; 1; 0; 1]%nat Example.two_files)
  = (true, Some (Some true, Some true, 2%nat)).
Proof. vm_compute. reflexivity. Qed.

Lemma no_slot_merged_twice_witness :
  (∀ l w i c both,
     l_file_checklist l = Some i → w_sets w !! i = Some ∅ →
     sh_checklist (w_shared w) = Some c →
     Np.bitwise_and c (checklist_temp l) = Some both →
     Np.any both = true →
     epilogue l w = (Raise (ValueError ChecklistRace), w))
  ∧ (∀ i j ti tj li lj location,
       i ≠ j →
       sys_tasks (schedule [0; 1; 0; 1]%nat Example.same_file_twice) !! i
       = Some ti →
       t_state ti = Returned li →
       sys_tasks (schedule [0; 1; 0; 1]%nat Example.same_file_twice) !! j
       = Some tj →
       t_state tj = Returned lj →
       ¬ (Np.getitem (checklist_temp li) location = Some true
          ∧ Np.getitem (checklist_temp lj) location = Some true))
  ∧ (∀ i t l location,
       sys_tasks (schedule [0; 1; 0; 1]%nat Example.same_file_twice) !! i
       = Some t →
       t_state t = Returned l →
       Np.getitem (checklist_temp l) location = Some true →
       ∃ c, sh_checklist
              (sys_shared
                 (schedule [0; 1; 0; 1]%nat Example.same_file_twice))
            = Some c
            ∧ Np.getitem c location = Some true)
  ∧ (∀ sys' i t' l location,
       step (schedule [0; 1; 0; 1]%nat Example.same_file_twice) sys' →
       sys_tasks sys' !! i = Some t' → t_state t' = Returned l →
       (∀ t l0,
          sys_tasks (schedule [0; 1; 0; 1]%nat Example.same_file_twice) !! i
          = Some t →
          t_state t ≠ Returned l0) →
       Np.getitem (checklist_temp l) location = Some true →
       ∃ c c',
         sh_checklist
           (sys_shared (schedule [0; 1; 0; 1]%nat Example.same_file_twice))
         = Some c
         ∧ sh_checklist (sys_shared sys') = Some c'
         ∧ Np.getitem c location = Some false
         ∧ Np.getitem c' location = Some true).
Proof.
  apply (no_slot_merged_twice Example.same_file_twice).
  - intros t Ht. split.
    + by repeat (apply elem_of_cons in Ht as [->|Ht]; [done|]);
        apply elem_of_nil in Ht.
    + intros f location n s Hf.
      repeat (apply elem_of_cons in Ht as [->|Ht];
              [by injection Hf as <-|]).
      by apply elem_of_nil in Ht.
  - apply schedule_reachable.
Defined.

(** ** A task on its own is a call of [unpack_grib] *)

Lemma run_to_yield_for_records a records :
  ∀ l w,
    match run_to_yield a records l w with
    | (Ok (Yield pending l1), w1) =>
        (length pending < length records)%nat
        ∧ ∀ (B : Type) (k : locals → M B),
            bind (for_records a records l) k w
            = bind (for_records a pending l1) k w1
    | (Ok (Finished l1), w1) =>
        ∃ w0, for_records a records l w = (Ok l1, w0)
              ∧ epilogue l1 w0 = (Ok tt, w1)
    | (Raise e, w1) =>
        bind (for_records a records l) epilogue w = (Raise e, w1)
    end.
Proof.
  induction records as [|record rest IH]; intros l w; simpl.
  - unfold bind, ret. destruct (epilogue l w) as [[[]|e] w1] eqn:He; [|done].
    by exists w.
  - destruct (grib_location_name record) as [n|].
    + unfold bind, lift.
      destruct (grib_location n) as [location|e]; [|done].
      destruct (unpack_record a record location n l w) as [[l1|e] w1];
        [|done].
      destruct (callback a) as [f|] eqn:Hf.
      * destruct (call_callback (Some f) location n w1) as [[[]|e] w2];
          [|done].
        simpl. split; [lia | done].
      * unfold call_callback. specialize (IH l1 w1).
        destruct (run_to_yield a rest l1 w1) as [[[pending l2|l2]|e] w2].
        -- destruct IH as [Hlen IH]. split; [lia|]. intros B k.
           apply IH.
        -- done.
        -- done.
    + specialize (IH l w).
      destruct (run_to_yield a rest l w) as [[[pending l2|l2]|e] w2];
        [|done..].
      destruct IH as [Hlen IH]. split; [lia | done].
Qed.

(** The turns of a task that no other task interrupts add up to the call
    of [unpack_grib]: the same world is left, and the task finishes
    exactly when the call returns. *)
Lemma run_alone_unpack_grib a records w :
  match unpack_grib a records w with
  | (Ok _, w1) =>
      ∃ l, bind (prologue a) (run_alone (S (length records)) a records) w
           = (Ok (Finished l), w1)
  | (Raise e, w1) =>
      bind (prologue a) (run_alone (S (length records)) a records) w
      = (Raise e, w1)
  end.
Proof.
  assert (∀ fuel records l w,
            (length records < fuel)%nat →
            match bind (for_records a records l) epilogue w with
            | (Ok _, w1) =>
                ∃ l1, run_alone fuel a records l w = (Ok (Finished l1), w1)
            | (Raise e, w1) => run_alone fuel a records l w = (Raise e, w1)
            end) as Hloop.
  { clear. induction fuel as [|fuel IH]; intros records l w Hlen; [lia|].
    cbn [run_alone].
    pose proof (run_to_yield_for_records a records l w) as H.
    unfold bind at 2 3.
    destruct (run_to_yield a records l w) as [[[pending l1|l1]|e] w1].
    - destruct H as [Hlt H]. rewrite H. apply IH. lia.
    - destruct H as (w0 & Hf & He). unfold bind. rewrite Hf, He. eauto.
    - by rewrite H. }
  unfold unpack_grib. unfold bind at 1 3 4.
  destruct (prologue a w) as [[l0|e] w0] eqn:Hp; [|done].
  apply (Hloop (S (length records)) records l0 w0). lia.
Qed.

(** ** Names of dataset files: [Dataset.filename] and [Dataset.listdir] *)

Section names.

Import Strptime.

(** *** Printing a timestamp and reading it back *)

Lemma Z_cases (P : Z → Prop) lo (n : nat) x :
  (∀ k : nat, (k < n)%nat → P (lo + Z.of_nat k)) →
  lo <= x < lo + Z.of_nat n → P x.
Proof.
  intros H Hx. replace x with (lo + Z.of_nat (Z.to_nat (x - lo))) by lia.
  apply H. lia.
Qed.

Lemma digit_char_digit d :
  0 <= d <= 9 → is_digit (digit_char d) = true ∧ digit (digit_char d) = d.
Proof.
  intros H. pattern d. apply (Z_cases _ 0 10); [|lia]. clear d H. intros k Hk.
  do 10 (destruct k as [|k]; [by vm_compute|]). lia.
Qed.
Lemma group_m_two_digits rest m :
  1 <= m <= 12 →
  head (group_m (list_ascii_of_string (two_digits m) ++ rest)) = Some (m, rest).
Proof.
  intros H. pattern m. apply (Z_cases _ 1 12); [|lia]. clear m H. intros k Hk.
  do 12 (destruct k as [|k]; [by vm_compute|]). lia.
Qed.
Lemma group_d_two_digits rest d :
  1 <= d <= 31 →
  head (group_d (list_ascii_of_string (two_digits d) ++ rest)) = Some (d, rest).
Proof.
  intros H. pattern d. apply (Z_cases _ 1 31); [|lia]. clear d H. intros k Hk.
  do 31 (destruct k as [|k]; [by vm_compute|]). lia.
Qed.
Lemma group_H_two_digits rest h :
  0 <= h <= 23 →
  head (group_H (list_ascii_of_string (two_digits h) ++ rest)) = Some (h, rest).
Proof.
  intros H. pattern h. apply (Z_cases _ 0 24); [|lia]. clear h H. intros k Hk.
  do 24 (destruct k as [|k]; [by vm_compute|]). lia.
Qed.

Lemma list_ascii_of_string_app (a b : string) :
  list_ascii_of_string (a +:+ b)
  = list_ascii_of_string a ++ list_ascii_of_string b.
Proof. induction a as [|c a IH]; simpl; [done|]. by rewrite IH. Qed.

Lemma head_bind {A B : Type} (l : list A) (f : A → list B) x y :
  head l = Some x → head (f x) = Some y → head (l ≫= f) = Some y.
Proof.
  destruct l as [|x' l]; [done|]. intros [= ->].
  destruct (f x) as [|y' k] eqn:E; [done|]. intros [= ->].
  cbn. by rewrite E.
Qed.

Lemma group_Y_four_digits rest y :
  0 <= y <= 9999 →
  group_Y (list_ascii_of_string (two_digits (y / 100))
           ++ list_ascii_of_string (two_digits (y mod 100)) ++ rest)
  = [(y, rest)].
Proof.
  intros Hy. unfold two_digits. cbn [list_ascii_of_string app group_Y].
  destruct (digit_char_digit (y / 100 / 10 mod 10)) as [-> ->]; [Z.div_mod_to_equations; lia|].
  destruct (digit_char_digit (y / 100 mod 10)) as [-> ->]; [Z.div_mod_to_equations; lia|].
  destruct (digit_char_digit (y mod 100 / 10 mod 10)) as [-> ->]; [Z.div_mod_to_equations; lia|].
  destruct (digit_char_digit (y mod 100 mod 10)) as [-> ->]; [Z.div_mod_to_equations; lia|].
  cbn [andb]. do 2 f_equal. Z.div_mod_to_equations; lia.
Qed.

Lemma days_in_month_le y m : days_in_month y m <= 31.
Proof. unfold days_in_month. repeat case_match; lia. Qed.

Lemma valid_date_range y m d :
  valid_date y m d = true →
  1 <= y <= 9999 ∧ 1 <= m <= 12 ∧ 1 <= d <= days_in_month y m.
Proof. unfold valid_date. rewrite !andb_true_iff. lia. Qed.

Lemma strptime_strftime t :
  valid_datetime t → strptime (strftime t) = Some t.
Proof.
  intros [Hdate Hhour]. destruct t as [y m d h]. simpl in *.
  pose proof (valid_date_range _ _ _ Hdate) as (Hy & Hm & Hd).
  pose proof (days_in_month_le y m).
  unfold strptime, strftime. cbn [year month day hour].
  rewrite !list_ascii_of_string_app.
  assert (head (matches
    (list_ascii_of_string (two_digits (y / 100)) ++
     list_ascii_of_string (two_digits (y mod 100)) ++
     list_ascii_of_string (two_digits m) ++
     list_ascii_of_string (two_digits d) ++
     list_ascii_of_string (two_digits h))) = Some (y, m, d, h, [])) as Hhead.
  { unfold matches.
    eapply head_bind; [by rewrite group_Y_four_digits by lia|]. cbv beta iota.
    eapply head_bind; [apply group_m_two_digits; lia|]. cbv beta iota.
    eapply head_bind; [apply group_d_two_digits; lia|]. cbv beta iota.
    pose proof (group_H_two_digits [] h Hhour) as HH.
    rewrite app_nil_r in HH.
    eapply head_bind; [exact HH | reflexivity]. }
  destruct (matches _) as [|[[[[??]?]?]?] ?]; [done|].
  injection Hhead as -> -> -> -> ->. by rewrite Hdate.
Qed.

Lemma strftime_append t suffix :
  (String.length (strftime t +:+ suffix) <? 10)%nat = false
  ∧ Py.str_take 10 (strftime t +:+ suffix) = strftime t
  ∧ Py.str_drop 10 (strftime t +:+ suffix) = suffix.
Proof.
  unfold strftime, two_digits, Py.str_take, Py.str_drop.
  cbn [String.append String.length list_ascii_of_string take drop
       string_of_list_ascii].
  split_and!; [done..|]. apply string_of_list_ascii_of_string.
Qed.

(** X1: a name built as [Dataset.filename] builds it is listed back.  For a
    timestamp [t] (a calendar date and an hour; the year from 1000 on, so
    that it is printed on four digits everywhere) and any suffix, the ten
    characters [strftime] prints parse back to [t], and a directory that
    holds the name [strftime t + suffix] yields, unless a non-empty filter
    leaves the suffix out, the row of [t] and [suffix] whose path is
    [Dataset.filename(directory, t, suffix)]. *)
Theorem filename_is_listed directory entries only_suffices t suffix :
  valid_datetime t →
  1000 <= year t →
  strftime t +:+ suffix ∈ entries →
  (∀ s, only_suffices = Some s → s ≠ ∅ → suffix ∈ s) →
  strptime (strftime t) = Some t
  ∧ Dataset.DatasetInRow t suffix (strftime t +:+ suffix)
      (Dataset.filename_of directory t suffix)
    ∈ Dataset.listdir directory entries only_suffices.
Proof.
  intros Ht _ Hin Hfilter.
  pose proof (strptime_strftime t Ht) as Hparse. split; [done|].
  rewrite listdir_listing. unfold listing. apply list_elem_of_omap.
  exists (strftime t +:+ suffix). split; [done|].
  unfold listing_entry.
  destruct (strftime_append t suffix) as (-> & -> & ->).
  rewrite Hparse. cbn [mbind option_bind].
  assert (match applied_filter only_suffices with
          | Some s => bool_decide (suffix ∈ s)
          | None => true
          end = true) as ->; [|done].
  unfold applied_filter. destruct only_suffices as [s|]; [|done].
  case_decide; [done|]. apply bool_decide_eq_true. by apply Hfilter.
Qed.

Lemma filename_is_listed_witness :
  strptime (strftime (Datetime 2024 1 1 0)) = Some (Datetime 2024 1 1 0)
  ∧ Dataset.DatasetInRow (Datetime 2024 1 1 0) Dataset.SUFFIX_GRIBMIRROR
      (strftime (Datetime 2024 1 1 0) +:+ Dataset.SUFFIX_GRIBMIRROR)
      (Dataset.filename_of "/data" (Datetime 2024 1 1 0)
         Dataset.SUFFIX_GRIBMIRROR)
    ∈ Dataset.listdir "/data" ["notadate.tmp"; "2024010100.gribmirror"]%string
        (Some {[Dataset.SUFFIX_GRIBMIRROR]}).
Proof.
  apply (filename_is_listed "/data"
           ["notadate.tmp"; "2024010100.gribmirror"]%string
           (Some {[Dataset.SUFFIX_GRIBMIRROR]}) (Datetime 2024 1 1 0)
           Dataset.SUFFIX_GRIBMIRROR).
  - split; [reflexivity | simpl; lia].
  - simpl. lia.
  - right. left.
  - intros s [= <-] _. by apply elem_of_singleton.
Defined.

(** *** Reading a name and printing its timestamp *)

Lemma digit_char_of_digit a :
  is_digit a = true → digit_char (digit a) = a ∧ 0 <= digit a <= 9.
Proof.
  unfold is_digit, digit, digit_char. intros [H1 H2]%andb_true_iff.
  apply Nat.leb_le in H1, H2. split; [|lia].
  replace (48 + Z.to_nat (Z.of_nat (nat_of_ascii a) - 48))%nat
    with (nat_of_ascii a) by lia.
  apply ascii_nat_embedding.
Qed.

Lemma in_range_digit lo hi a :
  is_digit lo = true → is_digit hi = true → in_range lo hi a = true →
  is_digit a = true.
Proof.
  unfold is_digit, in_range. rewrite !andb_true_iff, !Nat.leb_le. lia.
Qed.

Lemma two_digits_of_digits a b :
  is_digit a = true → is_digit b = true →
  two_digits (10 * digit a + digit b) = String a (String b "").
Proof.
  intros [Ha ?]%digit_char_of_digit [Hb ?]%digit_char_of_digit.
  unfold two_digits.
  replace ((10 * digit a + digit b) / 10 mod 10) with (digit a)
    by (Z.div_mod_to_equations; lia).
  replace ((10 * digit a + digit b) mod 10) with (digit b)
    by (Z.div_mod_to_equations; lia).
  by rewrite Ha, Hb.
Qed.

Lemma reads_digits_two lo1 hi1 lo2 hi2 :
  is_digit lo1 = true → is_digit hi1 = true →
  is_digit lo2 = true → is_digit hi2 = true →
  reads_digits (two lo1 hi1 lo2 hi2).
Proof.
  intros ???? s v rest. unfold two.
  destruct s as [|a [|b s]]; [by intros ?%elem_of_nil..|].
  destruct (in_range lo1 hi1 a) eqn:Ha; [|by intros ?%elem_of_nil].
  destruct (in_range lo2 hi2 b) eqn:Hb; cbn [andb];
    [|by intros ?%elem_of_nil].
  intros [= ? ?]%list_elem_of_singleton; subst. right. exists a, b.
  split; [done|]. right.
  apply two_digits_of_digits;
    [by apply (in_range_digit lo1 hi1) | by apply (in_range_digit lo2 hi2)].
Qed.

Lemma reads_digits_one lo hi : reads_digits (one lo hi).
Proof.
  intros s v rest. unfold one. destruct s as [|a s]; [by intros ?%elem_of_nil|].
  destruct (in_range lo hi a); [|by intros ?%elem_of_nil].
  intros [= ? ?]%list_elem_of_singleton; subst. left. by exists a.
Qed.

Lemma reads_digits_space_one lo hi : reads_digits (space_one lo hi).
Proof.
  intros s v rest. unfold space_one.
  destruct s as [|a [|b s]]; [by intros ?%elem_of_nil..|].
  case_bool_decide as Ha; [|by intros ?%elem_of_nil].
  destruct (in_range lo hi b); cbn [andb]; [|by intros ?%elem_of_nil].
  intros [= ? ?]%list_elem_of_singleton; subst. right.
  do 2 eexists. split; [reflexivity|]. by left.
Qed.

Lemma reads_digits_alt g1 g2 :
  reads_digits g1 → reads_digits g2 → reads_digits (alt g1 g2).
Proof.
  intros H1 H2 s v rest [?|?]%elem_of_app; [by apply H1 | by apply H2].
Qed.

Lemma reads_digits_groups :
  reads_digits group_m ∧ reads_digits group_d ∧ reads_digits group_H.
Proof.
  split_and!;
    repeat first [ apply reads_digits_alt
                 | apply reads_digits_two; reflexivity
                 | apply reads_digits_one
                 | apply reads_digits_space_one ].
Qed.

Lemma group_Y_elem s y rest :
  (y, rest) ∈ group_Y s →
  ∃ a b c d,
    s = a :: b :: c :: d :: rest
    ∧ two_digits (y / 100) = String a (String b "")
    ∧ two_digits (y mod 100) = String c (String d "").
Proof.
  unfold group_Y.
  destruct s as [|a [|b [|c [|d s]]]]; [by intros ?%elem_of_nil..|].
  destruct (is_digit a) eqn:Ha; [|by intros ?%elem_of_nil].
  destruct (is_digit b) eqn:Hb; [|by intros ?%elem_of_nil].
  destruct (is_digit c) eqn:Hc; [|by intros ?%elem_of_nil].
  destruct (is_digit d) eqn:Hd; cbn [andb]; [|by intros ?%elem_of_nil].
  intros [= ? ?]%list_elem_of_singleton; subst. exists a, b, c, d.
  split; [done|].
  destruct (digit_char_of_digit a Ha) as [_ ?].
  destruct (digit_char_of_digit b Hb) as [_ ?].
  destruct (digit_char_of_digit c Hc) as [_ ?].
  destruct (digit_char_of_digit d Hd) as [_ ?].
  rewrite <- (two_digits_of_digits a b), <- (two_digits_of_digits c d)
    by done.
  split; f_equal; Z.div_mod_to_equations; lia.
Qed.

Lemma strptime_Some s t :
  strptime s = Some t →
  (year t, month t, day t, hour t, []) ∈ matches (list_ascii_of_string s)
  ∧ valid_date (year t) (month t) (day t) = true.
Proof.
  unfold strptime.
  destruct (matches _) as [|[[[[y m] d] h] rest] tl]; [done|].
  destruct rest; [|done].
  destruct (valid_date y m d) eqn:Hv; [|done].
  intros [= <-]. split; [left | done].
Qed.

Lemma strftime_strptime s t :
  strptime s = Some t →
  String.length s = 10%nat →
  " "%char ∉ list_ascii_of_string s →
  strftime t = s.
Proof.
  intros [Hm _]%strptime_Some Hlen Hspace.
  destruct reads_digits_groups as (Rm & Rd & RH).
  unfold matches in Hm.
  apply list_elem_of_bind in Hm as ([y s1] & Hm & HY).
  apply list_elem_of_bind in Hm as ([m s2] & Hm & Hgm).
  apply list_elem_of_bind in Hm as ([d s3] & Hm & Hgd).
  apply list_elem_of_bind in Hm as ([h s4] & Hm & HgH).
  apply list_elem_of_singleton in Hm. injection Hm as <- <- <- <- <-.
  apply group_Y_elem in HY as (a & b & c & e & Hs & HY1 & HY2).
  apply Rm in Hgm. apply Rd in Hgd. apply RH in HgH.
  rewrite <- (string_of_list_ascii_of_string s) in Hlen |- *.
  revert Hlen Hspace. rewrite Hs. clear Hs.
  unfold strftime. rewrite HY1, HY2.
  destruct Hgm as [(? & ->)|(? & ? & -> & Hgm)],
           Hgd as [(? & ->)|(? & ? & -> & Hgd)],
           HgH as [(? & ->)|(? & ? & -> & HgH)]; try done.
  intros _ Hspace.
  destruct Hgm as [-> | ->], Hgd as [-> | ->], HgH as [-> | ->];
    try done; exfalso; apply Hspace; set_solver.
Qed.

Lemma string_length_list s : String.length s = length (list_ascii_of_string s).
Proof. induction s as [|c s IH]; simpl; [done|]. by rewrite IH. Qed.

Lemma string_of_list_ascii_app l k :
  string_of_list_ascii (l ++ k)
  = string_of_list_ascii l +:+ string_of_list_ascii k.
Proof. induction l as [|c l IH]; simpl; [done|]. by rewrite IH. Qed.

Lemma str_take_drop n s : Py.str_take n s +:+ Py.str_drop n s = s.
Proof.
  unfold Py.str_take, Py.str_drop.
  rewrite <- string_of_list_ascii_app, take_drop.
  apply string_of_list_ascii_of_string.
Qed.

Lemma str_take_length n s :
  (n ≤ String.length s)%nat → String.length (Py.str_take n s) = n.
Proof.
  unfold Py.str_take. rewrite !string_length_list.
  rewrite list_ascii_of_string_of_list_ascii, length_take. lia.
Qed.

Lemma in_range_bounds lo hi a :
  in_range lo hi a = true → digit lo <= digit a <= digit hi.
Proof.
  unfold in_range, digit. rewrite andb_true_iff, !Nat.leb_le. lia.
Qed.

Lemma two_bounds lo1 hi1 lo2 hi2 s v rest :
  (v, rest) ∈ two lo1 hi1 lo2 hi2 s →
  10 * digit lo1 + digit lo2 <= v <= 10 * digit hi1 + digit hi2.
Proof.
  unfold two. destruct s as [|a [|b s]]; [by intros ?%elem_of_nil..|].
  destruct (in_range lo1 hi1 a) eqn:Ha; [|by intros ?%elem_of_nil].
  destruct (in_range lo2 hi2 b) eqn:Hb; cbn [andb];
    [|by intros ?%elem_of_nil].
  intros [= ? ?]%list_elem_of_singleton; subst.
  apply in_range_bounds in Ha, Hb. lia.
Qed.

Lemma one_bounds lo hi s v rest :
  (v, rest) ∈ one lo hi s → digit lo <= v <= digit hi.
Proof.
  unfold one. destruct s as [|a s]; [by intros ?%elem_of_nil|].
  destruct (in_range lo hi a) eqn:Ha; [|by intros ?%elem_of_nil].
  intros [= ? ?]%list_elem_of_singleton; subst. by apply in_range_bounds.
Qed.

Lemma group_H_bounds s h rest : (h, rest) ∈ group_H s → 0 <= h <= 23.
Proof.
  unfold group_H, alt. rewrite !elem_of_app.
  intros [H|[H|H]];
    [apply two_bounds in H | apply two_bounds in H | apply one_bounds in H];
    vm_compute (digit _) in H; lia.
Qed.

Lemma strptime_valid s t : strptime s = Some t → valid_datetime t.
Proof.
  intros [Hm Hv]%strptime_Some. split; [done|].
  unfold matches in Hm.
  apply list_elem_of_bind in Hm as ([y s1] & Hm & _).
  apply list_elem_of_bind in Hm as ([m s2] & Hm & _).
  apply list_elem_of_bind in Hm as ([d s3] & Hm & _).
  apply list_elem_of_bind in Hm as ([h s4] & Hm & HgH).
  apply list_elem_of_singleton in Hm. injection Hm as _ _ _ -> _.
  by eapply group_H_bounds.
Qed.

Lemma listdir_row directory entries only_suffices row :
  row ∈ Dataset.listdir directory entries only_suffices →
  (10 ≤ String.length (Dataset.filename row))%nat
  ∧ strptime (Py.str_take 10 (Dataset.filename row))
    = Some (Dataset.ds_time row)
  ∧ Dataset.suffix row = Py.str_drop 10 (Dataset.filename row)
  ∧ Dataset.path row = Py.path_join directory (Dataset.filename row)
  ∧ Dataset.filename row ∈ entries.
Proof.
  rewrite listdir_listing. unfold listing.
  intros (filename & Hin & H)%list_elem_of_omap. unfold listing_entry in H.
  destruct (Nat.ltb_spec (String.length filename) 10); [done|].
  apply bind_Some in H as (ds_time & Ht & H).
  destruct (match applied_filter only_suffices with
            | Some s => bool_decide (Py.str_drop 10 filename ∈ s)
            | None => true
            end); [|done].
  by injection H as <-.
Qed.

(** X2: a listed row names its own file.  When the first ten characters of
    a listed name are ASCII digits, [0] to [9] (the expression of
    [strptime] also takes a space before the day of the month, and, in
    Python, the decimal digits of other scripts, which [strftime] does not
    print), and the year is 1000 or later, printing the row's timestamp
    gives back these ten characters: the name is the printed timestamp
    followed by the suffix, and [Dataset.filename(directory, ds_time,
    suffix)] is the row's path. *)
Theorem listed_name_is_filename directory entries only_suffices row :
  row ∈ Dataset.listdir directory entries only_suffices →
  Forall (λ c, is_digit c = true)
    (list_ascii_of_string (Py.str_take 10 (Dataset.filename row))) →
  1000 <= year (Dataset.ds_time row) →
  strftime (Dataset.ds_time row) +:+ Dataset.suffix row = Dataset.filename row
  ∧ Dataset.filename_of directory (Dataset.ds_time row) (Dataset.suffix row)
    = Dataset.path row.
Proof.
  intros (Hlen & Ht & Hsuffix & Hpath & _)%listdir_row Hdigits _.
  apply strftime_strptime in Ht; [|by apply str_take_length|].
  2:{ intros Hspace. by apply (proj1 (Forall_forall _ _) Hdigits) in Hspace. }
  assert (strftime (Dataset.ds_time row) +:+ Dataset.suffix row
          = Dataset.filename row) as Hname.
  { rewrite Ht, Hsuffix. apply str_take_drop. }
  split; [done|]. unfold Dataset.filename_of. by rewrite Hname, Hpath.
Qed.

Lemma listed_name_is_filename_witness :
  strftime (Datetime 2024 1 1 0) +:+ ".gribmirror"
  = "2024010100.gribmirror"%string
  ∧ Dataset.filename_of "/data" (Datetime 2024 1 1 0) ".gribmirror"
    = "/data/2024010100.gribmirror"%string.
Proof.
  apply (listed_name_is_filename "/data"
           ["notadate.tmp"; "2024010100.gribmirror"]%string None
           (Dataset.DatasetInRow (Datetime 2024 1 1 0) ".gribmirror"
              "2024010100.gribmirror" "/data/2024010100.gribmirror")).
  - vm_compute. left.
  - vm_compute. repeat constructor.
  - simpl. lia.
Defined.

(** X3: [listdir] only yields calendar dates.  The timestamp of every row
    is a date of the years 1 to 9999 with the month in 1..12, the day in
    1..(days of that month, 29 for February in leap years only) and the
    hour in 0..23: a name whose first ten characters are digits but give
    no such date is passed over. *)
Theorem listed_times_are_dates directory entries only_suffices row :
  row ∈ Dataset.listdir directory entries only_suffices →
  1 <= year (Dataset.ds_time row) <= 9999
  ∧ 1 <= month (Dataset.ds_time row) <= 12
  ∧ 1 <= day (Dataset.ds_time row)
    <= days_in_month (year (Dataset.ds_time row)) (month (Dataset.ds_time row))
  ∧ 0 <= hour (Dataset.ds_time row) <= 23.
Proof.
  intros (_ & Ht & _)%listdir_row.
  apply strptime_valid in Ht as [Hv Hh].
  apply valid_date_range in Hv. tauto.
Qed.

Lemma listed_times_are_dates_witness :
  1 <= 2024 <= 9999 ∧ 1 <= 2 <= 12 ∧ 1 <= 29 <= days_in_month 2024 2
  ∧ 0 <= 23 <= 23.
Proof.
  apply (listed_times_are_dates "/data"
           ["2023022900"; "2024022923"; "2024010124"]%string None
           (Dataset.DatasetInRow (Datetime 2024 2 29 23) ""
              "2024022923" "/data/2024022923")).
  vm_compute. left.
Defined.

(** *** The listing as a whole *)

Lemma listdir_cons directory filename rest only_suffices :
  Dataset.listdir directory (filename :: rest) only_suffices
  = Dataset.listdir directory [filename] only_suffices
    ++ Dataset.listdir directory rest only_suffices.
Proof.
  cbn [Dataset.listdir].
  destruct (String.length filename <? 10)%nat; [done|].
  destruct (strptime (Py.str_take 10 filename)); [|done].
  by destruct (match only_suffices with
               | Some s => negb (bool_decide (s = ∅))
                           && negb (bool_decide
                                      (Py.str_drop 10 filename ∈ s))
               | None => false
               end).
Qed.

Lemma listdir_one directory filename only_suffices :
  Dataset.listdir directory [filename] only_suffices = []
  ∨ ∃ row, Dataset.listdir directory [filename] only_suffices = [row]
           ∧ Dataset.filename row = filename.
Proof.
  cbn [Dataset.listdir].
  destruct (String.length filename <? 10)%nat; [by left|].
  destruct (strptime (Py.str_take 10 filename)); [|by left].
  destruct (match only_suffices with
            | Some s => negb (bool_decide (s = ∅))
                        && negb (bool_decide (Py.str_drop 10 filename ∈ s))
            | None => false
            end); [by left|].
  right. by eexists.
Qed.

(** X4: [listdir] goes through the directory entry by entry.  The names
    of the rows are a sublist of the entries (every row stands for an
    entry, at most one row per entry, in the order of the directory), and
    the listing of two lists of entries, one after the other, is the
    listing of the first followed by the listing of the second. *)
Theorem listdir_entry_by_entry directory only_suffices :
  (∀ entries,
     sublist (Dataset.filename <$> Dataset.listdir directory entries
                                     only_suffices) entries)
  ∧ (∀ entries1 entries2,
       Dataset.listdir directory (entries1 ++ entries2) only_suffices
       = Dataset.listdir directory entries1 only_suffices
         ++ Dataset.listdir directory entries2 only_suffices).
Proof.
  split.
  - induction entries as [|filename rest IH]; [constructor|].
    rewrite listdir_cons, fmap_app.
    destruct (listdir_one directory filename only_suffices)
      as [->|(row & -> & <-)].
    + by apply sublist_cons.
    + by apply sublist_skip.
  - intros entries1 entries2.
    induction entries1 as [|filename rest IH]; [done|].
    rewrite <- app_comm_cons, listdir_cons, IH, (assoc app).
    by rewrite <- listdir_cons.
Qed.

(** X5: a non-empty filter is a selection from the unfiltered listing.
    For a set of suffixes that is not empty, [listdir] with the filter
    yields the rows of [listdir] without it whose suffix is in the set,
    in the same order. *)
Theorem listdir_filter directory entries (s : gset string) :
  s ≠ ∅ →
  Dataset.listdir directory entries (Some s)
  = filter (λ row, Dataset.suffix row ∈ s)
      (Dataset.listdir directory entries None).
Proof.
  intros Hs. induction entries as [|filename rest IH]; [done|].
  cbn [Dataset.listdir].
  destruct (String.length filename <? 10)%nat; [done|].
  destruct (strptime (Py.str_take 10 filename)) as [t|]; [|done].
  rewrite (bool_decide_eq_false_2 _ Hs). cbn [negb andb].
  rewrite filter_cons. cbn [Dataset.suffix].
  case_bool_decide as Hin; cbn [negb].
  - rewrite decide_True by done. by rewrite IH.
  - by rewrite decide_False by done.
Qed.

Lemma listdir_filter_witness :
  Dataset.listdir "/data"
    ["2024010100"; "2024010100.gribmirror"]%string
    (Some {[Dataset.SUFFIX_GRIBMIRROR]})
  = filter (λ row, Dataset.suffix row
                   ∈ ({[Dataset.SUFFIX_GRIBMIRROR]} : gset string))
      (Dataset.listdir "/data"
         ["2024010100"; "2024010100.gribmirror"]%string None).
Proof.
  apply (listdir_filter "/data"
           ["2024010100"; "2024010100.gribmirror"]%string
           {[Dataset.SUFFIX_GRIBMIRROR]}).
  intros H. apply (f_equal (λ s : gset string, bool_decide (Dataset.SUFFIX_GRIBMIRROR ∈ s))) in H.
  vm_compute in H. discriminate H.
Defined.

End names.

(** ** Slots and triples *)

Lemma index_lookup {A : Type} `{EqDecision A} (l : list A) x i :
  NoDup l → l !! i = Some x → Py.index l x = Some i.
Proof.
  intros Hnd Hi.
  destruct (index_is_Some l x) as [j Hj]; [by eapply list_elem_of_lookup_2|].
  rewrite Hj. f_equal.
  apply index_Some in Hj as [Hj _]. by eapply NoDup_lookup.
Qed.

Lemma axes_NoDup :
  NoDup (Dataset.hour Dataset.axes)
  ∧ NoDup (Dataset.pressure Dataset.axes)
  ∧ NoDup (Dataset.variable Dataset.axes).
Proof.
  split_and!; apply (bool_decide_unpack _); vm_compute; exact I.
Qed.

Lemma grib_location_Ok h p v i j k :
  grib_location (h, p, v) = Ok (i, j, k) ↔
  Py.index (Dataset.hour Dataset.axes) h = Some i
  ∧ Py.index (Dataset.pressure Dataset.axes) p = Some j
  ∧ Py.index (Dataset.variable Dataset.axes) v = Some k.
Proof.
  unfold grib_location.
  destruct (Py.index (Dataset.hour Dataset.axes) h) as [i'|];
    [|split; [done | by intros ([=] & _)]].
  destruct (Py.index (Dataset.pressure Dataset.axes) p) as [j'|];
    [|split; [done | by intros (_ & [=] & _)]].
  destruct (Py.index (Dataset.variable Dataset.axes) v) as [k'|];
    [|split; [done | by intros (_ & _ & [=])]].
  split; [by intros [= -> -> ->] | by intros ([= ->] & [= ->] & [= ->])].
Qed.

Lemma grib_location_at n location :
  grib_location n = Ok location ↔ location_name_at location = Some n.
Proof.
  destruct axes_NoDup as (Hh & Hp & Hv).
  destruct n as [[h p] v], location as [[i j] k].
  rewrite grib_location_Ok. unfold location_name_at. split.
  - intros (Hi%index_Some & Hj%index_Some & Hk%index_Some).
    destruct Hi as [-> _], Hj as [-> _], Hk as [-> _]. done.
  - intros (h' & Hi & H)%bind_Some. apply bind_Some in H as (p' & Hj & H).
    apply bind_Some in H as (v' & Hk & [= -> -> ->]).
    split_and!; by apply index_lookup.
Qed.

(** X6: slots and triples correspond one to one.  A triple resolves to a
    location exactly when the axes hold the triple's hour, level and
    variable at the location's three positions (no axis holds a value
    twice); every location inside the shape of the checklist is the slot of
    one triple, and two triples with one slot are equal. *)
Theorem slots_and_triples :
  (∀ n location,
     grib_location n = Ok location ↔ location_name_at location = Some n)
  ∧ (∀ location,
       is_Some (location_name_at location)
       ↔ is_Some (Np.ravel (take 3 Dataset.shape) location))
  ∧ (∀ n1 n2 location,
       grib_location n1 = Ok location → grib_location n2 = Ok location →
       n1 = n2).
Proof.
  split_and!.
  - apply grib_location_at.
  - intros [[i j] k]. unfold location_name_at, Np.ravel.
    cbn [take Dataset.shape].
    assert (length (Dataset.hour Dataset.axes) = 65%nat) as Hh by done.
    assert (length (Dataset.pressure Dataset.axes) = 47%nat) as Hp by done.
    assert (length (Dataset.variable Dataset.axes) = 3%nat) as Hv by done.
    split.
    + intros [n H]. apply bind_Some in H as (h & Hi%lookup_lt_Some & H).
      apply bind_Some in H as (p & Hj%lookup_lt_Some & H).
      apply bind_Some in H as (v & Hk%lookup_lt_Some & _).
      rewrite decide_True; [done | lia].
    + intros [o H]. case_decide as Hlt; [|done].
      destruct (lookup_lt_is_Some_2 (Dataset.hour Dataset.axes) i) as [h ->];
        [lia|].
      destruct (lookup_lt_is_Some_2 (Dataset.pressure Dataset.axes) j)
        as [p ->]; [lia|].
      destruct (lookup_lt_is_Some_2 (Dataset.variable Dataset.axes) k)
        as [v ->]; [lia|].
      done.
  - intros n1 n2 location H1%grib_location_at H2%grib_location_at. congruence.
Qed.

(** ** The records that the loop sees *)

Lemma kept_cons_Some record rest n :
  grib_location_name record = Some n → kept (record :: rest) = record :: kept rest.
Proof. intros H. unfold kept. rewrite filter_cons, decide_True; by rewrite ?H. Qed.

Lemma kept_cons_None record rest :
  grib_location_name record = None → kept (record :: rest) = kept rest.
Proof.
  intros H. unfold kept. rewrite filter_cons, decide_False; [done|].
  rewrite H. by intros [? [=]].
Qed.

Lemma kept_app xs ys : kept (xs ++ ys) = kept xs ++ kept ys.
Proof. unfold kept. apply filter_app. Qed.

Lemma for_records_kept a records l w :
  for_records a records l w = for_records a (kept records) l w.
Proof.
  revert l w. induction records as [|record rest IH]; intros l w; [done|].
  destruct (grib_location_name record) as [n|] eqn:Hn.
  - rewrite (kept_cons_Some _ _ _ Hn). cbn [for_records]. rewrite Hn.
    unfold bind. destruct (lift (grib_location n) w) as [[location|e] w1];
      [|done].
    destruct (unpack_record a record location n l w1) as [[l1|e] w2]; [|done].
    destruct (call_callback (callback a) location n w2) as [[[]|e] w3];
      [|done].
    apply IH.
  - rewrite (kept_cons_None _ _ Hn). cbn [for_records]. rewrite Hn. apply IH.
Qed.

Lemma names_kept records : names (kept records) = names records.
Proof.
  unfold names. induction records as [|record rest IH]; [done|].
  destruct (grib_location_name record) as [n|] eqn:Hn.
  - rewrite (kept_cons_Some _ _ _ Hn). cbn [omap list_omap].
    by rewrite Hn, IH.
  - rewrite (kept_cons_None _ _ Hn). cbn [omap list_omap]. by rewrite Hn.
Qed.

(** X7: records that [_grib_records] passes over do not count.  A call on
    a file gives the result, and leaves the world, of the call on the
    file's isobaric records of the three variables alone: a record on
    another type of level, or of another parameter, is never looked up on
    the axes, checked, stored, mirrored or reported, wherever it stands
    in the file. *)
Theorem skipped_records_do_not_count a records w :
  unpack_grib a records w = unpack_grib a (kept records) w
  ∧ (∀ skipped before after,
       grib_location_name skipped = None →
       unpack_grib a (before ++ skipped :: after) w
       = unpack_grib a (before ++ after) w).
Proof.
  assert (∀ records, unpack_grib a records w = unpack_grib a (kept records) w)
    as Hkept.
  { intros rs. unfold unpack_grib, bind.
    destruct (prologue a w) as [[l|e] w0]; [|done].
    by rewrite for_records_kept. }
  split; [apply Hkept|]. intros skipped before after Hn.
  rewrite Hkept, (Hkept (before ++ after)).
  by rewrite !kept_app, (kept_cons_None skipped after Hn).
Qed.

Lemma check_record_forecastTime r r' location n temp checklist ah fc :
  forecastTime r = forecastTime r' →
  _check_record r location n temp checklist ah fc
  = _check_record r' location n temp checklist ah fc.
Proof. unfold _check_record. by intros ->. Qed.

Lemma unpack_record_same_but_axes a r r' location n l w :
  same_but_axes r r' → checked_axes l = true →
  unpack_record a r location n l w = unpack_record a r' location n l w.
Proof.
  intros (_ & _ & Ht & _ & Hv & Hs) Hl. unfold unpack_record, bind, gets.
  cbv beta iota.
  destruct (deref (l_file_checklist l) w) as [[fc|e] w1]; [|done].
  by rewrite Hl, Hv, Hs, (check_record_forecastTime r r' _ _ _ _ _ _ Ht).
Qed.

Lemma same_but_axes_name r r' :
  same_but_axes r r' → grib_location_name r = grib_location_name r'.
Proof.
  intros (Hl & Hn & Ht & Hp & _). unfold grib_location_name.
  by rewrite Hl, Hn, Ht, Hp.
Qed.

Lemma for_records_same_but_axes a rs rs' :
  Forall2 same_but_axes rs rs' →
  ∀ l w, checked_axes l = true →
         for_records a rs l w = for_records a rs' l w.
Proof.
  induction 1 as [|r r' rs rs' Hr _ IH]; intros l w Hl; [done|].
  cbn [for_records]. rewrite <- (same_but_axes_name _ _ Hr).
  destruct (grib_location_name r) as [n|]; [|by apply IH].
  unfold bind. destruct (lift (grib_location n) w) as [[location|e] w1];
    [|done].
  rewrite <- (unpack_record_same_but_axes a r r' location n l w1 Hr Hl).
  destruct (unpack_record a r location n l w1) as [[l1|e] w2] eqn:Hrun;
    [|done].
  destruct (call_callback (callback a) location n w2) as [[[]|e] w3];
    [|done].
  apply IH. by apply unpack_record_Ok in Hrun as (temp & _ & -> & _).
Qed.

(** X8: the axes of a file are checked on its first record only.  The
    latitudes and longitudes that the records after the first kept one
    declare are never read: a call gives the same result, and leaves the
    same world, whatever they are. *)
Theorem axes_checked_on_first_record a record rest rest' w :
  is_Some (grib_location_name record) →
  Forall2 same_but_axes rest rest' →
  unpack_grib a (record :: rest) w = unpack_grib a (record :: rest') w.
Proof.
  intros [n Hn] Hrest. unfold unpack_grib, bind.
  destruct (prologue a w) as [[l|e] w0]; [|done].
  cbn [for_records]. rewrite Hn. unfold bind.
  destruct (lift (grib_location n) w0) as [[location|e] w1]; [|done].
  destruct (unpack_record a record location n l w1) as [[l1|e] w2] eqn:Hrun;
    [|done].
  destruct (call_callback (callback a) location n w2) as [[[]|e] w3];
    [|done].
  rewrite (for_records_same_but_axes a rest rest' Hrest l1 w3); [done|].
  by apply unpack_record_Ok in Hrun as (temp & _ & -> & _).
Qed.

Lemma axes_checked_on_first_record_witness :
  unpack_grib Example.plain
    [Example.height_0_1000; Example.wind_u_3_1000]
    (Example.fresh_world {[Example.height; Example.wind_u]})
  = unpack_grib Example.plain
      [Example.height_0_1000;
       GribRecord "isobaricInhPa" "U component of wind" 3 1000 [[1%Q]]
         [] [0%Q] []]
      (Example.fresh_world {[Example.height; Example.wind_u]}).
Proof.
  apply (axes_checked_on_first_record Example.plain Example.height_0_1000
           [Example.wind_u_3_1000]
           [GribRecord "isobaricInhPa" "U component of wind" 3 1000 [[1%Q]]
              [] [0%Q] []]
           (Example.fresh_world {[Example.height; Example.wind_u]})).
  - vm_compute. eauto.
  - repeat constructor.
Defined.

(** ** The mirror sink *)

Lemma write_gribmirror_mirror bytes w res w' :
  write_gribmirror bytes w = (res, w') →
  w_gribmirror w' = (λ m, m ++ bytes) <$> w_gribmirror w.
Proof.
  unfold write_gribmirror. destruct (w_gribmirror w) as [m|] eqn:Hm;
    intros [= <- <-]; by rewrite ?Hm.
Qed.

(** What a turn of the loop does to the sink: nothing, or the write of
    the record's bytes after those it holds; a turn that ends well has
    written them. *)
Lemma unpack_record_mirror a record location n l w res w' :
  unpack_record a record location n l w = (res, w') →
  (w_gribmirror w' = w_gribmirror w
   ∨ w_gribmirror w' = (λ m, m ++ tostring record) <$> w_gribmirror w)
  ∧ (∀ l', res = Ok l' →
           w_gribmirror w' = (λ m, m ++ tostring record) <$> w_gribmirror w).
Proof.
  unfold unpack_record. intros H.
  inv_bind H as H1; inv_pure H1.
  inv_bind H as H1; apply deref_run in H1 as [-> _]; [|by split; [left|]].
  inv_bind H as H1; inv_pure H1; [|by split; [left|]].
  inv_bind H as H2.
  2:{ destruct (checked_axes l); inv_pure H2. by split; [left|]. }
  assert (w0 = w) as -> by (destruct (checked_axes l); by inv_pure H2).
  clear H2.
  inv_bind H as H2 u1 w1; apply write_dataset_run in H2 as (_ & Hm & _);
    [|by split; [left|]].
  inv_bind H as H2 u2 w2; pose proof (write_gribmirror_mirror _ _ _ _ H2) as Hw;
    apply write_gribmirror_run in H2 as (? & _ & _); [|done].
  rewrite Hm in Hw. clear Hm.
  assert (w_gribmirror w' = w_gribmirror w2) as ->; [|by split; [right|]].
  inv_bind H as H3; inv_pure H3; [|done].
  inv_bind H as H4; apply remove_from_run in H4 as (_ & Hm4 & _);
    [by inv_pure H | done].
Qed.

Lemma mirror_app (m : option (list Byte.byte)) xs ys :
  (λ m, m ++ ys) <$> ((λ m, m ++ xs) <$> m) = (λ m, m ++ xs ++ ys) <$> m.
Proof. destruct m; simpl; [|done]. by rewrite (assoc app). Qed.

Lemma for_records_mirror a records :
  ∀ l w res w',
    for_records a records l w = (res, w') →
    ∃ k,
      w_gribmirror w'
      = (λ m, m ++ mjoin (tostring <$> take k (kept records)))
          <$> w_gribmirror w
      ∧ (∀ l', res = Ok l' → k = length (kept records)).
Proof.
  induction records as [|record rest IH]; intros l w res w' H.
  - inv_pure H. exists 0%nat. split; [|done].
    destruct (w_gribmirror _); simpl; [|done]. by rewrite app_nil_r.
  - cbn [for_records] in H.
    destruct (grib_location_name record) as [n|] eqn:Hn.
    2:{ rewrite (kept_cons_None _ _ Hn). by eapply IH. }
    rewrite (kept_cons_Some _ _ _ Hn).
    assert (∃ k, w_gribmirror w
                 = (λ m, m ++ mjoin (tostring <$> take k (record :: kept rest)))
                     <$> w_gribmirror w) as Hnone.
    { exists 0%nat. destruct (w_gribmirror w); simpl; [|done].
      by rewrite app_nil_r. }
    destruct Hnone as [k0 Hnone].
    inv_bind H as H1 location w1; inv_pure H1;
      [|exists k0; by split].
    inv_bind H as H2 l1 w2;
      apply unpack_record_mirror in H2 as [Hany Hok].
    2:{ destruct Hany as [->| ->]; [exists k0; by split|].
        exists 1%nat. split; [|done]. cbn. by rewrite app_nil_r. }
    specialize (Hok _ eq_refl). clear Hany.
    inv_bind H as H3 u w3; apply call_callback_run in H3 as (Hm3 & _).
    2:{ exists 1%nat. split; [|done]. rewrite Hm3, Hok. cbn.
        by rewrite app_nil_r. }
    apply IH in H as (k & Hk & Hlen). exists (S k). split.
    + rewrite Hk, Hm3, Hok, mirror_app. done.
    + intros l' Hl. cbn. f_equal. by eapply Hlen.
Qed.

(** X9: the mirror sink receives the records as they are accepted.  After
    a call, whatever its result, the sink holds what it held before
    followed by the bytes of the first [k] records that the generator
    keeps, in the order of the file; when the call returns, by those of
    all of them.  What a failed call has written stays written, and a
    call without a sink has none after it.  (The callback is taken not to
    write to the sink.) *)
Theorem mirror_holds_accepted_records a records w :
  ∃ k,
    w_gribmirror (unpack_grib a records w).2
    = (λ m, m ++ mjoin (tostring <$> take k (kept records)))
        <$> w_gribmirror w
    ∧ ((unpack_grib a records w).1 = Ok tt → k = length (kept records)).
Proof.
  assert (w_gribmirror w
          = (λ m, m ++ mjoin (tostring <$> take 0 (kept records)))
              <$> w_gribmirror w) as Hnone.
  { destruct (w_gribmirror w); simpl; [|done]. by rewrite app_nil_r. }
  destruct (unpack_grib a records w) as [res w'] eqn:H. simpl.
  unfold unpack_grib in H.
  inv_bind H as H1 l0 w0; apply prologue_run in H1 as (_ & Hm0 & _).
  2:{ exists 0%nat. by rewrite Hm0. }
  inv_bind H as H2 l1 w1; apply for_records_mirror in H2 as (k & Hk & Hlen).
  2:{ exists k. by rewrite Hk, Hm0. }
  exists k. rewrite <- Hm0, <- Hk. split; [|intros _; by eapply Hlen].
  apply epilogue_run in H as [(e & _ & ->)|(? & ? & ? & ? & _ & _ & _ & _ & _ & _ & _ & ->)];
    done.
Qed.

(** ** The array of the dataset *)

Lemma broadcast_to_exact rows cols g :
  (0 < rows)%nat → has_extent rows cols g → broadcast_to rows cols g = Some g.
Proof.
  intros Hrows [Hlen Hall]. unfold broadcast_to.
  destruct g as [|row0 g']; [simpl in Hlen; lia|].
  assert (length row0 = cols) as Hc by (by apply Forall_cons in Hall as [? _]).
  assert (forallb (λ row, length row =? length row0)%nat (row0 :: g') = true)
    as ->.
  { apply forallb_forall. intros row Hrow%list_elem_of_In.
    rewrite Forall_forall in Hall. apply Nat.eqb_eq.
    rewrite (Hall row Hrow). done. }
  rewrite Hlen, Hc, !Nat.eqb_refl. done.
Qed.

Lemma call_callback_dataset a location n w res w' :
  callback_keeps_dataset a →
  call_callback (callback a) location n w = (res, w') →
  sh_dataset (w_shared w') = sh_dataset (w_shared w).
Proof.
  intros Hcb H.
  apply call_callback_run in H as (_ & _ & [->|(f & Hf & Hrun)]); [done|].
  specialize (Hcb f location n (w_shared w) Hf). by rewrite Hrun in Hcb.
Qed.

Lemma for_records_stores a :
  callback_keeps_dataset a →
  ∀ records l w l' w' d,
    for_records a records l w = (Ok l', w') →
    sh_dataset (w_shared w) = Some d →
    ∃ d',
      sh_dataset (w_shared w') = Some d'
      ∧ Dataset.close d' = Dataset.close d
      ∧ (∀ r, r ∈ kept records →
              ∃ n location,
                grib_location_name r = Some n
                ∧ grib_location n = Ok location
                ∧ holds_grid location (values r) (w_shared w'))
      ∧ (∀ location,
           (∀ n, n ∈ names records → grib_location n ≠ Ok location) →
           slab_at d' location = slab_at d location).
Proof.
  intros Hcb. induction records as [|record rest IH];
    intros l w l' w' d H Hd.
  - inv_pure H. exists d. split_and!; [done..| |done].
    by intros r ?%elem_of_nil.
  - cbn [for_records] in H.
    destruct (grib_location_name record) as [n|] eqn:Hn.
    2:{ rewrite (kept_cons_None _ _ Hn).
        unfold names. cbn [omap list_omap]. rewrite Hn. by eapply IH. }
    rewrite (kept_cons_Some _ _ _ Hn).
    unfold names. cbn [omap list_omap]. rewrite Hn. fold (names rest).
    inv_bind H as H1 location w1; inv_pure H1.
    inv_bind H as H2 l1 w2.
    pose proof (unpack_record_Ok_dataset _ _ _ _ _ _ _ _ H2) as Hw.
    rewrite Hd in Hw.
    destruct Hw as (arr & slab & arr' & Harr & Hslab & Hset & Hd2).
    apply unpack_record_Ok in H2 as (temp & Htemp & -> & _).
    inv_bind H as H3 u w3.
    pose proof (call_callback_dataset _ _ _ _ _ _ Hcb H3) as Hd3.
    rewrite Hd2 in Hd3.
    destruct (IH _ _ _ _ _ H Hd3) as (d' & Hd' & Hclose & Hkept & Hother).
    exists d'. split_and!; [done|done| |].
    + intros r [->|Hr]%elem_of_cons; [|by apply Hkept].
      exists n, location. split_and!; [done..|].
      refine (for_records_holds a location (values record) rest Hcb
                _ _ _ _ H _ _).
      * simpl. by eapply getitem_setitem_eq.
      * exists (Dataset.with_array d arr'), arr', slab.
        split_and!; [done..|]. by eapply getitem_setitem_eq.
    + intros location' Hnot. rewrite Hother.
      2:{ intros n' Hn'. apply Hnot. by right. }
      unfold slab_at. cbn [Dataset.with_array Dataset.array mbind option_bind].
      rewrite Harr. cbn [mbind option_bind].
      apply (getitem_setitem_ne _ _ _ _ _ Hset).
      intros ->. by apply (Hnot n); [left|].
Qed.

(** X10: a call that returns has stored the grids of the file.  When a
    dataset is passed and the callback leaves it alone, a call that
    returns leaves the same dataset object with, for every record that
    the generator keeps, the record's grid in the slab at the record's
    location, as numpy stores it there: the grid itself when it has the
    361 × 720 values of a slab.  The slabs at all other locations are
    what they were before the call. *)
Theorem accepted_grids_are_stored a records w d :
  (unpack_grib a records w).1 = Ok tt →
  sh_dataset (w_shared w) = Some d →
  callback_keeps_dataset a →
  ∃ d',
    sh_dataset (w_shared (unpack_grib a records w).2) = Some d'
    ∧ Dataset.close d' = Dataset.close d
    ∧ (∀ r, r ∈ kept records →
            ∃ n location slab,
              grib_location_name r = Some n
              ∧ grib_location n = Ok location
              ∧ broadcast_to (Dataset.shape !!! 3%nat) (Dataset.shape !!! 4%nat)
                  (values r) = Some slab
              ∧ slab_at d' location = Some slab
              ∧ (has_extent (Dataset.shape !!! 3%nat) (Dataset.shape !!! 4%nat)
                   (values r) → slab = values r))
    ∧ (∀ location,
         (∀ n, n ∈ names records → grib_location n ≠ Ok location) →
         slab_at d' location = slab_at d location).
Proof.
  intros Hok Hd Hcb.
  destruct (unpack_grib a records w) as [res w'] eqn:H. simpl in *. subst res.
  unfold unpack_grib in H.
  inv_bind H as H1 l0 w0; apply prologue_run in H1 as (Hs0 & _).
  inv_bind H as H2 l1 w1.
  rewrite <- Hs0 in Hd.
  destruct (for_records_stores a Hcb _ _ _ _ _ _ H2 Hd)
    as (d' & Hd' & Hclose & Hkept & Hother).
  assert (sh_dataset (w_shared w') = sh_dataset (w_shared w1)) as Hsame.
  { apply epilogue_run in H
      as [(e & [=] & _)|(? & ? & ? & ? & _ & _ & _ & _ & _ & _ & _ & ->)].
    done. }
  exists d'. split_and!; [by rewrite Hsame | done | | done].
  intros r Hr. destruct (Hkept r Hr) as (n & location & Hn & Hloc & Hholds).
  destruct Hholds as (d'' & arr & slab & Hd'' & Harr & Hslab & Hget).
  rewrite Hd' in Hd''. injection Hd'' as <-.
  exists n, location, slab. split_and!; [done..| |].
  - unfold slab_at. by rewrite Harr.
  - intros Hext. rewrite broadcast_to_exact in Hslab; [congruence| |done].
    cbn. lia.
Qed.

Lemma accepted_grids_are_stored_witness :
  ∃ d',
    sh_dataset
      (w_shared
         (unpack_grib Example.plain
            [Example.height_0_1000; Example.wind_u_3_1000]
            (Example.fresh_world_with_dataset
               {[Example.height; Example.wind_u]})).2) = Some d'
    ∧ Dataset.close d' = Dataset.close Example.new_dataset
    ∧ (∀ r, r ∈ kept [Example.height_0_1000; Example.wind_u_3_1000] →
            ∃ n location slab,
              grib_location_name r = Some n
              ∧ grib_location n = Ok location
              ∧ broadcast_to (Dataset.shape !!! 3%nat) (Dataset.shape !!! 4%nat)
                  (values r) = Some slab
              ∧ slab_at d' location = Some slab
              ∧ (has_extent (Dataset.shape !!! 3%nat) (Dataset.shape !!! 4%nat)
                   (values r) → slab = values r))
    ∧ (∀ location,
         (∀ n, n ∈ names [Example.height_0_1000; Example.wind_u_3_1000] →
               grib_location n ≠ Ok location) →
         slab_at d' location = slab_at Example.new_dataset location).
Proof.
  apply (accepted_grids_are_stored Example.plain
           [Example.height_0_1000; Example.wind_u_3_1000]
           (Example.fresh_world_with_dataset
              {[Example.height; Example.wind_u]})
           Example.new_dataset).
  - vm_compute. reflexivity.
  - reflexivity.
  - by intros f location n s [=].
Defined.

(** A turn of the loop on a dataset that cannot be written raises and
    leaves the world as it was. *)
Lemma unpack_record_unwritable a record location n l w d res w' :
  sh_dataset (w_shared w) = Some d →
  Dataset.new d = false ∨ Dataset.array d = None →
  unpack_record a record location n l w = (res, w') →
  (∃ e, res = Raise e) ∧ w' = w.
Proof.
  intros Hd Hun. unfold unpack_record. intros H.
  inv_bind H as H1; inv_pure H1.
  inv_bind H as H1; apply deref_run in H1 as [-> _]; [|eauto].
  inv_bind H as H1; inv_pure H1; [|eauto].
  inv_bind H as H2.
  2:{ destruct (checked_axes l); inv_pure H2. eauto. }
  assert (w0 = w) as -> by (destruct (checked_axes l); by inv_pure H2).
  clear H2.
  assert (∃ e, write_dataset location (values record) w = (Raise e, w))
    as [e He].
  { unfold write_dataset. rewrite Hd.
    destruct (Dataset.array d) as [arr|]; [|eauto].
    destruct Hun as [->|[=]]. simpl. eauto. }
  rewrite (bind_Raise _ _ _ _ _ He) in H. injection H as <- <-. eauto.
Qed.

(** X11: a dataset that cannot be written refuses every file with a
    record.  When the dataset passed was opened without [new] (its file
    is mapped for reading) or has been closed, a call on a file of which
    the generator keeps a record raises, and leaves the shared objects
    and the mirror sink as they were: the first such record either fails
    a check or cannot be stored, before anything is written. *)
Theorem unwritable_dataset_refuses a records w d :
  sh_dataset (w_shared w) = Some d →
  Dataset.new d = false ∨ Dataset.array d = None →
  kept records ≠ [] →
  (unpack_grib a records w).1 ≠ Ok tt
  ∧ w_shared (unpack_grib a records w).2 = w_shared w
  ∧ w_gribmirror (unpack_grib a records w).2 = w_gribmirror w.
Proof.
  intros Hd Hun Hkept.
  assert (unpack_grib a records w = unpack_grib a (kept records) w) as ->.
  { unfold unpack_grib, bind. destruct (prologue a w) as [[l|e] w0]; [|done].
    by rewrite for_records_kept. }
  destruct (kept records) as [|record rest] eqn:Hk; [done|].
  assert (is_Some (grib_location_name record)) as [n Hn].
  { assert (record ∈ kept records) as Hin by (rewrite Hk; left).
    by apply elem_of_kept in Hin as [_ ?]. }
  destruct (unpack_grib a (record :: rest) w) as [res w'] eqn:H. simpl.
  unfold unpack_grib in H.
  inv_bind H as H1 l0 w0; apply prologue_run in H1 as (Hs0 & Hm0 & _);
    [|done].
  cbn [for_records] in H. rewrite Hn in H.
  inv_bind H as H2 l1 w1; [|inv_bind H2 as H3 location w2].
  - inv_bind H2 as H3 location w2; inv_pure H3.
    inv_bind H2 as H4 l2 w3.
    rewrite <- Hs0 in Hd.
    by destruct (unpack_record_unwritable _ _ _ _ _ _ _ _ _ Hd Hun H4)
      as [[e [=]] _].
  - inv_pure H3. rewrite <- Hs0 in Hd.
    inv_bind H2 as H4 l2 w3.
    + by destruct (unpack_record_unwritable _ _ _ _ _ _ _ _ _ Hd Hun H4)
        as [[e' [=]] _].
    + destruct (unpack_record_unwritable _ _ _ _ _ _ _ _ _ Hd Hun H4)
        as [_ ->]. done.
  - inv_pure H3. done.
Qed.

Lemma unwritable_dataset_refuses_witness :
  (unpack_grib Example.plain [Example.height_0_1000]
     (World (Shared (Some Dataset.checklist)
               (Some (Dataset.close Example.new_dataset)))
        None [{[Example.height]}])).1 ≠ Ok tt
  ∧ w_shared
      (unpack_grib Example.plain [Example.height_0_1000]
         (World (Shared (Some Dataset.checklist)
                   (Some (Dataset.close Example.new_dataset)))
            None [{[Example.height]}])).2
    = w_shared
        (World (Shared (Some Dataset.checklist)
                  (Some (Dataset.close Example.new_dataset)))
           None [{[Example.height]}])
  ∧ w_gribmirror
      (unpack_grib Example.plain [Example.height_0_1000]
         (World (Shared (Some Dataset.checklist)
                   (Some (Dataset.close Example.new_dataset)))
            None [{[Example.height]}])).2
    = w_gribmirror
        (World (Shared (Some Dataset.checklist)
                  (Some (Dataset.close Example.new_dataset)))
           None [{[Example.height]}]).
Proof.
  apply (unwritable_dataset_refuses Example.plain [Example.height_0_1000]
           (World (Shared (Some Dataset.checklist)
                     (Some (Dataset.close Example.new_dataset)))
              None [{[Example.height]}])
           (Dataset.close Example.new_dataset)).
  - reflexivity.
  - by right.
  - by vm_compute.
Defined.

(** ** What a call that returns has found *)

(** A turn that ends well has found the triple in the working set and
    has removed it. *)
Lemma unpack_record_Ok_sets a record location n l w l' w' i s :
  unpack_record a record location n l w = (Ok l', w') →
  l_file_checklist l = Some i → w_sets w !! i = Some s →
  n ∈ s ∧ w_sets w' = <[i := s ∖ {[n]}]> (w_sets w).
Proof.
  intros H Hi Hs.
  pose proof (unpack_record_Ok _ _ _ _ _ _ _ _ H) as (_ & _ & _ & Hcheck & _).
  rewrite Hi in Hcheck. cbn [mbind option_bind] in Hcheck. rewrite Hs in Hcheck.
  apply check_record_Ok in Hcheck as (_ & _ & _ & Hin).
  specialize (Hin s eq_refl). split; [done|].
  unfold unpack_record in H.
  inv_bind H as H1; inv_pure H1.
  inv_bind H as H1; apply deref_run in H1 as [-> _].
  inv_bind H as H1; inv_pure H1.
  inv_bind H as H2.
  assert (w0 = w) as -> by (destruct (checked_axes l); by inv_pure H2).
  clear H2.
  inv_bind H as H2 u1 w1; apply write_dataset_run in H2 as (_ & _ & Hs1).
  inv_bind H as H2 u2 w2; apply write_gribmirror_run in H2 as (_ & _ & Hs2).
  inv_bind H as H3; inv_pure H3.
  inv_bind H as H4 u4 w4. inv_pure H.
  unfold remove_from in H4. rewrite Hi in H4. cbv beta iota in H4.
  rewrite Hs2 in H4. rewrite Hs1 in H4. rewrite Hs in H4.
  rewrite bool_decide_eq_true_2 in H4 by done.
  injection H4 as _ <-. done.
Qed.

Lemma for_records_sound a records :
  ∀ l w l' w',
    for_records a records l w = (Ok l', w') →
    (∀ h r, assert_hour a = Some h → r ∈ kept records → forecastTime r = h)
    ∧ (checked_axes l = false →
       ∀ r, head (kept records) = Some r → _check_axes r = Ok tt)
    ∧ (∀ i s, l_file_checklist l = Some i → w_sets w !! i = Some s →
              NoDup (names records)
              ∧ (∀ n, n ∈ names records → n ∈ s)
              ∧ w_sets w' !! i = Some (s ∖ list_to_set (names records))).
Proof.
  induction records as [|record rest IH]; intros l w l' w' H.
  - inv_pure H. split_and!.
    + by intros h r _ ?%elem_of_nil.
    + by intros _ r [=].
    + intros i s _ Hs. split_and!; [constructor| by intros n ?%elem_of_nil |].
      rewrite Hs. f_equal. apply set_eq. intros x.
      rewrite elem_of_difference, elem_of_list_to_set, elem_of_nil. tauto.
  - cbn [for_records] in H.
    destruct (grib_location_name record) as [n|] eqn:Hn.
    2:{ rewrite (kept_cons_None _ _ Hn).
        unfold names. cbn [omap list_omap]. rewrite Hn. by eapply IH. }
    rewrite (kept_cons_Some _ _ _ Hn).
    unfold names. cbn [omap list_omap]. rewrite Hn. fold (names rest).
    inv_bind H as H1 location w1; inv_pure H1.
    inv_bind H as H2 l1 w2.
    pose proof (unpack_record_Ok _ _ _ _ _ _ _ _ H2)
      as (temp & _ & Hl1 & Hcheck & Haxes).
    apply check_record_Ok in Hcheck as (_ & _ & Hhour & _).
    inv_bind H as H3 u w3. apply call_callback_run in H3 as (_ & Hs3 & _).
    destruct (IH _ _ _ _ H) as (IHhour & _ & IHsets).
    split_and!.
    + intros h r Hh [->|Hr]%elem_of_cons; [by apply Hhour | by eapply IHhour].
    + intros Hl r [= <-]. by apply Haxes.
    + intros i s Hi Hs.
      destruct (unpack_record_Ok_sets _ _ _ _ _ _ _ _ _ _ H2 Hi Hs)
        as [Hin Hs2].
      destruct (IHsets i (s ∖ {[n]})) as (Hnd & Hsub & Hfinal).
      { by rewrite Hl1. }
      { rewrite Hs3, Hs2. apply list_lookup_insert_eq.
        by eapply lookup_lt_Some. }
      split_and!.
      * apply NoDup_cons. split; [|done]. intros Hn'%Hsub.
        apply elem_of_difference in Hn' as [_ Hn']. apply Hn'.
        by apply elem_of_singleton.
      * intros n' [->|Hn']%elem_of_cons; [done|].
        apply Hsub in Hn'. by apply elem_of_difference in Hn' as [? _].
      * rewrite Hfinal. f_equal. apply set_eq. intros x.
        rewrite !elem_of_difference, !elem_of_list_to_set, elem_of_cons,
          elem_of_singleton. tauto.
Qed.

(** X12: a call returns only for a file that is its manifest.  Whenever
    [unpack_grib] returns, a manifest was passed and the triples of the
    records that the generator keeps are exactly its elements, each once;
    every triple is on the axes; every such record has the forecast hour
    given as [assert_hour], when one is given; and the first of them
    declares the latitudes and longitudes of the dataset. *)
Theorem returns_only_for_its_manifest a records w :
  (unpack_grib a records w).1 = Ok tt →
  ∃ i,
    file_checklist a = Some i
    ∧ w_sets w !! i = Some (list_to_set (names records))
    ∧ NoDup (names records)
    ∧ (∀ n, n ∈ names records → ∃ location, grib_location n = Ok location)
    ∧ (∀ h r, assert_hour a = Some h → r ∈ kept records → forecastTime r = h)
    ∧ (∀ r, head (kept records) = Some r → _check_axes r = Ok tt).
Proof.
  intros Hok.
  destruct (unpack_grib a records w) as [res w'] eqn:H. simpl in *. subst res.
  unfold unpack_grib in H.
  inv_bind H as H1 l0 w0. inv_bind H as H2 l1 w1.
  pose proof (for_records_locals _ _ _ _ _ _ H2) as Hfc.
  pose proof (for_records_temp _ _ _ _ _ _ H2) as (_ & _ & _ & Hlocs).
  destruct (for_records_sound _ _ _ _ _ _ H2) as (Hhour & Haxes & Hsets).
  apply epilogue_run in H
    as [(e & [=] & _)|(j & _ & _ & _ & _ & Hj & Hempty & _)].
  apply prologue_run in H1
    as (_ & _ & [(_ & [= ->] & _)|[(? & _ & _ & [=] & _)
                                  |(i & s & Hi & Hs & [= ->] & Hs0)]]).
  { simpl in Hfc. congruence. }
  simpl in Hfc. rewrite Hj in Hfc. injection Hfc as ->.
  destruct (Hsets (length (w_sets w)) s eq_refl) as (Hnd & Hsub & Hfinal).
  { rewrite Hs0. by apply list_lookup_middle. }
  rewrite Hempty in Hfinal. injection Hfinal as Hfinal.
  exists i. split_and!; [done| |done| |done|by apply Haxes].
  - rewrite Hs. f_equal. apply set_eq. intros n.
    rewrite elem_of_list_to_set. split; [|by apply Hsub].
    intros Hin. destruct (decide (n ∈ names records)) as [|Hnot]; [done|].
    assert (n ∈ s ∖ list_to_set (names records)) as Hd.
    { apply elem_of_difference. by rewrite elem_of_list_to_set. }
    rewrite <- Hfinal in Hd. by apply not_elem_of_empty in Hd.
  - intros n Hn. destruct (Hlocs n Hn) as (location & Hloc & _). eauto.
Qed.

Lemma returns_only_for_its_manifest_witness :
  ∃ i,
    file_checklist Example.plain = Some i
    ∧ w_sets (Example.fresh_world {[Example.height; Example.wind_u]}) !! i
      = Some (list_to_set
                (names [Example.height_0_1000; Example.wind_u_3_1000]))
    ∧ NoDup (names [Example.height_0_1000; Example.wind_u_3_1000])
    ∧ (∀ n, n ∈ names [Example.height_0_1000; Example.wind_u_3_1000] →
            ∃ location, grib_location n = Ok location)
    ∧ (∀ h r, assert_hour Example.plain = Some h →
              r ∈ kept [Example.height_0_1000; Example.wind_u_3_1000] →
              forecastTime r = h)
    ∧ (∀ r, head (kept [Example.height_0_1000; Example.wind_u_3_1000])
            = Some r → _check_axes r = Ok tt).
Proof.
  apply (returns_only_for_its_manifest Example.plain
           [Example.height_0_1000; Example.wind_u_3_1000]
           (Example.fresh_world {[Example.height; Example.wind_u]})).
  vm_compute. reflexivity.
Defined.

Lemma for_records_marks a records :
  ∀ seen l w l' w',
    for_records a records l w = (Ok l', w') →
    marks seen (checklist_temp l) → NoDup seen →
    ∃ locs,
      Forall2 (λ n location, grib_location n = Ok location)
        (names records) locs
      ∧ NoDup (seen ++ locs)
      ∧ marks (seen ++ locs) (checklist_temp l').
Proof.
  induction records as [|record rest IH]; intros seen l w l' w' H Hmarks Hnd.
  - inv_pure H. exists []. rewrite app_nil_r. by split_and!; [constructor|..].
  - cbn [for_records] in H. unfold names. cbn [omap list_omap].
    destruct (grib_location_name record) as [n|] eqn:Hn; [|by eapply IH].
    fold (names rest).
    inv_bind H as H1 location w1; inv_pure H1.
    inv_bind H as H2 l1 w2.
    apply unpack_record_Ok in H2 as (temp & Hset & -> & Hcheck & _).
    apply check_record_Ok in Hcheck as (Hfalse & _).
    inv_bind H as H3 u w3.
    symmetry in H1.
    destruct (grib_location_in_range _ _ H1) as [o Ho].
    assert (location ∉ seen) as Hnew.
    { destruct Hmarks as (_ & _ & Hget). rewrite Hget, Ho in Hfalse.
      injection Hfalse as Hfalse. by apply bool_decide_eq_false in Hfalse. }
    destruct (marks_setitem seen (checklist_temp l) location Hmarks)
      as (t' & Hset' & Hmarks'); [by eexists|].
    rewrite Hset in Hset'. injection Hset' as <-.
    destruct (IH (seen ++ [location]) _ _ _ _ H Hmarks')
      as (locs & Hall & Hnd' & Hfinal).
    { apply NoDup_app. split_and!; [done| |apply NoDup_singleton].
      intros x Hx ->%list_elem_of_singleton. done. }
    exists (location :: locs). rewrite (cons_middle location seen locs).
    rewrite (assoc app). split_and!; [|done..]. by constructor.
Qed.

(** X13: what a call that returns has merged.  Whenever [unpack_grib]
    returns, the triples of the file resolve to pairwise distinct slots;
    the shared checklist is an array of the shape of
    [Dataset.checklist()] whose value after the call is its value after
    the loop with exactly these slots set in addition: each of them was
    false and is true, and no other element differs.  The merge is the
    only thing the call does after the loop. *)
Theorem merge_on_return a records w :
  (unpack_grib a records w).1 = Ok tt →
  ∃ locs prior merged,
    Forall2 (λ n location, grib_location n = Ok location)
      (names records) locs
    ∧ NoDup locs
    ∧ sh_checklist (w_shared (unpack_prefix a records w).2) = Some prior
    ∧ (unpack_grib a records w).2
      = set_checklist merged (unpack_prefix a records w).2
    ∧ Np.shape prior = take 3 Dataset.shape
    ∧ Np.shape merged = take 3 Dataset.shape
    ∧ (∀ location,
         Np.getitem merged location
         = (λ b, b || bool_decide (location ∈ locs))
             <$> Np.getitem prior location)
    ∧ (∀ location, location ∈ locs →
                   Np.getitem prior location = Some false
                   ∧ Np.getitem merged location = Some true).
Proof.
  intros Hok. rewrite unpack_grib_prefix in Hok |- *.
  unfold bind in Hok |- *.
  destruct (unpack_prefix a records w) as [[l|e] w1] eqn:Hprefix;
    cbv beta iota in Hok |- *; [|done].
  destruct (epilogue l w1) as [res w'] eqn:H. simpl in Hok. subst res.
  cbn [fst snd].
  apply unpack_prefix_Ok in Hprefix as (l0 & w0 & H0 & Hloop & _).
  apply prologue_Ok in H0 as (Ht0 & _).
  destruct (for_records_marks a records [] _ _ _ _ Hloop)
    as (locs & Hall & Hnd & Hmarks);
    [rewrite Ht0; apply marks_fresh | constructor |].
  rewrite app_nil_l in Hnd, Hmarks.
  destruct Hmarks as (Htshape & Htwf & Htget).
  apply epilogue_run in H
    as [(e & [=] & _)|(j & prior & both & merged & _ & _ & _ & Hprior
                       & Hand & Hany & Hor & ->)].
  pose proof Hand as Hz. apply zip_Some in Hz as (Hshape & Hlen & _).
  assert (Np.shape prior = take 3 Dataset.shape) as Hpshape by congruence.
  assert (Np.wf prior) as Hpwf.
  { unfold Np.wf in *. by rewrite Hlen, Hshape. }
  assert (∀ location,
            Np.getitem merged location
            = (λ b, b || bool_decide (location ∈ locs))
                <$> Np.getitem prior location) as Hmerged.
  { intros location. rewrite (getitem_zip _ _ _ _ location Hor), Htget.
    unfold Np.getitem. rewrite Hpshape.
    destruct (Np.ravel (take 3 Dataset.shape) location) as [o|]; [|done].
    simpl. by destruct (Np.data prior !! o). }
  assert (∀ location, location ∈ locs →
                      Np.getitem prior location = Some false) as Hclear.
  { intros location Hin.
    assert (is_Some (Np.ravel (take 3 Dataset.shape) location)) as [o Ho].
    { apply list_elem_of_lookup in Hin as [k Hk].
      destruct (Forall2_lookup_r _ _ _ _ _ Hall Hk) as (n & _ & Hn).
      by eapply grib_location_in_range. }
    destruct (getitem_is_Some prior location o) as [b Hb];
      [done | by rewrite Hpshape |].
    destruct b; [|done]. exfalso.
    apply (and_any_false _ _ _ location Hand Hany). split; [done|].
    rewrite Htget, Ho. simpl. by rewrite bool_decide_eq_true_2. }
  exists locs, prior, merged.
  split_and!; [done..| |done|].
  - by rewrite (zip_shape _ _ _ _ Hor).
  - intros location Hin. split; [by apply Hclear|].
    rewrite Hmerged, (Hclear _ Hin). simpl. by rewrite bool_decide_eq_true_2.
Qed.

Lemma merge_on_return_witness :
  ∃ locs prior merged,
    Forall2 (λ n location, grib_location n = Ok location)
      (names [Example.height_0_1000; Example.wind_u_3_1000]) locs
    ∧ NoDup locs
    ∧ sh_checklist
        (w_shared
           (unpack_prefix Example.plain
              [Example.height_0_1000; Example.wind_u_3_1000]
              (Example.fresh_world {[Example.height; Example.wind_u]})).2)
      = Some prior
    ∧ (unpack_grib Example.plain
         [Example.height_0_1000; Example.wind_u_3_1000]
         (Example.fresh_world {[Example.height; Example.wind_u]})).2
      = set_checklist merged
          (unpack_prefix Example.plain
             [Example.height_0_1000; Example.wind_u_3_1000]
             (Example.fresh_world {[Example.height; Example.wind_u]})).2
    ∧ Np.shape prior = take 3 Dataset.shape
    ∧ Np.shape merged = take 3 Dataset.shape
    ∧ (∀ location,
         Np.getitem merged location
         = (λ b, b || bool_decide (location ∈ locs))
             <$> Np.getitem prior location)
    ∧ (∀ location, location ∈ locs →
                   Np.getitem prior location = Some false
                   ∧ Np.getitem merged location = Some true).
Proof.
  apply (merge_on_return Example.plain
           [Example.height_0_1000; Example.wind_u_3_1000]
           (Example.fresh_world {[Example.height; Example.wind_u]})).
  vm_compute. reflexivity.
Defined.

(** ** Calls that cannot return *)

(** X14: a call without a checklist does not return.  [checklist] has
    the default [None], but the statements after the loop use it as an
    array: when no checklist is passed (and the callback, which cannot
    rebind the argument, leaves it so), [unpack_grib] raises, at the
    latest a [TypeError] where it would merge. *)
Theorem no_checklist_never_returns a records w :
  sh_checklist (w_shared w) = None →
  callback_keeps a (λ s, sh_checklist s = None) →
  (unpack_grib a records w).1 ≠ Ok tt
  ∧ (∀ l, (unpack_prefix a records w).1 = Ok l →
          (unpack_grib a records w).1 = Raise (ValueError RecordsMissing)
          ∨ (unpack_grib a records w).1 = Raise TypeError).
Proof.
  intros Hnone Hcb.
  assert (∀ l w1, unpack_prefix a records w = (Ok l, w1) →
                  sh_checklist (w_shared w1) = None) as Hkeep.
  { intros l w1 (l0 & w0 & H0 & Hloop & Hs0 & _)%unpack_prefix_Ok.
    refine (for_records_keeps (λ s, sh_checklist s = None) a Hcb _
              _ _ _ _ _ Hloop _); [|by rewrite Hs0].
    intros s s' Hown. by rewrite (own_write_checklist _ _ Hown). }
  rewrite unpack_grib_prefix. unfold bind.
  destruct (unpack_prefix a records w) as [[l|e] w1] eqn:Hprefix;
    cbv beta iota; [|by split].
  specialize (Hkeep l w1 eq_refl).
  assert ((epilogue l w1).1 = Raise (ValueError RecordsMissing)
          ∨ (epilogue l w1).1 = Raise TypeError) as Hepi.
  { unfold epilogue, bind, deref.
    destruct (l_file_checklist l) as [i|] eqn:Hi; [|by left].
    apply unpack_prefix_Ok in Hprefix as (_ & _ & _ & _ & _ & Hvalid & _).
    destruct (Hvalid i Hi) as [s ->].
    case_bool_decide; [by left|]. unfold gets. rewrite Hkeep. by right. }
  split; [|by intros ? _].
  intros Hok. destruct Hepi as [He|He]; rewrite He in Hok; done.
Qed.

Lemma no_checklist_never_returns_witness :
  (unpack_grib Example.plain [Example.height_0_1000]
     (World (Shared None None) None [{[Example.height]}])).1 ≠ Ok tt
  ∧ (∀ l, (unpack_prefix Example.plain [Example.height_0_1000]
             (World (Shared None None) None [{[Example.height]}])).1 = Ok l →
          (unpack_grib Example.plain [Example.height_0_1000]
             (World (Shared None None) None [{[Example.height]}])).1
          = Raise (ValueError RecordsMissing)
          ∨ (unpack_grib Example.plain [Example.height_0_1000]
               (World (Shared None None) None [{[Example.height]}])).1
            = Raise TypeError).
Proof.
  apply (no_checklist_never_returns Example.plain [Example.height_0_1000]
           (World (Shared None None) None [{[Example.height]}])).
  - reflexivity.
  - by intros f location n s [=].
Defined.

(** A turn of the loop does not raise the error of the statements after
    the loop. *)
Lemma unpack_record_not_missing a record location n l w e w' :
  unpack_record a record location n l w = (Raise e, w') →
  e ≠ ValueError RecordsMissing.
Proof.
  unfold unpack_record. intros H.
  inv_bind H as H1; inv_pure H1.
  inv_bind H as H1.
  2:{ unfold deref in H1. repeat case_match; by simplify_eq. }
  apply deref_run in H1 as [-> _].
  inv_bind H as H1; inv_pure H1.
  2:{ unfold _check_record, or_index_error in H1.
      repeat case_match; by simplify_eq. }
  inv_bind H as H2.
  2:{ destruct (checked_axes l); inv_pure H2.
      unfold _check_axes in H2. repeat case_match; by simplify_eq. }
  inv_bind H as H3.
  2:{ unfold write_dataset in H3. repeat case_match; by simplify_eq. }
  inv_bind H as H4; [|by apply write_gribmirror_run in H4 as ([=] & _)].
  inv_bind H as H5; inv_pure H5.
  2:{ unfold or_index_error in H5. repeat case_match; by simplify_eq. }
  inv_bind H as H6; [by inv_pure H|].
  unfold remove_from in H6. repeat case_match; by simplify_eq.
Qed.

Lemma for_records_not_missing a records :
  (∀ f location n s, callback a = Some f →
                     (f location n s).1 ≠ Raise (ValueError RecordsMissing)) →
  ∀ l w e w',
    for_records a records l w = (Raise e, w') →
    e ≠ ValueError RecordsMissing.
Proof.
  intros Hcb. induction records as [|record rest IH]; intros l w e w' H.
  - by inv_pure H.
  - cbn [for_records] in H.
    destruct (grib_location_name record) as [n|]; [|by eapply IH].
    inv_bind H as H1 location w1; inv_pure H1.
    2:{ unfold grib_location in H1. repeat case_match; by simplify_eq. }
    inv_bind H as H2 l1 w2; [|by eapply unpack_record_not_missing].
    inv_bind H as H3 u w3; [by eapply IH|].
    unfold call_callback in H3.
    destruct (callback a) as [f|] eqn:Hf; [|done].
    specialize (Hcb f location n (w_shared w2) eq_refl).
    destruct (f location n (w_shared w2)) as [r s]. injection H3 as -> _.
    simpl in Hcb. congruence.
Qed.

(** X15: records are missed only after the whole file.  When a call ends
    with the error for records missing from the file (and the callback
    does not raise that error itself), the loop has run to its end: every
    record that the generator keeps passed its checks, with its triple in
    the manifest, and was stored, mirrored and reported, and the world is
    as the loop left it.  Either no manifest was passed, or the manifest
    holds a triple that is not in the file. *)
Theorem records_missing_after_the_loop a records w w' :
  (∀ f location n s, callback a = Some f →
                     (f location n s).1 ≠ Raise (ValueError RecordsMissing)) →
  unpack_grib a records w = (Raise (ValueError RecordsMissing), w') →
  (∃ l, unpack_prefix a records w = (Ok l, w'))
  ∧ (file_checklist a = None
     ∨ ∃ i s n,
         file_checklist a = Some i ∧ w_sets w !! i = Some s
         ∧ (∀ n', n' ∈ names records → n' ∈ s)
         ∧ n ∈ s ∧ n ∉ names records).
Proof.
  intros Hcb H. unfold unpack_grib in H.
  inv_bind H as H1 l0 w0.
  2:{ by apply prologue_run in H1
        as (_ & _ & [(_ & [=] & _)|[(? & _ & _ & [=] & _)
                                   |(? & ? & _ & _ & [=] & _)]]). }
  inv_bind H as H2 l1 w1.
  2:{ by apply (for_records_not_missing a records Hcb) in H2. }
  pose proof (for_records_locals _ _ _ _ _ _ H2) as Hfc.
  destruct (for_records_sound _ _ _ _ _ _ H2) as (_ & _ & Hsets).
  pose proof (f_equal fst H) as Hres. simpl in Hres.
  apply epilogue_run in H as [(e & _ & ->)|(? & ? & ? & ? & [=] & _)].
  split.
  { exists l1. unfold unpack_prefix. by rewrite (bind_Ok _ _ _ _ _ H1). }
  apply epilogue_records_missing in Hres
    as [Hnone|(j & s' & Hj & Hs' & Hne)].
  - left. apply prologue_Ok in H1 as (_ & _ & _ & Hiff & _).
    apply Hiff. congruence.
  - right.
    apply prologue_run in H1
      as (_ & _ & [(_ & [= ->] & _)|[(? & _ & _ & [=] & _)
                                    |(i & s & Hi & Hs & [= ->] & Hs0)]]).
    { simpl in Hfc. congruence. }
    simpl in Hfc. rewrite Hj in Hfc. injection Hfc as ->.
    destruct (Hsets (length (w_sets w)) s eq_refl) as (_ & Hsub & Hfinal).
    { rewrite Hs0. by apply list_lookup_middle. }
    rewrite Hs' in Hfinal. injection Hfinal as ->.
    apply set_choose_L in Hne as [n Hn].
    apply elem_of_difference in Hn as [Hin Hnot].
    rewrite elem_of_list_to_set in Hnot.
    exists i, s, n. by split_and!.
Qed.

Lemma records_missing_after_the_loop_witness :
  (∃ l, unpack_prefix Example.plain [Example.height_0_1000]
          (Example.fresh_world {[Example.height; Example.wind_u]})
        = (Ok l,
           (unpack_grib Example.plain [Example.height_0_1000]
              (Example.fresh_world {[Example.height; Example.wind_u]})).2))
  ∧ (file_checklist Example.plain = None
     ∨ ∃ i s n,
         file_checklist Example.plain = Some i
         ∧ w_sets (Example.fresh_world {[Example.height; Example.wind_u]}) !! i
           = Some s
         ∧ (∀ n', n' ∈ names [Example.height_0_1000] → n' ∈ s)
         ∧ n ∈ s ∧ n ∉ names [Example.height_0_1000]).
Proof.
  apply (records_missing_after_the_loop Example.plain [Example.height_0_1000]
           (Example.fresh_world {[Example.height; Example.wind_u]})
           (unpack_grib Example.plain [Example.height_0_1000]
              (Example.fresh_world {[Example.height; Example.wind_u]})).2).
  - by intros f location n s [=].
  - vm_compute. reflexivity.
Defined.

(** X16: a record that [_check_record] refuses ends the call.  When the
    records before it have passed (leaving the local variables [l] and
    the world) and a record's triple is on the axes but the record fails
    a check (its slot is already marked for this file or in the shared
    checklist, its forecast hour is not the expected one, its triple is
    not in what is left of the manifest), the call raises the error of
    that check and leaves the world as the records before left it:
    nothing of this record or of a later one is stored, mirrored,
    reported or looked at. *)
Theorem refused_record_ends_the_call a pre record post w l n location e :
  (unpack_prefix a pre w).1 = Ok l →
  grib_location_name record = Some n →
  grib_location n = Ok location →
  _check_record record location n (checklist_temp l)
    (sh_checklist (w_shared (unpack_prefix a pre w).2)) (assert_hour a)
    (l_file_checklist l ≫= λ i, w_sets (unpack_prefix a pre w).2 !! i)
  = Raise e →
  unpack_grib a (pre ++ record :: post) w
  = (Raise e, (unpack_prefix a pre w).2).
Proof.
  destruct (unpack_prefix a pre w) as [r1 w1] eqn:Hprefix. simpl.
  intros -> Hn Hloc Hcheck.
  destruct (unpack_prefix_Ok _ _ _ _ _ Hprefix)
    as (l0 & w0 & H0 & Hloop & _ & Hvalid & _).
  unfold unpack_grib. rewrite (bind_Ok _ _ _ _ _ H0).
  apply bind_Raise. rewrite for_records_app.
  rewrite (bind_Ok _ _ _ _ _ Hloop). cbn [for_records]. rewrite Hn, Hloc.
  erewrite bind_Ok; [|reflexivity].
  apply bind_Raise. by apply unpack_record_check_raises.
Qed.

Lemma refused_record_ends_the_call_witness :
  unpack_grib (Args (Some 0) (Some 0%nat) None)
    ([Example.height_0_1000] ++ Example.wind_u_3_1000 :: [])
    (Example.fresh_world {[Example.height; Example.wind_u]})
  = (Raise (ValueError IncorrectForecastTime),
     (unpack_prefix (Args (Some 0) (Some 0%nat) None) [Example.height_0_1000]
        (Example.fresh_world {[Example.height; Example.wind_u]})).2).
Proof.
  apply (refused_record_ends_the_call (Args (Some 0) (Some 0%nat) None)
           [Example.height_0_1000] Example.wind_u_3_1000 []
           (Example.fresh_world {[Example.height; Example.wind_u]})
           (Locals (Some 1%nat)
              (default Dataset.checklist
                 (Np.setitem Dataset.checklist (0, 0, 0)%nat true)) true)
           Example.wind_u (1, 0, 1)%nat).
  - vm_compute. reflexivity.
  - reflexivity.
  - reflexivity.
  - vm_compute. reflexivity.
Defined.

(** ** The grid that [_check_axes] accepts *)

Lemma array_equal_Forall2 a b :
  Py.array_equal a b = true ↔ Forall2 Qeq a b.
Proof.
  revert b. induction a as [|x a IH]; intros [|y b]; simpl.
  - split; [constructor | done].
  - split; [done | by intros ?%Forall2_nil_inv_l].
  - split; [done | by intros ?%Forall2_nil_inv_r].
  - rewrite andb_true_iff, IH, Qeq_bool_iff, Forall2_cons. done.
Qed.

Lemma array_equal_arange l start stop step :
  Py.array_equal l (Py.arange start stop step) = true
  ↔ regular_axis start step (Z.to_nat (Qceiling ((stop - start) / step))) l.
Proof.
  rewrite array_equal_Forall2, Forall2_same_length_lookup.
  unfold Py.arange, regular_axis. rewrite length_fmap, length_seq.
  split; intros [Hlen H]; (split; [done|]).
  - intros i x Hi. apply (H i x _ Hi).
    rewrite list_lookup_fmap, lookup_seq_lt; [done|].
    rewrite <- Hlen. by eapply lookup_lt_Some.
  - intros i x y Hi Hy. rewrite list_lookup_fmap in Hy.
    apply fmap_Some in Hy as (k & [-> _]%lookup_seq & ->). by apply H.
Qed.

(** X17: the grid of the dataset.  [_check_axes] accepts a record exactly
    when the latitudes it declares are the 361 values from -90 up to and
    including 90 in steps of one half, in this order, and its longitudes
    the 720 values from 0 up to 359.5 in steps of one half; a record with
    other latitudes is refused for its latitudes, whatever its
    longitudes, and one with these latitudes and other longitudes for its
    longitudes. *)
Theorem accepted_axes record :
  (_check_axes record = Ok tt
   ↔ regular_axis (-90) (1 # 2) 361 (distinctLatitudes record)
     ∧ regular_axis 0 (1 # 2) 720 (distinctLongitudes record))
  ∧ (_check_axes record = Raise (ValueError UnexpectedLatitudes)
     ↔ ¬ regular_axis (-90) (1 # 2) 361 (distinctLatitudes record))
  ∧ (_check_axes record = Raise (ValueError UnexpectedLongitudes)
     ↔ regular_axis (-90) (1 # 2) 361 (distinctLatitudes record)
       ∧ ¬ regular_axis 0 (1 # 2) 720 (distinctLongitudes record)).
Proof.
  pose proof (array_equal_arange (distinctLatitudes record)
                (-90) (90 + (1 # 2)) (1 # 2)) as Hlat.
  pose proof (array_equal_arange (distinctLongitudes record)
                0 360 (1 # 2)) as Hlon.
  change (Z.to_nat (Qceiling ((90 + (1 # 2) - -90) / (1 # 2)))) with 361%nat
    in Hlat.
  change (Z.to_nat (Qceiling ((360 - 0) / (1 # 2)))) with 720%nat in Hlon.
  unfold _check_axes.
  change (Dataset.latitude Dataset.axes)
    with (Py.arange (-90) (90 + (1 # 2)) (1 # 2)).
  change (Dataset.longitude Dataset.axes) with (Py.arange 0 360 (1 # 2)).
  rewrite <- Hlat, <- Hlon.
  destruct (Py.array_equal (distinctLatitudes record) _),
           (Py.array_equal (distinctLongitudes record) _);
    cbn [negb]; split_and!; split; try done; intuition congruence.
Qed.

(** ** Ingestions of fitting files, taking turns *)















(** ** Records off the axes *)

Lemma hour_on_axis h :
  h ∈ Dataset.hour Dataset.axes ↔ ∃ k : nat, (k < 65)%nat ∧ h = 3 * Z.of_nat k.
Proof.
  rewrite hour_axis, list_elem_of_fmap. split.
  - intros (k & -> & [_ Hk]%elem_of_seq). exists k. split; [lia | done].
  - intros (k & Hk & ->). exists k. split; [done|]. apply elem_of_seq. lia.
Qed.

Lemma pressure_on_axis p :
  p ∈ Dataset.pressure Dataset.axes
  ↔ p ∈ Dataset.pressures_pgrb2f ++ Dataset.pressures_pgrb2bf.
Proof.
  change (Dataset.pressure Dataset.axes)
    with (Py.sorted_reverse
            (Dataset.pressures_pgrb2f ++ Dataset.pressures_pgrb2bf)).
  by rewrite sorted_reverse_perm.
Qed.

(** X19: a record off the axes ends the call.  When the records before
    it have been processed and a record that the generator keeps has a
    forecast hour that is not one of 0, 3, ..., 192, or a level that is
    in neither list of pressures, looking its location up raises a
    [ValueError] (for the hour if the hour is off its axis, else for the
    level), and the call ends with it, leaving the world as the records
    before left it: the record is not checked, stored, mirrored or
    reported, and no later record is looked at. *)
Theorem record_off_the_axes_ends_the_call a pre record post w l :
  (unpack_prefix a pre w).1 = Ok l →
  is_Some (grib_location_name record) →
  (¬ (∃ k : nat, (k < 65)%nat ∧ forecastTime record = 3 * Z.of_nat k))
  ∨ level record ∉ Dataset.pressures_pgrb2f ++ Dataset.pressures_pgrb2bf →
  ∃ axis,
    unpack_grib a (pre ++ record :: post) w
    = (Raise (ValueError (NotInAxis axis)), (unpack_prefix a pre w).2)
    ∧ (axis = 0%nat
       ↔ ¬ (∃ k : nat, (k < 65)%nat ∧ forecastTime record = 3 * Z.of_nat k))
    ∧ (axis = 0 ∨ axis = 1)%nat.
Proof.
  destruct (unpack_prefix a pre w) as [r1 w1] eqn:Hprefix. simpl.
  intros -> [n Hn] Hoff.
  destruct (unpack_prefix_Ok _ _ _ _ _ Hprefix)
    as (l0 & w0 & H0 & Hloop & _).
  assert (n = (forecastTime record, level record, n.2)) as Hfields.
  { unfold grib_location_name in Hn. case_bool_decide; [done|].
    destruct (_grib_name_to_variable !! name record); [|done].
    by injection Hn as <-. }
  assert (∃ axis,
            grib_location n = Raise (ValueError (NotInAxis axis))
            ∧ (axis = 0%nat
               ↔ ¬ (∃ k : nat, (k < 65)%nat
                               ∧ forecastTime record = 3 * Z.of_nat k))
            ∧ (axis = 0 ∨ axis = 1)%nat) as (axis & Hloc & Haxis).
  { rewrite Hfields. unfold grib_location.
    pose proof (hour_on_axis (forecastTime record)) as Hhour.
    destruct (Py.index (Dataset.hour Dataset.axes) (forecastTime record))
      as [i|] eqn:Hi.
    - assert (forecastTime record ∈ Dataset.hour Dataset.axes) as Hin.
      { apply index_Some in Hi as [Hi _]. by eapply list_elem_of_lookup_2. }
      destruct Hoff as [Hoff|Hoff]; [by apply Hhour in Hin|].
      rewrite <- pressure_on_axis in Hoff. apply index_None in Hoff.
      rewrite Hoff. exists 1%nat. split_and!; [done| |by right].
      split; [done|]. intros Hnot. by apply Hhour in Hin.
    - exists 0%nat. apply index_None in Hi. split_and!; [done| |by left].
      split; [|done]. intros _ Hk. by apply Hhour in Hk. }
  exists axis. split; [|done].
  unfold unpack_grib. rewrite (bind_Ok _ _ _ _ _ H0).
  apply bind_Raise. rewrite for_records_app.
  rewrite (bind_Ok _ _ _ _ _ Hloop). cbn [for_records]. rewrite Hn.
  apply bind_Raise. unfold lift. by rewrite Hloc.
Qed.

Lemma record_off_the_axes_ends_the_call_witness :
  ∃ axis,
    unpack_grib Example.plain
      ([Example.height_0_1000]
         ++ Example.record_at 1 1000 "U component of wind" :: [])
      (Example.fresh_world {[Example.height; Example.wind_u]})
    = (Raise (ValueError (NotInAxis axis)),
       (unpack_prefix Example.plain [Example.height_0_1000]
          (Example.fresh_world {[Example.height; Example.wind_u]})).2)
    ∧ (axis = 0%nat
       ↔ ¬ (∃ k : nat,
              (k < 65)%nat
              ∧ forecastTime (Example.record_at 1 1000 "U component of wind")
                = 3 * Z.of_nat k))
    ∧ (axis = 0 ∨ axis = 1)%nat.
Proof.
  apply (record_off_the_axes_ends_the_call Example.plain
           [Example.height_0_1000]
           (Example.record_at 1 1000 "U component of wind") []
           (Example.fresh_world {[Example.height; Example.wind_u]})
           (Locals (Some 1%nat)
              (default Dataset.checklist
                 (Np.setitem Dataset.checklist (0, 0, 0)%nat true)) true)).
  - vm_compute. reflexivity.
  - vm_compute. eauto.
  - left. simpl. intros (k & _ & Hk). lia.
Defined.

(** ** An exception of the callback *)

(** X20: an exception of the callback ends the call after the record it
    was called for.  The callback is called with a record's location and
    triple once the record has passed its checks and has been stored,
    mirrored, marked in the local checklist and removed from the working
    set: when it raises, the call ends with its exception and leaves the
    world as that turn left it, with what the callback did to the shared
    objects; no later record is looked at and nothing is merged. *)
Theorem callback_error_ends_the_call a pre record post w n location l1 f e :
  grib_location_name record = Some n →
  grib_location n = Ok location →
  (bind (unpack_prefix a pre) (unpack_record a record location n) w).1
  = Ok l1 →
  callback a = Some f →
  (f location n
     (w_shared
        (bind (unpack_prefix a pre) (unpack_record a record location n) w).2)).1
  = Raise e →
  unpack_grib a (pre ++ record :: post) w
  = (Raise e,
     set_shared
       (f location n
          (w_shared
             (bind (unpack_prefix a pre)
                (unpack_record a record location n) w).2)).2
       (bind (unpack_prefix a pre) (unpack_record a record location n) w).2).
Proof.
  intros Hn Hloc Hturn Hf Hraise.
  destruct (bind (unpack_prefix a pre) (unpack_record a record location n) w)
    as [r2 w2] eqn:Hrun.
  simpl in *. subst r2.
  inv_bind Hrun as Hprefix l w1.
  destruct (unpack_prefix_Ok _ _ _ _ _ Hprefix)
    as (l0 & w0 & H0 & Hloop & _).
  unfold unpack_grib. rewrite (bind_Ok _ _ _ _ _ H0).
  apply bind_Raise. rewrite for_records_app.
  rewrite (bind_Ok _ _ _ _ _ Hloop). cbn [for_records]. rewrite Hn, Hloc.
  erewrite bind_Ok; [|reflexivity].
  rewrite (bind_Ok _ _ _ _ _ Hrun).
  apply bind_Raise. unfold call_callback. rewrite Hf.
  destruct (f location n (w_shared w2)) as [r s]. simpl in *. by subst r.
Qed.

Lemma callback_error_ends_the_call_witness :
  unpack_grib (Args None (Some 0%nat) (Some (raising_callback TypeError)))
    ([] ++ Example.height_0_1000 :: [Example.wind_u_3_1000])
    (Example.fresh_world {[Example.height; Example.wind_u]})
  = (Raise TypeError,
     set_shared
       (raising_callback TypeError (0, 0, 0)%nat Example.height
          (w_shared
             (bind (unpack_prefix
                      (Args None (Some 0%nat)
                         (Some (raising_callback TypeError))) [])
                (unpack_record
                   (Args None (Some 0%nat)
                      (Some (raising_callback TypeError)))
                   Example.height_0_1000 (0, 0, 0)%nat Example.height)
                (Example.fresh_world
                   {[Example.height; Example.wind_u]})).2)).2
       (bind (unpack_prefix
                (Args None (Some 0%nat) (Some (raising_callback TypeError)))
                [])
          (unpack_record
             (Args None (Some 0%nat) (Some (raising_callback TypeError)))
             Example.height_0_1000 (0, 0, 0)%nat Example.height)
          (Example.fresh_world {[Example.height; Example.wind_u]})).2).
Proof.
  apply (callback_error_ends_the_call
           (Args None (Some 0%nat) (Some (raising_callback TypeError)))
           [] Example.height_0_1000 [Example.wind_u_3_1000]
           (Example.fresh_world {[Example.height; Example.wind_u]})
           Example.height (0, 0, 0)%nat
           (Locals (Some 1%nat)
              (default Dataset.checklist
                 (Np.setitem Dataset.checklist (0, 0, 0)%nat true)) true)
           (raising_callback TypeError) TypeError).
  - reflexivity.
  - reflexivity.
  - vm_compute. reflexivity.
  - reflexivity.
  - reflexivity.
Defined.

(** ** A call that fails *)






